(** * CLIP (nets/clip.py, nets/vit.py): a shallow embedding and its properties

    The Python classes are embedded as records and functions over a small
    model of the tensor runtime: a tensor is its dtype, its device, its
    shape and its row-major contents.  Scalars and their arithmetic are
    left abstract (class [Runtime]); nothing below relies on an algebraic
    law of floating-point arithmetic. *)

From Stdlib Require Import List Arith ZArith Lia Bool.
From Stdlib Require String.
Import String.StringSyntax.

Set Warnings "-abstract-large-number".
Import ListNotations.
Local Open Scope nat_scope.

Set Implicit Arguments.

(** ** Errors raised by the interpreter and by the tensor runtime *)

Inductive PyError : Type :=
| ShapeError          (* RuntimeError: sizes do not match            *)
| DTypeError          (* RuntimeError: expected scalar type ...      *)
| DeviceError         (* RuntimeError: tensors on different devices  *)
| IndexError          (* index out of range                          *)
| ValueError
| KeyError
| AttributeError
| UnboundLocalError
| ZeroDivisionError
| ExternalError.      (* raised inside a collaborator that is not modelled *)

Inductive result (A : Type) : Type :=
| Ok (a : A)
| Raise (e : PyError).
Arguments Ok {A} a.
Arguments Raise {A} e.

Definition bind {A B : Type} (m : result A) (k : A -> result B) : result B :=
  match m with
  | Ok a => k a
  | Raise e => Raise e
  end.

Notation "x <- m ;; k" := (bind m (fun x => k))
  (at level 61, m at next level, right associativity).
Notation "' p <- m ;; k" := (bind m (fun p => k))
  (at level 61, p pattern, m at next level, right associativity).

Definition guard (b : bool) (e : PyError) : result unit :=
  if b then Ok tt else Raise e.

(** ** dtypes and devices *)

Inductive DType : Type := Float16 | BFloat16 | Float32 | Float64.

Definition dtype_eqb (a b : DType) : bool :=
  match a, b with
  | Float16, Float16 | BFloat16, BFloat16
  | Float32, Float32 | Float64, Float64 => true
  | _, _ => false
  end.

(** torch.promote_types on the floating dtypes. *)
Definition promote_types (a b : DType) : DType :=
  match a, b with
  | Float64, _ | _, Float64 => Float64
  | Float32, _ | _, Float32 => Float32
  | Float16, Float16 => Float16
  | BFloat16, BFloat16 => BFloat16
  | _, _ => Float32
  end.

Inductive Device : Type := CPU | CUDA (index : nat).

Definition device_eqb (a b : Device) : bool :=
  match a, b with
  | CPU, CPU => true
  | CUDA i, CUDA j => Nat.eqb i j
  | _, _ => false
  end.

(** ** Scalars of the runtime

    [R] stands for the values a tensor element can take.  Every arithmetic
    operation is indexed by the dtype it is carried out in; [round d] is the
    conversion of a value to dtype [d]. *)

Class Runtime (R : Type) : Type := {
  fzero : R;
  fone : R;
  neg_inf : R;                       (* float("-inf") *)
  of_decimal : Z -> Z -> R;          (* m * 10^e, a Python float literal *)
  of_nat : nat -> R;
  round : DType -> R -> R;
  fadd : DType -> R -> R -> R;
  fsub : DType -> R -> R -> R;
  fmul : DType -> R -> R -> R;
  fdiv : DType -> R -> R -> R;
  fsqrt : DType -> R -> R;
  fexp : DType -> R -> R;
  flog : DType -> R -> R;
  fpow : DType -> R -> R -> R;
  fsigmoid : DType -> R -> R;
  uninit : nat -> R;                 (* contents of torch.empty storage *)
  randn : nat -> nat -> R;           (* the n-th draw of generator stream s *)
  (* conversions are exact on zero and on the infinities *)
  round_zero : forall d, round d fzero = fzero;
  round_neg_inf : forall d, round d neg_inf = neg_inf
}.

(** ** Shapes and row-major indexing *)

Definition numel (sh : list nat) : nat := fold_right Nat.mul 1 sh.

(** All multi-indices of a shape, in row-major order. *)
Fixpoint indices (sh : list nat) : list (list nat) :=
  match sh with
  | [] => [[]]
  | d :: ds => flat_map (fun i => map (cons i) (indices ds)) (seq 0 d)
  end.

(** Offset of a multi-index in contiguous row-major storage. *)
Fixpoint ravel (sh idx : list nat) : nat :=
  match sh, idx with
  | d :: ds, i :: is_ => i * numel ds + ravel ds is_
  | _, _ => 0
  end.

Fixpoint in_bounds (sh idx : list nat) : bool :=
  match sh, idx with
  | [], [] => true
  | d :: ds, i :: is_ => (i <? d) && in_bounds ds is_
  | _, _ => false
  end.

Fixpoint shape_eqb (a b : list nat) : bool :=
  match a, b with
  | [], [] => true
  | x :: a', y :: b' => (x =? y) && shape_eqb a' b'
  | _, _ => false
  end.

Record Tensor (R : Type) : Type := mkTensor {
  dtype : DType;
  device : Device;
  shape : list nat;
  data : list R
}.

Section Tensors.
Context {R : Type} {RT : Runtime R}.
Local Abbreviation tensor := (Tensor R).

(** The tensor of shape [sh] whose element at multi-index [i] is [f i]. *)
Definition build (dt : DType) (dv : Device) (sh : list nat)
  (f : list nat -> R) : tensor :=
  mkTensor dt dv sh (map f (indices sh)).

Definition get (t : tensor) (idx : list nat) : R :=
  nth (ravel (shape t) idx) (data t) fzero.

Definition fsum (dt : DType) (l : list R) : R := fold_left (fadd dt) l fzero.

(** *** Conversions: [x.type(d)], [x.to(dtype=d, device=v)]

    Both return [x] itself when nothing has to change. *)

Definition type_ (x : tensor) (d : DType) : tensor :=
  if dtype_eqb (dtype x) d then x
  else mkTensor d (device x) (shape x) (map (round d) (data x)).

Definition to_device (x : tensor) (v : Device) : tensor :=
  if device_eqb (device x) v then x
  else mkTensor (dtype x) v (shape x) (data x).

Definition to_ (x : tensor) (d : DType) (v : Device) : tensor :=
  to_device (type_ x d) v.

(** *** Factories and in-place fills *)

(** torch.empty of a shape: float32 on the CPU, contents unspecified. *)
Definition empty (sh : list nat) : tensor :=
  mkTensor Float32 CPU sh (map uninit (seq 0 (numel sh))).

Definition zeros (sh : list nat) (d : DType) (v : Device) : tensor :=
  build d v sh (fun _ => fzero).

Definition ones (sh : list nat) : tensor :=
  build Float32 CPU sh (fun _ => fone).

(** x.fill_(v) *)
Definition fill_ (x : tensor) (v : R) : tensor :=
  build (dtype x) (device x) (shape x) (fun _ => round (dtype x) v).

(** x.triu_(k) on a matrix: the elements on and above the k-th diagonal
    are kept, the others become zero. *)
Definition triu_ (x : tensor) (k : Z) : result tensor :=
  match shape x with
  | [_; _] =>
      Ok (build (dtype x) (device x) (shape x)
            (fun idx =>
               match idx with
               | [i; j] =>
                   if (k <=? Z.of_nat j - Z.of_nat i)%Z then get x idx else fzero
               | _ => fzero
               end))
  | _ => Raise ShapeError
  end.

End Tensors.

Section TensorOps.
Context {R : Type} {RT : Runtime R}.
Local Abbreviation tensor := (Tensor R).

Definition rank (x : tensor) : nat := length (shape x).

(** *** Broadcasting of element-wise binary operations *)

Fixpoint broadcast_rev (a b : list nat) : option (list nat) :=
  match a, b with
  | [], _ => Some b
  | _, [] => Some a
  | x :: a', y :: b' =>
      match broadcast_rev a' b' with
      | None => None
      | Some r =>
          if x =? y then Some (x :: r)
          else if x =? 1 then Some (y :: r)
          else if y =? 1 then Some (x :: r)
          else None
      end
  end.

Definition broadcast_shapes (a b : list nat) : option (list nat) :=
  option_map (@rev nat) (broadcast_rev (rev a) (rev b)).

(** The index into an operand of shape [sh] that the result index [idx]
    reads: aligned on the right, and 0 along an axis of extent 1. *)
Definition bindex (sh idx : list nat) : list nat :=
  map (fun di => if fst di =? 1 then 0 else snd di)
      (combine sh (skipn (length idx - length sh) idx)).

(** A zero-dimensional operand does not take part in type promotion with
    a dimensioned one. *)
Definition result_dtype (x y : tensor) : DType :=
  match shape x, shape y with
  | [], _ :: _ => dtype y
  | _ :: _, [] => dtype x
  | _, _ => promote_types (dtype x) (dtype y)
  end.

(** Operands live on one device, a zero-dimensional CPU tensor apart. *)
Definition result_device (x y : tensor) : result Device :=
  if device_eqb (device x) (device y) then Ok (device x)
  else match shape x, device x, shape y, device y with
       | [], CPU, _, _ => Ok (device y)
       | _, _, [], CPU => Ok (device x)
       | _, _, _, _ => Raise DeviceError
       end.

Definition binop (f : DType -> R -> R -> R) (x y : tensor) : result tensor :=
  dv <- result_device x y ;;
  match broadcast_shapes (shape x) (shape y) with
  | None => Raise ShapeError
  | Some sh =>
      let dt := result_dtype x y in
      Ok (build dt dv sh
            (fun idx => f dt (round dt (get x (bindex (shape x) idx)))
                             (round dt (get y (bindex (shape y) idx)))))
  end.

Definition add := binop fadd.
Definition mul := binop fmul.
Definition div := binop fdiv.

Definition unop (f : DType -> R -> R) (x : tensor) : tensor :=
  mkTensor (dtype x) (device x) (shape x) (map (f (dtype x)) (data x)).

(** x.exp(), torch.sigmoid(x) *)
Definition exp_ : tensor -> tensor := unop fexp.
Definition sigmoid : tensor -> tensor := unop fsigmoid.

(** c * x for a Python float c: the tensor keeps its dtype. *)
Definition scalar_mul (c : R) (x : tensor) : tensor :=
  unop (fun dt v => fmul dt (round dt c) v) x.

(** *** Matrix product, transposition, views *)

(** a @ b for two matrices (the only form the model uses); the operands
    agree in dtype and device, no promotion takes place. *)
Definition matmul (a b : tensor) : result tensor :=
  match shape a, shape b with
  | [n; k], [k'; m] =>
      _ <- guard (device_eqb (device a) (device b)) DeviceError ;;
      _ <- guard (dtype_eqb (dtype a) (dtype b)) DTypeError ;;
      _ <- guard (k =? k') ShapeError ;;
      let dt := dtype a in
      Ok (build dt (device a) [n; m]
            (fun idx =>
               match idx with
               | [i; j] =>
                   fsum dt (map (fun l => fmul dt (get a [i; l]) (get b [l; j]))
                                (seq 0 k))
               | _ => fzero
               end))
  | _, _ => Raise ShapeError
  end.

(** x.t(): the transpose of a matrix; a tensor of fewer dimensions is
    returned as it is, one of more is refused. *)
Definition t_ (x : tensor) : result tensor :=
  match shape x with
  | [] | [_] => Ok x
  | [n; m] =>
      Ok (build (dtype x) (device x) [m; n]
            (fun idx => match idx with
                        | [j; i] => get x [i; j]
                        | _ => fzero
                        end))
  | _ => Raise ShapeError
  end.

Fixpoint index_of (a : nat) (l : list nat) : option nat :=
  match l with
  | [] => None
  | b :: l' => if a =? b then Some 0 else option_map S (index_of a l')
  end.

Definition is_permutation (dims : list nat) : bool :=
  forallb (fun a => match index_of a dims with Some _ => true | None => false end)
          (seq 0 (length dims)).

(** x.permute(dims): axis k of the result is axis dims[k] of x. *)
Definition permute (x : tensor) (dims : list nat) : result tensor :=
  _ <- guard ((length dims =? rank x) && is_permutation dims) ShapeError ;;
  Ok (build (dtype x) (device x) (map (fun d => nth d (shape x) 0) dims)
        (fun idx =>
           get x (map (fun a => match index_of a dims with
                                | Some k => nth k idx 0
                                | None => 0
                                end)
                      (seq 0 (rank x))))).

(** x.reshape(sh), where one extent may be -1 ([None]) and is inferred.
    The contents are contiguous, so only the shape changes. *)
Definition known_numel (sh : list (option nat)) : nat :=
  fold_right (fun d acc => match d with Some n => n * acc | None => acc end) 1 sh.

Definition count_inferred (sh : list (option nat)) : nat :=
  length (filter (fun d => match d with None => true | Some _ => false end) sh).

Definition reshape (x : tensor) (sh : list (option nat)) : result tensor :=
  let n := numel (shape x) in
  let k := known_numel sh in
  match count_inferred sh with
  | 0 =>
      _ <- guard (k =? n) ShapeError ;;
      Ok (mkTensor (dtype x) (device x)
            (map (fun d => match d with Some v => v | None => 0 end) sh) (data x))
  | 1 =>
      _ <- guard (negb (k =? 0) && (n mod k =? 0)) ShapeError ;;
      Ok (mkTensor (dtype x) (device x)
            (map (fun d => match d with Some v => v | None => n / k end) sh) (data x))
  | _ => Raise ShapeError
  end.

Fixpoint set_nth (n v : nat) (l : list nat) : list nat :=
  match n, l with
  | 0, _ :: l' => v :: l'
  | S n', a :: l' => a :: set_nth n' v l'
  | _, [] => []
  end.

(** torch.cat([a, b], dim): the operands agree on every other axis. *)
Definition cat (a b : tensor) (dim : nat) : result tensor :=
  _ <- guard (device_eqb (device a) (device b)) DeviceError ;;
  _ <- guard ((dim <? rank a)
              && shape_eqb (set_nth dim 0 (shape a)) (set_nth dim 0 (shape b)))
         ShapeError ;;
  let da := nth dim (shape a) 0 in
  let dt := promote_types (dtype a) (dtype b) in
  Ok (build dt (device a) (set_nth dim (da + nth dim (shape b) 0) (shape a))
        (fun idx =>
           let i := nth dim idx 0 in
           if i <? da then round dt (get a idx)
           else round dt (get b (set_nth dim (i - da) idx)))).

(** x.select(dim, i); x[:, i, :] is select x 1 i. *)
Definition select (x : tensor) (dim i : nat) : result tensor :=
  _ <- guard (dim <? rank x) IndexError ;;
  _ <- guard (i <? nth dim (shape x) 0) IndexError ;;
  Ok (build (dtype x) (device x) (firstn dim (shape x) ++ skipn (S dim) (shape x))
        (fun idx => get x (firstn dim idx ++ i :: skipn dim idx))).

(** x.norm(dim=-1, keepdim=True): the 2-norm along the last axis. *)
Definition norm (x : tensor) : result tensor :=
  match rev (shape x) with
  | [] => Raise IndexError
  | d :: pre =>
      let dt := dtype x in
      Ok (build dt (device x) (rev pre ++ [1])
            (fun idx =>
               let p := removelast idx in
               fsqrt dt (fsum dt (map (fun k => let v := get x (p ++ [k]) in
                                                fmul dt v v)
                                      (seq 0 d)))))
  end.

End TensorOps.

(** ** Integer tensors (token ids, positions) *)

Record IntTensor : Type := mkIntTensor {
  idevice : Device;
  ishape : list nat;
  idata : list Z
}.

Definition ibuild (dv : Device) (sh : list nat) (f : list nat -> Z) : IntTensor :=
  mkIntTensor dv sh (map f (indices sh)).

Definition iget (t : IntTensor) (idx : list nat) : Z :=
  nth (ravel (ishape t) idx) (idata t) 0%Z.

(** ids.to(device) *)
Definition ito (t : IntTensor) (v : Device) : IntTensor :=
  if device_eqb (idevice t) v then t else mkIntTensor v (ishape t) (idata t).

(** Position of the first maximal element, scanning left to right. *)
Fixpoint argmax_from (best_i : nat) (best : Z) (i : nat) (l : list Z) : nat :=
  match l with
  | [] => best_i
  | v :: l' =>
      if (best <? v)%Z then argmax_from i v (S i) l'
      else argmax_from best_i best (S i) l'
  end.

Definition argmax_list (l : list Z) : nat :=
  match l with
  | [] => 0
  | v :: l' => argmax_from 0 v 1 l'
  end.

(** t.argmax(dim=-1): along the last axis, which must not be empty. *)
Definition argmax (t : IntTensor) : result IntTensor :=
  match rev (ishape t) with
  | [] => Ok (ibuild (idevice t) [] (fun _ => 0%Z))
  | d :: pre =>
      _ <- guard (0 <? d) IndexError ;;
      Ok (ibuild (idevice t) (rev pre)
            (fun idx =>
               Z.of_nat (argmax_list (map (fun k => iget t (idx ++ [k])) (seq 0 d)))))
  end.

Section Indexing.
Context {R : Type} {RT : Runtime R}.
Local Abbreviation tensor := (Tensor R).

(** x[torch.arange(n), pos] for a vector pos of positions (the argmax of
    a (batch, length) tensor of ids): the two index tensors are broadcast
    against each other; row r of the result is x[r, pos[r]].  An index
    tensor lives on the CPU or on the device of x. *)
Definition index_rows (x : tensor) (n : nat) (pos : IntTensor) : result tensor :=
  match shape x, ishape pos with
  | d0 :: d1 :: rest, [m] =>
      _ <- guard (device_eqb (idevice pos) CPU
                  || device_eqb (idevice pos) (device x)) DeviceError ;;
      _ <- guard ((n =? m) || (n =? 1) || (m =? 1)) IndexError ;;
      let rows := if n =? 1 then m else n in
      let ai := fun r => if n =? 1 then 0 else r in
      let pi := fun r => iget pos [if m =? 1 then 0 else r] in
      let wrap := fun z => if (z <? 0)%Z then (z + Z.of_nat d1)%Z else z in
      _ <- guard (forallb (fun r => (ai r <? d0)
                                    && (0 <=? wrap (pi r))%Z
                                    && (wrap (pi r) <? Z.of_nat d1)%Z)
                          (seq 0 rows)) IndexError ;;
      Ok (build (dtype x) (device x) (rows :: rest)
            (fun idx =>
               match idx with
               | r :: tl => get x (ai r :: Z.to_nat (wrap (pi r)) :: tl)
               | [] => fzero
               end))
  | _, _ => Raise IndexError
  end.

End Indexing.

(** ** torch.nn layers used by the model *)

Module Embedding.
Section Defs.
Context {R : Type} {RT : Runtime R}.

Record t : Type := mk { weight : Tensor R }.

(** nn.Embedding(num_embeddings, embedding_dim): rows drawn from N(0, 1). *)
Definition init (stream num_embeddings embedding_dim : nat) : t :=
  mk (build Float32 CPU [num_embeddings; embedding_dim]
        (fun idx => randn stream (ravel [num_embeddings; embedding_dim] idx))).

Definition forward (e : t) (ids : IntTensor) : result (Tensor R) :=
  match shape (weight e) with
  | [v; w] =>
      _ <- guard (device_eqb (idevice ids) (device (weight e))) DeviceError ;;
      _ <- guard (forallb (fun z => (0 <=? z)%Z && (z <? Z.of_nat v)%Z) (idata ids))
             IndexError ;;
      Ok (build (dtype (weight e)) (device (weight e)) (ishape ids ++ [w])
            (fun idx =>
               get (weight e) [Z.to_nat (iget ids (removelast idx)); last idx 0]))
  | _ => Raise ShapeError
  end.

End Defs.
End Embedding.

Module Conv2d.
Section Defs.
Context {R : Type} {RT : Runtime R}.

(** A convolution without bias and without padding, as conv1 is built. *)
Record t : Type := mk {
  weight : Tensor R;            (* [out_channels, in_channels, k, k] *)
  stride : nat
}.

Definition init (stream in_channels out_channels kernel_size stride_ : nat) : t :=
  let sh := [out_channels; in_channels; kernel_size; kernel_size] in
  mk (build Float32 CPU sh (fun idx => randn stream (ravel sh idx))) stride_.

(** One output element: the sum over the window, channel by channel. *)
Definition window (c : t) (x : Tensor R) (pre : list nat) (o i j : nat) : R :=
  match shape (weight c) with
  | [_; ci; kh; kw] =>
      fsum (dtype x)
        (map (fun k =>
                match k with
                | [ch; di; dj] =>
                    fmul (dtype x) (get (weight c) [o; ch; di; dj])
                         (get x (pre ++ [ch; i * stride c + di; j * stride c + dj]))
                | _ => fzero
                end)
             (indices [ci; kh; kw]))
  | _ => fzero
  end.

Definition checks (c : t) (x : Tensor R) (ci ci' kh kw h w : nat) : result unit :=
  _ <- guard (device_eqb (device x) (device (weight c))) DeviceError ;;
  _ <- guard (dtype_eqb (dtype x) (dtype (weight c))) DTypeError ;;
  _ <- guard (0 <? stride c) ValueError ;;
  _ <- guard ((ci =? ci') && (0 <? kh) && (0 <? kw)) ShapeError ;;
  guard ((kh <=? h) && (kw <=? w)) ShapeError.

Definition forward (c : t) (x : Tensor R) : result (Tensor R) :=
  match shape (weight c), shape x with
  | [co; ci; kh; kw], [b; ci'; h; w] =>
      _ <- checks c x ci ci' kh kw h w ;;
      Ok (build (dtype x) (device x)
            [b; co; (h - kh) / stride c + 1; (w - kw) / stride c + 1]
            (fun idx => match idx with
                        | [n; o; i; j] => window c x [n] o i j
                        | _ => fzero
                        end))
  | [co; ci; kh; kw], [ci'; h; w] =>          (* an unbatched image *)
      _ <- checks c x ci ci' kh kw h w ;;
      Ok (build (dtype x) (device x)
            [co; (h - kh) / stride c + 1; (w - kw) / stride c + 1]
            (fun idx => match idx with
                        | [o; i; j] => window c x [] o i j
                        | _ => fzero
                        end))
  | _, _ => Raise ShapeError
  end.

End Defs.
End Conv2d.

(** torch.nn.LayerNorm over the last axis, with affine parameters. *)
Module nnLayerNorm.
Section Defs.
Context {R : Type} {RT : Runtime R}.

Record t : Type := mk {
  normalized_shape : nat;
  weight : Tensor R;
  bias : Tensor R;
  eps : R
}.

(** nn.LayerNorm(n): weight of ones, bias of zeros, eps = 1e-5. *)
Definition init (n : nat) : t :=
  mk n (ones [n]) (zeros [n] Float32 CPU) (of_decimal 1 (-5)).

Definition row (x : Tensor R) (pre : list nat) (d : nat) : list R :=
  map (fun j => get x (pre ++ [j])) (seq 0 d).

Definition mean (dt : DType) (l : list R) : R :=
  fdiv dt (fsum dt l) (of_nat (length l)).

Definition variance (dt : DType) (l : list R) : R :=
  let m := mean dt l in
  fdiv dt (fsum dt (map (fun v => let c := fsub dt v m in fmul dt c c) l))
       (of_nat (length l)).

Definition forward (p : t) (x : Tensor R) : result (Tensor R) :=
  match rev (shape x) with
  | [] => Raise ShapeError
  | d :: _ =>
      _ <- guard ((d =? normalized_shape p)
                  && shape_eqb (shape (weight p)) [d]
                  && shape_eqb (shape (bias p)) [d]) ShapeError ;;
      _ <- guard (dtype_eqb (dtype x) (dtype (weight p))
                  && dtype_eqb (dtype x) (dtype (bias p))) DTypeError ;;
      _ <- guard (device_eqb (device x) (device (weight p))
                  && device_eqb (device x) (device (bias p))) DeviceError ;;
      let dt := dtype x in
      Ok (build dt (device x) (shape x)
            (fun idx =>
               let r := row x (removelast idx) d in
               let k := last idx 0 in
               fadd dt
                 (fmul dt
                    (fdiv dt (fsub dt (get x idx) (mean dt r))
                             (fsqrt dt (fadd dt (variance dt r) (round dt (eps p)))))
                    (get (weight p) [k]))
                 (get (bias p) [k])))
  end.

End Defs.
End nnLayerNorm.

Module Linear.
Section Defs.
Context {R : Type} {RT : Runtime R}.

Record t : Type := mk {
  weight : Tensor R;            (* [out_features, in_features] *)
  bias : Tensor R               (* [out_features] *)
}.

Definition init (stream in_features out_features : nat) : t :=
  mk (build Float32 CPU [out_features; in_features]
        (fun idx => randn stream (ravel [out_features; in_features] idx)))
     (build Float32 CPU [out_features]
        (fun idx => randn (S stream) (ravel [out_features] idx))).

(** y = x @ weight.T + bias, over the last axis of x. *)
Definition forward (l : t) (x : Tensor R) : result (Tensor R) :=
  match shape (weight l), rev (shape x) with
  | [o; i], d :: pre =>
      _ <- guard ((d =? i) && shape_eqb (shape (bias l)) [o]) ShapeError ;;
      _ <- guard (dtype_eqb (dtype x) (dtype (weight l))
                  && dtype_eqb (dtype x) (dtype (bias l))) DTypeError ;;
      _ <- guard (device_eqb (device x) (device (weight l))
                  && device_eqb (device x) (device (bias l))) DeviceError ;;
      let dt := dtype x in
      Ok (build dt (device x) (rev pre ++ [o])
            (fun idx =>
               let p := removelast idx in
               let k := last idx 0 in
               fadd dt
                 (fsum dt (map (fun j => fmul dt (get x (p ++ [j]))
                                                 (get (weight l) [k; j]))
                               (seq 0 i)))
                 (get (bias l) [k])))
  | _, _ => Raise ShapeError
  end.

End Defs.
End Linear.

(** torch.nn.MultiheadAttention is a collaborator of the runtime: it is
    taken through its interface.  The laws are those of its documented
    behaviour: construction succeeds when the number of heads divides the
    embedding dimension and yields float32 parameters on the CPU; the
    output has the shape, dtype and device of the query; and
    self-attention on a (seq, batch, embed_dim) input that matches the
    module's parameters succeeds when the mask, if any, is a (seq, seq)
    matrix of the input's dtype on the input's device. *)
Class Attention (R : Type) {RT : Runtime R} : Type := {
  MultiheadAttention : Type;
  mha_init : nat -> nat -> nat -> result MultiheadAttention;
  mha_forward : MultiheadAttention -> Tensor R -> Tensor R -> Tensor R ->
                option (Tensor R) -> result (Tensor R);
  mha_embed_dim : MultiheadAttention -> nat;
  mha_dtype : MultiheadAttention -> DType;
  mha_device : MultiheadAttention -> Device;
  mha_init_ok : forall s d h,
    0 < d -> 0 < h -> d mod h = 0 -> exists a, mha_init s d h = Ok a;
  mha_init_spec : forall s d h a,
    mha_init s d h = Ok a ->
    mha_embed_dim a = d /\ mha_dtype a = Float32 /\ mha_device a = CPU;
  mha_forward_out : forall a q k v m y,
    mha_forward a q k v m = Ok y ->
    shape y = shape q /\ dtype y = dtype q /\ device y = device q;
  mha_forward_ok : forall a x m l n,
    shape x = [l; n; mha_embed_dim a] ->
    dtype x = mha_dtype a ->
    device x = mha_device a ->
    (forall mk, m = Some mk ->
       shape mk = [l; l] /\ dtype mk = dtype x /\ device mk = device x) ->
    exists y, mha_forward a x x x m = Ok y
}.
Arguments Attention R {RT}.

(** ** nets/vit.py *)

Module LayerNorm.
Section Defs.
Context {R : Type} {RT : Runtime R}.

(** class LayerNorm(nn.LayerNorm): the parameters are those of the base
    class, only forward is overridden. *)
Definition t : Type := @nnLayerNorm.t R.

Definition init (n : nat) : t := nnLayerNorm.init n.

Definition forward (self : t) (x : Tensor R) : result (Tensor R) :=
  let orig_type := dtype x in
  ret <- nnLayerNorm.forward self (type_ x Float32) ;;
  Ok (type_ ret orig_type).

End Defs.
End LayerNorm.

Module QuickGELU.
Section Defs.
Context {R : Type} {RT : Runtime R}.

Definition forward (x : Tensor R) : result (Tensor R) :=
  mul x (sigmoid (scalar_mul (of_decimal 1702 (-3)) x)).

End Defs.
End QuickGELU.

Module ResidualAttentionBlock.
Section Defs.
Context {R : Type} {RT : Runtime R} {AT : Attention R}.

Record t : Type := mk {
  attn : MultiheadAttention;
  ln_1 : LayerNorm.t (R := R);
  c_fc : Linear.t (R := R);
  c_proj : Linear.t (R := R);
  ln_2 : LayerNorm.t (R := R);
  attn_mask : option (Tensor R)
}.

Definition init (stream d_model n_head : nat) (attn_mask_ : option (Tensor R))
  : result t :=
  a <- mha_init stream d_model n_head ;;
  Ok (mk a
         (LayerNorm.init d_model)
         (Linear.init (stream + 1) d_model (d_model * 4))
         (Linear.init (stream + 3) (d_model * 4) d_model)
         (LayerNorm.init d_model)
         attn_mask_).

(** self.mlp: c_fc, gelu, c_proj in sequence. *)
Definition mlp (self : t) (x : Tensor R) : result (Tensor R) :=
  h <- Linear.forward (c_fc self) x ;;
  g <- QuickGELU.forward h ;;
  Linear.forward (c_proj self) g.

Definition set_attn_mask (self : t) (m : option (Tensor R)) : t :=
  mk (attn self) (ln_1 self) (c_fc self) (c_proj self) (ln_2 self) m.

(** The mask the block stores after, and hands to self.attn in,
    a call of attention on x. *)
Definition reconciled_mask (self : t) (x : Tensor R) : option (Tensor R) :=
  match attn_mask self with
  | Some m => Some (to_ m (dtype x) (device x))
  | None => None
  end.

(** attention assigns self.attn_mask before it calls self.attn: the
    block is returned with the result, also when self.attn raises. *)
Definition attention (self : t) (x : Tensor R) : result (Tensor R) * t :=
  let self' := set_attn_mask self (reconciled_mask self x) in
  (mha_forward (attn self') x x x (attn_mask self'), self').

Definition forward (self : t) (x : Tensor R) : result (Tensor R) * t :=
  match LayerNorm.forward (ln_1 self) x with
  | Raise e => (Raise e, self)
  | Ok h =>
      let (r, self') := attention self h in
      (a <- r ;;
       x1 <- add x a ;;
       h2 <- LayerNorm.forward (ln_2 self') x1 ;;
       m <- mlp self' h2 ;;
       add x1 m,
       self')
  end.

End Defs.
End ResidualAttentionBlock.

Module Transformer.
Section Defs.
Context {R : Type} {RT : Runtime R} {AT : Attention R}.

Record t : Type := mk {
  width : nat;
  layers : nat;
  resblocks : list (ResidualAttentionBlock.t (R := R))
}.

Fixpoint init_blocks (stream width_ heads n : nat) (attn_mask : option (Tensor R))
  : result (list (ResidualAttentionBlock.t (R := R))) :=
  match n with
  | 0 => Ok []
  | S n' =>
      b <- ResidualAttentionBlock.init stream width_ heads attn_mask ;;
      bs <- init_blocks (stream + 5) width_ heads n' attn_mask ;;
      Ok (b :: bs)
  end.

Definition init (stream width_ layers_ heads : nat) (attn_mask : option (Tensor R))
  : result t :=
  bs <- init_blocks stream width_ heads layers_ attn_mask ;;
  Ok (mk width_ layers_ bs).

(** nn.Sequential: each block is fed the output of the one before; the
    blocks after one that raises are not run. *)
Fixpoint run (bs : list (ResidualAttentionBlock.t (R := R))) (x : Tensor R)
  : result (Tensor R) * list (ResidualAttentionBlock.t (R := R)) :=
  match bs with
  | [] => (Ok x, [])
  | b :: bs' =>
      let (r, b') := ResidualAttentionBlock.forward b x in
      match r with
      | Raise e => (Raise e, b' :: bs')
      | Ok y => let (r', bs'') := run bs' y in (r', b' :: bs'')
      end
  end.

Definition forward (self : t) (x : Tensor R) : result (Tensor R) * t :=
  let (r, bs) := run (resblocks self) x in
  (r, mk (width self) (layers self) bs).

End Defs.
End Transformer.

Module VisionTransformer.
Section Defs.
Context {R : Type} {RT : Runtime R} {AT : Attention R}.

Record t : Type := mk {
  input_resolution : nat;
  output_dim : nat;
  conv1 : Conv2d.t (R := R);
  class_embedding : Tensor R;
  positional_embedding : Tensor R;
  ln_pre : LayerNorm.t (R := R);
  transformer : Transformer.t (R := R);
  ln_post : LayerNorm.t (R := R);
  proj : option (Tensor R)
}.

(** scale * torch.randn(sh) *)
Definition scaled_randn (stream : nat) (scale : R) (sh : list nat) : Tensor R :=
  build Float32 CPU sh
    (fun idx => fmul Float32 (round Float32 scale) (randn stream (ravel sh idx))).

Definition init (stream input_resolution_ patch_size width layers heads output_dim_ : nat)
  : result t :=
  let conv := Conv2d.init stream 3 width patch_size patch_size in
  (* scale = width ** -0.5 *)
  _ <- guard (0 <? width) ZeroDivisionError ;;
  let scale := fpow Float64 (of_nat width) (of_decimal (-5) (-1)) in
  let cls := scaled_randn (stream + 1) scale [width] in
  (* input_resolution // patch_size *)
  _ <- guard (0 <? patch_size) ZeroDivisionError ;;
  let grid := input_resolution_ / patch_size in
  let pos := scaled_randn (stream + 2) scale [grid ^ 2 + 1; width] in
  tr <- Transformer.init (stream + 4) width layers heads None ;;
  Ok (mk input_resolution_ output_dim_ conv cls pos
         (LayerNorm.init width) tr (LayerNorm.init width)
         (Some (scaled_randn (stream + 3) scale [width; output_dim_]))).

(** Lines 91 to 98 of forward: from the image to the token sequence the
    transformer is given, sequence axis first. *)
Definition embed (self : t) (x : Tensor R) : result (Tensor R) :=
  x <- Conv2d.forward (conv1 self) x ;;
  x <- match shape x with
       | d0 :: d1 :: _ => reshape x [Some d0; Some d1; None]
       | _ => Raise IndexError
       end ;;
  x <- permute x [0; 2; 1] ;;
  cls <- add (type_ (class_embedding self) (dtype x))
             (zeros [nth 0 (shape x) 0; 1; last (shape x) 0] (dtype x) (device x)) ;;
  x <- cat cls x 1 ;;
  x <- add x (type_ (positional_embedding self) (dtype x)) ;;
  x <- LayerNorm.forward (ln_pre self) x ;;
  permute x [1; 0; 2].

(** Lines 100 to 108: the class token's output, normalized and projected. *)
Definition head (self : t) (x : Tensor R) : result (Tensor R) :=
  x <- permute x [1; 0; 2] ;;
  x0 <- select x 1 0 ;;
  x <- LayerNorm.forward (ln_post self) x0 ;;
  match proj self with
  | Some p => matmul x p
  | None => Ok x
  end.

Definition set_transformer (self : t) (tr : Transformer.t (R := R)) : t :=
  mk (input_resolution self) (output_dim self) (conv1 self) (class_embedding self)
     (positional_embedding self) (ln_pre self) tr (ln_post self) (proj self).

Definition forward (self : t) (x : Tensor R) : result (Tensor R) * t :=
  match embed self x with
  | Raise e => (Raise e, self)
  | Ok s =>
      let (r, tr) := Transformer.forward (transformer self) s in
      (y <- r ;; head self y, set_transformer self tr)
  end.

End Defs.
End VisionTransformer.

(** ** Collaborators of nets/clip.py that are outside this development

    The byte-pair tokenizer (nets/simple_tokenizer.py), the text
    transformer stack (nets/bert.py) and the pretrained tokenizer and
    encoder of the transformers package are taken through the calls that
    clip.py makes on them.  A module that is called may change (it is
    returned with its result); the tokenizers are only read. *)

Record BatchEncoding : Type := mkBatchEncoding {
  input_ids : IntTensor;
  attention_mask : IntTensor;
  token_type_ids : IntTensor
}.

Class TextCollaborators (R : Type) : Type := {
  SimpleTokenizer : Type;
  SimpleTokenizer_init : result SimpleTokenizer;
  (* tokenize(tokenizer, texts, truncate) *)
  tokenize : SimpleTokenizer -> list String.string -> bool -> result IntTensor;
  bert_Transformer : Type;
  (* Transformer(width, layers, heads, attn_mask) *)
  bert_Transformer_init : nat -> nat -> nat -> option (Tensor R) ->
                          result bert_Transformer;
  bert_Transformer_forward : bert_Transformer -> Tensor R ->
                             result (Tensor R) * bert_Transformer;
  BertTokenizer : Type;
  BertTokenizer_from_pretrained : String.string -> result BertTokenizer;
  (* tokenizer(text, return_tensors="pt", padding=True, truncation=True) *)
  BertTokenizer_call : BertTokenizer -> list String.string -> result BatchEncoding;
  BertModel : Type;
  BertModel_from_pretrained : String.string -> result BertModel;
  hidden_size : BertModel -> nat;
  (* model(input_ids, attention_mask, token_type_ids).pooler_output *)
  BertModel_pooler_output : BertModel -> IntTensor -> IntTensor -> IntTensor ->
                            result (Tensor R) * BertModel
}.

(** ** nets/clip.py *)

Module CLIP.
Section Defs.
Context {R : Type} {RT : Runtime R} {AT : Attention R} {TC : TextCollaborators R}.
Local Open Scope string_scope.

(** What self.tokenizer and self.transformer can hold. *)
Inductive tokenizer_obj : Type :=
| OfSimpleTokenizer (tk : SimpleTokenizer)
| OfBertTokenizer (tk : BertTokenizer).

Inductive transformer_obj : Type :=
| OfTransformer (tr : bert_Transformer)
| OfBertModel (m : BertModel).

(** The attributes of a CLIP instance; those that only one branch of
    __init__ assigns are optional. *)
Record t : Type := mk {
  context_length : nat;
  visual : VisionTransformer.t (R := R);
  bert_type : String.string;
  tokenizer : option tokenizer_obj;
  transformer : option transformer_obj;
  vocab_size : option nat;
  token_embedding : option (Embedding.t (R := R));
  positional_embedding : option (Tensor R);
  text_projection : Tensor R;
  ln_final : nnLayerNorm.t (R := R);
  logit_scale : Tensor R
}.

(** The arguments of __init__, and their defaults. *)
Record args : Type := mkArgs {
  a_bert_type : String.string;
  a_embed_dim : nat;
  a_input_resolution : nat;
  a_vision_layers : nat;
  a_vision_width : nat;
  a_vision_patch_size : nat;
  a_context_length : nat;
  a_transformer_layers : nat;
  a_transformer_width : nat;
  a_transformer_heads : nat;
  a_vocab_size : nat;
  a_kwargs : list (String.string * String.string)
}.

Definition default_args : args :=
  mkArgs "openai" 512 224 12 768 32 77 12 768 12 49408 [].

Fixpoint kwargs_get (k : String.string) (kw : list (String.string * String.string))
  : result String.string :=
  match kw with
  | [] => Raise KeyError
  | (k', v) :: kw' => if String.eqb k k' then Ok v else kwargs_get k kw'
  end.

Definition build_attention_mask (context_length_ : nat) : result (Tensor R) :=
  let mask := empty [context_length_; context_length_] in
  let mask := fill_ mask neg_inf in
  triu_ mask 1.

(** The attributes assigned by the branch on bert_type, with the value
    transformer_width has after it. *)
Definition init_text (a : args)
  : result (option tokenizer_obj * option transformer_obj * option nat
            * option (Embedding.t (R := R)) * option (Tensor R) * nat) :=
  if String.eqb (a_bert_type a) "openai" then
    tk <- SimpleTokenizer_init ;;
    mask <- build_attention_mask (a_context_length a) ;;
    tr <- bert_Transformer_init (a_transformer_width a) (a_transformer_layers a)
            (a_transformer_heads a) (Some mask) ;;
    Ok (Some (OfSimpleTokenizer tk), Some (OfTransformer tr), Some (a_vocab_size a),
        Some (Embedding.init 1 (a_vocab_size a) (a_transformer_width a)),
        Some (empty [a_context_length a; a_transformer_width a]),
        a_transformer_width a)
  else if String.eqb (a_bert_type a) "huggingface" then
    name <- kwargs_get "huggingface_model_name" (a_kwargs a) ;;
    tk <- BertTokenizer_from_pretrained name ;;
    name' <- kwargs_get "huggingface_model_name" (a_kwargs a) ;;
    m <- BertModel_from_pretrained name' ;;
    Ok (Some (OfBertTokenizer tk), Some (OfBertModel m), None, None, None,
        hidden_size m)
  else
    Ok (None, None, None, None, None, a_transformer_width a).

Definition init (a : args) : result t :=
  let vision_heads := a_vision_width a / 64 in
  vis <- VisionTransformer.init 100 (a_input_resolution a) (a_vision_patch_size a)
           (a_vision_width a) (a_vision_layers a) vision_heads (a_embed_dim a) ;;
  '(tk, tr, vs, emb, pos, transformer_width) <- init_text a ;;
  (* nn.init.normal_(text_projection, std=transformer_width ** -0.5) *)
  _ <- guard (0 <? transformer_width) ZeroDivisionError ;;
  let std := fpow Float64 (of_nat transformer_width) (of_decimal (-5) (-1)) in
  let sh := [transformer_width; a_embed_dim a] in
  let text_proj :=
    build Float32 CPU sh
      (fun idx => fmul Float32 (randn 2 (ravel sh idx)) (round Float32 std)) in
  (* torch.ones([]) * np.log(1 / 0.07) *)
  let ls :=
    scalar_mul (flog Float64 (fdiv Float64 fone (of_decimal 7 (-2)))) (ones []) in
  Ok (mk (a_context_length a) vis (a_bert_type a) tk tr vs emb pos text_proj
         (nnLayerNorm.init transformer_width) ls).

(** The dtype property. *)
Definition dtype (self : t) : DType :=
  dtype (Conv2d.weight (VisionTransformer.conv1 (visual self))).

Definition set_visual (self : t) (v : VisionTransformer.t (R := R)) : t :=
  mk (context_length self) v (bert_type self) (tokenizer self) (transformer self)
     (vocab_size self) (token_embedding self) (positional_embedding self)
     (text_projection self) (ln_final self) (logit_scale self).

Definition set_transformer (self : t) (tr : transformer_obj) : t :=
  mk (context_length self) (visual self) (bert_type self) (tokenizer self) (Some tr)
     (vocab_size self) (token_embedding self) (positional_embedding self)
     (text_projection self) (ln_final self) (logit_scale self).

Definition encode_image (self : t) (image : Tensor R) : result (Tensor R) * t :=
  let (r, v) := VisionTransformer.forward (visual self) (type_ image (dtype self)) in
  (r, set_visual self v).

(** self.visual.conv1.weight.device *)
Definition param_device (self : t) : Device :=
  device (Conv2d.weight (VisionTransformer.conv1 (visual self))).

(** Lines 88 to 93: the token ids and the embedded sequence handed to
    the transformer. *)
Definition embed_text (self : t) (tk : SimpleTokenizer)
  (emb : Embedding.t (R := R)) (pos : Tensor R) (text : list String.string)
  : result (IntTensor * Tensor R) :=
  ids <- tokenize tk text true ;;
  let text_ids := ito ids (param_device self) in
  e <- Embedding.forward emb text_ids ;;
  let x := type_ e (dtype self) in
  x <- add x (type_ pos (dtype self)) ;;
  x <- permute x [1; 0; 2] ;;
  Ok (text_ids, x).

(** Lines 95 to 99: final normalization, pooling at the argmax of the
    token ids, projection. *)
Definition pool_text (self : t) (text_ids : IntTensor) (x : Tensor R)
  : result (Tensor R) :=
  x <- permute x [1; 0; 2] ;;
  x <- nnLayerNorm.forward (ln_final self) x ;;
  let x := type_ x (dtype self) in
  pos <- argmax text_ids ;;
  sel <- index_rows x (nth 0 (shape x) 0) pos ;;
  matmul sel (text_projection self).

Definition encode_text (self : t) (text : list String.string)
  : result (Tensor R) * t :=
  if String.eqb (bert_type self) "openai" then
    match tokenizer self, token_embedding self, positional_embedding self,
          transformer self with
    | Some (OfSimpleTokenizer tk), Some emb, Some pos, Some (OfTransformer tr) =>
        match embed_text self tk emb pos text with
        | Raise e => (Raise e, self)
        | Ok (text_ids, x) =>
            let (r, tr') := bert_Transformer_forward tr x in
            (x <- r ;; pool_text self text_ids x,
             set_transformer self (OfTransformer tr'))
        end
    | _, _, _, _ => (Raise AttributeError, self)
    end
  else if String.eqb (bert_type self) "huggingface" then
    match tokenizer self, transformer self with
    | Some (OfBertTokenizer tk), Some (OfBertModel m) =>
        match BertTokenizer_call tk text with
        | Raise e => (Raise e, self)
        | Ok x =>
            let input_ids_ := ito (input_ids x) (param_device self) in
            let attention_mask_ := ito (attention_mask x) (param_device self) in
            let token_type_ids_ := ito (token_type_ids x) (param_device self) in
            let (r, m') :=
              BertModel_pooler_output m input_ids_ attention_mask_ token_type_ids_ in
            (x <- r ;;
             x <- nnLayerNorm.forward (ln_final self) x ;;
             let x := type_ x (dtype self) in
             matmul x (text_projection self),
             set_transformer self (OfBertModel m'))
        end
    | _, _ => (Raise AttributeError, self)
    end
  else
    (* neither branch assigns x: return x *)
    (Raise UnboundLocalError, self).

(** Lines 117 to 122 of forward, on the two embeddings. *)
Definition logits (self : t) (image_features text_features : Tensor R)
  : result (Tensor R * Tensor R) :=
  ni <- norm image_features ;;
  image_features <- div image_features ni ;;
  nt <- norm text_features ;;
  text_features <- div text_features nt ;;
  let logit_scale_ := exp_ (logit_scale self) in
  scaled <- mul logit_scale_ image_features ;;
  tt <- t_ text_features ;;
  logits_per_image <- matmul scaled tt ;;
  logits_per_text <- t_ logits_per_image ;;
  Ok (logits_per_image, logits_per_text).

Definition forward (self : t) (image : Tensor R) (text : list String.string)
  : result (Tensor R * Tensor R) * t :=
  let (ri, self1) := encode_image self image in
  match ri with
  | Raise e => (Raise e, self1)
  | Ok image_features =>
      let (rt, self2) := encode_text self1 text in
      (text_features <- rt ;; logits self2 image_features text_features, self2)
  end.

End Defs.
End CLIP.

(** * Properties *)

Unset Implicit Arguments.

(** ** Row-major storage: reading back what [build] wrote *)

Lemma length_indices (sh : list nat) : length (indices sh) = numel sh.
Proof.
  induction sh as [|d ds IH]; simpl; [reflexivity|].
  assert (H : forall a n,
             length (flat_map (fun i => map (cons i) (indices ds)) (seq a n))
             = n * numel ds).
  { intros a n. revert a. induction n as [|n IHn]; intros a; simpl; [reflexivity|].
    rewrite length_app, length_map, IH, IHn. reflexivity. }
  apply H.
Qed.

Lemma ravel_lt (sh idx : list nat) :
  in_bounds sh idx = true -> ravel sh idx < numel sh.
Proof.
  revert idx. induction sh as [|d ds IH]; intros [|i is_] H; simpl in *;
    try discriminate; [lia|].
  apply andb_true_iff in H. destruct H as [Hi His].
  apply Nat.ltb_lt in Hi. specialize (IH _ His). nia.
Qed.

Lemma map_flat_map_comm (A B C : Type) (f : B -> C) (g : A -> list B) (l : list A) :
  map f (flat_map g l) = flat_map (fun x => map f (g x)) l.
Proof.
  induction l as [|a l IH]; simpl; [reflexivity|].
  rewrite map_app, IH. reflexivity.
Qed.

Lemma nth_flat_map_block (B : Type) (g : nat -> list B) (n : nat) (dflt : B) :
  (forall i, length (g i) = n) ->
  forall d a i k, i < d -> k < n ->
  nth (i * n + k) (flat_map g (seq a d)) dflt = nth k (g (a + i)) dflt.
Proof.
  intros Hlen. induction d as [|d IH]; intros a i k Hi Hk; [lia|].
  simpl. destruct i as [|i].
  - simpl. rewrite app_nth1 by (rewrite Hlen; exact Hk).
    rewrite Nat.add_0_r. reflexivity.
  - rewrite app_nth2 by (rewrite Hlen; simpl; lia).
    rewrite Hlen. replace (S i * n + k - n) with (i * n + k) by (simpl; lia).
    rewrite IH by lia. f_equal. f_equal. lia.
Qed.

Lemma nth_map_indices (B : Type) (f : list nat -> B) (dflt : B) (sh idx : list nat) :
  in_bounds sh idx = true ->
  nth (ravel sh idx) (map f (indices sh)) dflt = f idx.
Proof.
  revert f idx. induction sh as [|d ds IH]; intros f [|i is_] H; simpl in *;
    try discriminate; [reflexivity|].
  apply andb_true_iff in H. destruct H as [Hi His].
  apply Nat.ltb_lt in Hi.
  rewrite map_flat_map_comm.
  rewrite (nth_flat_map_block _ _ (numel ds)).
  - simpl. rewrite map_map. apply (IH (fun l => f (i :: l))). exact His.
  - intros j. rewrite !length_map. apply length_indices.
  - exact Hi.
  - apply ravel_lt. exact His.
Qed.

Section TensorFacts.
Context {R : Type} {RT : Runtime R}.

Lemma get_build dt dv sh (f : list nat -> R) idx :
  in_bounds sh idx = true -> get (build dt dv sh f) idx = f idx.
Proof. intros H. unfold get, build. simpl. apply nth_map_indices. exact H. Qed.

Lemma numel_build dt dv sh (f : list nat -> R) :
  length (data (build dt dv sh f)) = numel sh.
Proof. unfold build. simpl. rewrite length_map. apply length_indices. Qed.

Lemma in_bounds2 n m i j : i < n -> j < m -> in_bounds [n; m] [i; j] = true.
Proof.
  intros Hi Hj. simpl.
  apply Nat.ltb_lt in Hi. apply Nat.ltb_lt in Hj. rewrite Hi, Hj. reflexivity.
Qed.

Lemma dtype_eqb_eq a b : dtype_eqb a b = true <-> a = b.
Proof. destruct a, b; simpl; split; intros H; congruence. Qed.

Lemma dtype_eqb_refl a : dtype_eqb a a = true.
Proof. apply dtype_eqb_eq. reflexivity. Qed.

Lemma device_eqb_eq a b : device_eqb a b = true <-> a = b.
Proof.
  destruct a as [|i], b as [|j]; simpl; split; intros H; try congruence.
  - apply Nat.eqb_eq in H. congruence.
  - apply Nat.eqb_eq. congruence.
Qed.

Lemma device_eqb_refl a : device_eqb a a = true.
Proof. apply device_eqb_eq. reflexivity. Qed.

Lemma shape_eqb_eq a b : shape_eqb a b = true <-> a = b.
Proof.
  revert b. induction a as [|x a IH]; intros [|y b]; simpl; split; intros H;
    try congruence.
  - apply andb_true_iff in H. destruct H as [H1 H2].
    apply Nat.eqb_eq in H1. apply IH in H2. congruence.
  - injection H as -> ->. rewrite Nat.eqb_refl. apply IH. reflexivity.
Qed.

Lemma shape_eqb_refl a : shape_eqb a a = true.
Proof. apply shape_eqb_eq. reflexivity. Qed.

(** The three observations of a converted tensor. *)
Lemma type_dtype (x : Tensor R) d : dtype (type_ x d) = d.
Proof.
  unfold type_. destruct (dtype_eqb (dtype x) d) eqn:E; [|reflexivity].
  apply dtype_eqb_eq. exact E.
Qed.

Lemma type_shape (x : Tensor R) d : shape (type_ x d) = shape x.
Proof. unfold type_. destruct (dtype_eqb (dtype x) d); reflexivity. Qed.

Lemma type_device (x : Tensor R) d : device (type_ x d) = device x.
Proof. unfold type_. destruct (dtype_eqb (dtype x) d); reflexivity. Qed.

Lemma type_same (x : Tensor R) : type_ x (dtype x) = x.
Proof. unfold type_. rewrite dtype_eqb_refl. reflexivity. Qed.

Lemma to_device_device (x : Tensor R) v : device (to_device x v) = v.
Proof.
  unfold to_device. destruct (device_eqb (device x) v) eqn:E; [|reflexivity].
  apply device_eqb_eq. exact E.
Qed.

Lemma to_device_dtype (x : Tensor R) v : dtype (to_device x v) = dtype x.
Proof. unfold to_device. destruct (device_eqb (device x) v); reflexivity. Qed.

Lemma to_device_shape (x : Tensor R) v : shape (to_device x v) = shape x.
Proof. unfold to_device. destruct (device_eqb (device x) v); reflexivity. Qed.

Lemma to_dtype (x : Tensor R) d v : dtype (to_ x d v) = d.
Proof. unfold to_. rewrite to_device_dtype. apply type_dtype. Qed.

Lemma to_device_of (x : Tensor R) d v : device (to_ x d v) = v.
Proof. unfold to_. apply to_device_device. Qed.

Lemma to_shape (x : Tensor R) d v : shape (to_ x d v) = shape x.
Proof. unfold to_. rewrite to_device_shape. apply type_shape. Qed.

Lemma to_same (x : Tensor R) : to_ x (dtype x) (device x) = x.
Proof.
  unfold to_. rewrite type_same. unfold to_device.
  rewrite device_eqb_refl. reflexivity.
Qed.

End TensorFacts.

(** ** C2: the causal mask *)

Section MaskFacts.
Context {R : Type} {RT : Runtime R} {AT : Attention R} {TC : TextCollaborators R}.

Lemma build_attention_mask_ok (context_length : nat) :
  exists mask : Tensor R,
    CLIP.build_attention_mask context_length = Ok mask
    /\ shape mask = [context_length; context_length]
    /\ dtype mask = Float32 /\ device mask = CPU.
Proof.
  unfold CLIP.build_attention_mask, triu_. simpl.
  eexists. split; [reflexivity|]. auto.
Qed.

(** C2. [CLIP.build_attention_mask] returns a (context_length,
    context_length) matrix whose entry at row i, column j is negative
    infinity when j > i and zero when j <= i. *)
Theorem build_attention_mask_causal (context_length : nat) :
  exists mask : Tensor R,
    CLIP.build_attention_mask context_length = Ok mask
    /\ shape mask = [context_length; context_length]
    /\ forall i j, i < context_length -> j < context_length ->
         get mask [i; j] = if i <? j then neg_inf else fzero.
Proof.
  unfold CLIP.build_attention_mask, triu_. simpl.
  eexists. split; [reflexivity|]. split; [reflexivity|].
  intros i j Hi Hj.
  rewrite get_build by (apply in_bounds2; assumption).
  destruct (i <? j) eqn:E.
  - apply Nat.ltb_lt in E.
    replace (1 <=? Z.of_nat j - Z.of_nat i)%Z with true
      by (symmetry; apply Z.leb_le; lia).
    unfold fill_. rewrite get_build by (apply in_bounds2; assumption).
    apply round_neg_inf.
  - apply Nat.ltb_ge in E.
    replace (1 <=? Z.of_nat j - Z.of_nat i)%Z with false
      by (symmetry; apply Z.leb_gt; lia).
    reflexivity.
Qed.

End MaskFacts.

(** ** Parameters as the constructors lay them out

    The constructors create every parameter in float32 on the CPU; a model
    may afterwards be moved to a device and converted to a lower precision,
    with the normalization layers kept in float32.  These predicates record
    what stays true of the parameters: their shapes, a common device [dv],
    and a common dtype [dt] of the non-normalization weights. *)

Section WellFormed.
Context {R : Type} {RT : Runtime R} {AT : Attention R}.

Definition ln_wf (p : nnLayerNorm.t (R := R)) (n : nat) (dt : DType) (dv : Device)
  : Prop :=
  nnLayerNorm.normalized_shape p = n
  /\ shape (nnLayerNorm.weight p) = [n] /\ shape (nnLayerNorm.bias p) = [n]
  /\ dtype (nnLayerNorm.weight p) = dt /\ dtype (nnLayerNorm.bias p) = dt
  /\ device (nnLayerNorm.weight p) = dv /\ device (nnLayerNorm.bias p) = dv.

Definition linear_wf (l : Linear.t (R := R)) (i o : nat) (dt : DType) (dv : Device)
  : Prop :=
  shape (Linear.weight l) = [o; i] /\ shape (Linear.bias l) = [o]
  /\ dtype (Linear.weight l) = dt /\ dtype (Linear.bias l) = dt
  /\ device (Linear.weight l) = dv /\ device (Linear.bias l) = dv.

Definition block_wf (b : ResidualAttentionBlock.t (R := R)) (d : nat)
  (dt : DType) (dv : Device) : Prop :=
  mha_embed_dim (ResidualAttentionBlock.attn b) = d
  /\ mha_dtype (ResidualAttentionBlock.attn b) = dt
  /\ mha_device (ResidualAttentionBlock.attn b) = dv
  /\ ln_wf (ResidualAttentionBlock.ln_1 b) d Float32 dv
  /\ linear_wf (ResidualAttentionBlock.c_fc b) d (d * 4) dt dv
  /\ linear_wf (ResidualAttentionBlock.c_proj b) (d * 4) d dt dv
  /\ ln_wf (ResidualAttentionBlock.ln_2 b) d Float32 dv.

(** The stored mask, when there is one, is a square matrix of the
    sequence length. *)
Definition mask_fits (m : option (Tensor R)) (l : nat) : Prop :=
  forall mk, m = Some mk -> shape mk = [l; l].

Definition vit_wf (v : VisionTransformer.t (R := R))
  (patch width out : nat) (dt : DType) (dv : Device) : Prop :=
  let grid := VisionTransformer.input_resolution v / patch in
  shape (Conv2d.weight (VisionTransformer.conv1 v)) = [width; 3; patch; patch]
  /\ Conv2d.stride (VisionTransformer.conv1 v) = patch
  /\ dtype (Conv2d.weight (VisionTransformer.conv1 v)) = dt
  /\ device (Conv2d.weight (VisionTransformer.conv1 v)) = dv
  /\ shape (VisionTransformer.class_embedding v) = [width]
  /\ device (VisionTransformer.class_embedding v) = dv
  /\ shape (VisionTransformer.positional_embedding v) = [grid ^ 2 + 1; width]
  /\ device (VisionTransformer.positional_embedding v) = dv
  /\ ln_wf (VisionTransformer.ln_pre v) width Float32 dv
  /\ Forall (fun b => block_wf b width dt dv
                      /\ ResidualAttentionBlock.attn_mask b = None)
       (Transformer.resblocks (VisionTransformer.transformer v))
  /\ ln_wf (VisionTransformer.ln_post v) width Float32 dv
  /\ (exists p, VisionTransformer.proj v = Some p
                /\ shape p = [width; out] /\ dtype p = dt /\ device p = dv)
  /\ VisionTransformer.output_dim v = out.

End WellFormed.

(** ** C9: LayerNorm computes in float32 and restores the dtype *)

Section LayerNormFacts.
Context {R : Type} {RT : Runtime R}.

Lemma guard_true e : guard true e = Ok tt.
Proof. reflexivity. Qed.

Lemma shape_last_rev (pre : list nat) (d : nat) : rev (pre ++ [d]) = d :: rev pre.
Proof. rewrite rev_app_distr. reflexivity. Qed.

(** What nn.LayerNorm returns on an input that matches its parameters. *)
Definition layer_norm_value (p : nnLayerNorm.t (R := R)) (x : Tensor R) (d : nat)
  (idx : list nat) : R :=
  let dt := dtype x in
  let r := nnLayerNorm.row x (removelast idx) d in
  let k := last idx 0 in
  fadd dt
    (fmul dt
       (fdiv dt (fsub dt (get x idx) (nnLayerNorm.mean dt r))
                (fsqrt dt (fadd dt (nnLayerNorm.variance dt r)
                                   (round dt (nnLayerNorm.eps p)))))
       (get (nnLayerNorm.weight p) [k]))
    (get (nnLayerNorm.bias p) [k]).

Lemma nnLayerNorm_forward_ok (p : nnLayerNorm.t (R := R)) (x : Tensor R) pre d :
  shape x = pre ++ [d] ->
  ln_wf p d (dtype x) (device x) ->
  nnLayerNorm.forward p x
  = Ok (build (dtype x) (device x) (shape x) (layer_norm_value p x d)).
Proof.
  intros Hs (Hn & Hw & Hb & Hdw & Hdb & Hvw & Hvb).
  unfold nnLayerNorm.forward. rewrite Hs, shape_last_rev.
  rewrite Hn, Hw, Hb, Hdw, Hdb, Hvw, Hvb.
  rewrite Nat.eqb_refl, !shape_eqb_refl, !dtype_eqb_refl, !device_eqb_refl.
  reflexivity.
Qed.

Lemma nnLayerNorm_forward_out (p : nnLayerNorm.t (R := R)) (x y : Tensor R) :
  nnLayerNorm.forward p x = Ok y ->
  shape y = shape x /\ dtype y = dtype x /\ device y = device x.
Proof.
  unfold nnLayerNorm.forward. destruct (rev (shape x)) as [|d pre]; [discriminate|].
  destruct (guard _ ShapeError); [|discriminate].
  destruct (guard _ DTypeError); [|discriminate].
  destruct (guard _ DeviceError); [|discriminate].
  simpl. intros H. injection H as <-. auto.
Qed.

(** The layer returns on an input whose last axis is the normalized
    one, when its parameters are float32 on the input's device. *)
Lemma LayerNorm_forward_ok (self : LayerNorm.t (R := R)) (x : Tensor R) pre d :
  shape x = pre ++ [d] ->
  ln_wf self d Float32 (device x) ->
  exists y, LayerNorm.forward self x = Ok y
    /\ dtype y = dtype x /\ shape y = shape x /\ device y = device x.
Proof.
  intros Hs Hwf. unfold LayerNorm.forward.
  rewrite (nnLayerNorm_forward_ok self (type_ x Float32) pre d);
    rewrite ?type_shape, ?type_dtype, ?type_device; try assumption.
  cbn [bind]. eexists. split; [reflexivity|].
  rewrite type_dtype, type_shape, type_device. auto.
Qed.

(** C9. On an input whose last axis is the normalized one, and with
    float32 parameters on the input's device, [LayerNorm.forward] returns;
    the normalization itself is computed by the base class on the float32
    conversion of the input, in float32 arithmetic, and the result is that
    value converted back: it has the dtype, the shape and the device of the
    input.  [LayerNorm.forward] is a function of the layer and the input
    only, and returns nothing but the tensor. *)
Theorem LayerNorm_forward_cast (self : LayerNorm.t (R := R)) (x : Tensor R) pre d :
  shape x = pre ++ [d] ->
  ln_wf self d Float32 (device x) ->
  exists ret y,
    nnLayerNorm.forward self (type_ x Float32) = Ok ret
    /\ dtype ret = Float32
    /\ (forall idx, in_bounds (shape x) idx = true ->
          get ret idx = layer_norm_value self (type_ x Float32) d idx)
    /\ LayerNorm.forward self x = Ok y
    /\ y = type_ ret (dtype x)
    /\ dtype y = dtype x /\ shape y = shape x /\ device y = device x.
Proof.
  intros Hs Hwf.
  assert (Hok := nnLayerNorm_forward_ok self (type_ x Float32) pre d).
  rewrite type_shape, type_dtype, type_device in Hok.
  specialize (Hok Hs Hwf).
  eexists. eexists. split; [exact Hok|].
  split; [reflexivity|]. split.
  - intros idx Hin. rewrite get_build by exact Hin. reflexivity.
  - unfold LayerNorm.forward. rewrite Hok. simpl.
    split; [reflexivity|]. split; [reflexivity|].
    rewrite type_dtype, type_shape, type_device. auto.
Qed.

(** Whenever the layer returns, dtype, shape and device are the input's. *)
Lemma LayerNorm_forward_out (self : LayerNorm.t (R := R)) (x y : Tensor R) :
  LayerNorm.forward self x = Ok y ->
  shape y = shape x /\ dtype y = dtype x /\ device y = device x.
Proof.
  unfold LayerNorm.forward.
  destruct (nnLayerNorm.forward self (type_ x Float32)) as [ret|] eqn:E;
    [|discriminate].
  simpl. intros H. injection H as <-.
  apply nnLayerNorm_forward_out in E. destruct E as (Es & Ed & Ev).
  rewrite type_shape, type_dtype, type_device, Es, Ev, type_shape, type_device.
  auto.
Qed.

End LayerNormFacts.

(** ** Element-wise operations and layers: when they return, and what *)

Section OpFacts.
Context {R : Type} {RT : Runtime R}.

Lemma broadcast_rev_same (l : list nat) : broadcast_rev l l = Some l.
Proof.
  induction l as [|x l IH]; simpl; [reflexivity|].
  rewrite IH, Nat.eqb_refl. reflexivity.
Qed.

Lemma broadcast_shapes_same (s : list nat) : broadcast_shapes s s = Some s.
Proof.
  unfold broadcast_shapes. rewrite broadcast_rev_same. simpl.
  rewrite rev_involutive. reflexivity.
Qed.

Lemma promote_types_same d : promote_types d d = d.
Proof. destruct d; reflexivity. Qed.

Lemma result_dtype_same (x y : Tensor R) :
  dtype x = dtype y -> result_dtype x y = dtype x.
Proof.
  intros H. unfold result_dtype. rewrite <- H.
  destruct (shape x), (shape y); auto using promote_types_same.
Qed.

Lemma result_device_same (x y : Tensor R) :
  device x = device y -> result_device x y = Ok (device x).
Proof.
  intros H. unfold result_device. rewrite <- H, device_eqb_refl. reflexivity.
Qed.

(** An element-wise operation between two tensors of one dtype on one
    device, whose shapes broadcast to [sh]. *)
Lemma binop_ok f (x y : Tensor R) sh :
  broadcast_shapes (shape x) (shape y) = Some sh ->
  dtype x = dtype y -> device x = device y ->
  exists r, binop f x y = Ok r
            /\ shape r = sh /\ dtype r = dtype x /\ device r = device x.
Proof.
  intros Hb Hd Hv. unfold binop.
  rewrite (result_device_same _ _ Hv). simpl. rewrite Hb.
  eexists. split; [reflexivity|]. simpl.
  rewrite (result_dtype_same _ _ Hd). auto.
Qed.

Lemma binop_same f (x y : Tensor R) :
  shape x = shape y -> dtype x = dtype y -> device x = device y ->
  exists r, binop f x y = Ok r
            /\ shape r = shape x /\ dtype r = dtype x /\ device r = device x.
Proof.
  intros Hs Hd Hv. apply binop_ok; auto.
  rewrite <- Hs. apply broadcast_shapes_same.
Qed.

Lemma binop_out f (x y r : Tensor R) :
  binop f x y = Ok r ->
  broadcast_shapes (shape x) (shape y) = Some (shape r)
  /\ dtype r = result_dtype x y
  /\ result_device x y = Ok (device r).
Proof.
  unfold binop. destruct (result_device x y) as [dv|]; [|discriminate]. simpl.
  destruct (broadcast_shapes (shape x) (shape y)) as [sh|]; [|discriminate].
  intros H. injection H as <-. auto.
Qed.

Lemma unop_shape f (x : Tensor R) : shape (unop f x) = shape x.
Proof. reflexivity. Qed.

Lemma unop_dtype f (x : Tensor R) : dtype (unop f x) = dtype x.
Proof. reflexivity. Qed.

Lemma unop_device f (x : Tensor R) : device (unop f x) = device x.
Proof. reflexivity. Qed.

Lemma QuickGELU_forward_ok (x : Tensor R) :
  exists y, QuickGELU.forward x = Ok y
            /\ shape y = shape x /\ dtype y = dtype x /\ device y = device x.
Proof. unfold QuickGELU.forward, mul. apply binop_same; reflexivity. Qed.

Lemma Linear_forward_ok (l : Linear.t (R := R)) (x : Tensor R) pre i o :
  shape x = pre ++ [i] ->
  linear_wf l i o (dtype x) (device x) ->
  exists y, Linear.forward l x = Ok y
            /\ shape y = pre ++ [o] /\ dtype y = dtype x /\ device y = device x.
Proof.
  intros Hs (Hw & Hb & Hdw & Hdb & Hvw & Hvb).
  unfold Linear.forward. rewrite Hw, Hs, shape_last_rev, Hb, Hdw, Hdb, Hvw, Hvb.
  rewrite Nat.eqb_refl, shape_eqb_refl, dtype_eqb_refl, device_eqb_refl.
  simpl. eexists. split; [reflexivity|]. simpl.
  rewrite rev_involutive. auto.
Qed.

Lemma Linear_forward_out (l : Linear.t (R := R)) (x y : Tensor R) :
  Linear.forward l x = Ok y ->
  dtype y = dtype x /\ device y = device x
  /\ dtype (Linear.weight l) = dtype x.
Proof.
  unfold Linear.forward.
  destruct (shape (Linear.weight l)) as [|o [|i [|? ?]]]; try discriminate.
  destruct (rev (shape x)) as [|d pre]; [discriminate|].
  destruct (guard _ ShapeError); [|discriminate]. simpl.
  destruct (dtype_eqb (dtype x) (dtype (Linear.weight l))) eqn:E;
    [|discriminate].
  destruct (guard _ DTypeError); [|discriminate]. simpl.
  destruct (guard _ DeviceError); [|discriminate]. simpl.
  intros H. injection H as <-. apply dtype_eqb_eq in E. auto.
Qed.

End OpFacts.

(** ** C6, C7: the Residual Attention Block *)

Section BlockFacts.
Context {R : Type} {RT : Runtime R} {AT : Attention R}.

Import ResidualAttentionBlock.

Lemma reconciled_mask_out (self : t (R := R)) (x m' : Tensor R) :
  reconciled_mask self x = Some m' ->
  dtype m' = dtype x /\ device m' = device x
  /\ exists m, attn_mask self = Some m /\ shape m' = shape m.
Proof.
  unfold reconciled_mask. destruct (attn_mask self) as [m|]; [|discriminate].
  intros H. injection H as <-. rewrite to_dtype, to_device_of, to_shape.
  split; [reflexivity|]. split; [reflexivity|]. eauto.
Qed.

(** C7. In [attention], the mask handed to self.attn is the stored mask
    converted to the input's dtype and device (or None when the block has
    no mask): whenever a mask reaches the attention operation, its dtype
    and device are those of the input, whatever they were in the block. *)
Theorem attention_mask_reconciled (self : t (R := R)) (x : Tensor R) :
  fst (attention self x)
  = mha_forward (attn self) x x x (reconciled_mask self x)
  /\ (attn_mask self = None -> reconciled_mask self x = None)
  /\ (forall m, attn_mask self = Some m ->
        reconciled_mask self x = Some (to_ m (dtype x) (device x)))
  /\ (forall m', reconciled_mask self x = Some m' ->
        dtype m' = dtype x /\ device m' = device x
        /\ exists m, attn_mask self = Some m /\ shape m' = shape m).
Proof.
  split; [reflexivity|].
  split; [unfold reconciled_mask; intros ->; reflexivity|].
  split; [unfold reconciled_mask; intros m ->; reflexivity|].
  intros m'. apply reconciled_mask_out.
Qed.

Lemma attention_ok (self : t (R := R)) (x : Tensor R) l n d :
  block_wf self d (dtype x) (device x) ->
  mask_fits (attn_mask self) l ->
  shape x = [l; n; d] ->
  exists a, attention self x
            = (Ok a, set_attn_mask self (reconciled_mask self x))
            /\ shape a = shape x /\ dtype a = dtype x /\ device a = device x.
Proof.
  intros (He & Hd & Hv & _) Hm Hs. unfold attention. simpl.
  destruct (@mha_forward_ok _ _ _ (attn self) x (reconciled_mask self x) l n)
    as [a Ha]; try congruence.
  - intros mk Hmk.
    destruct (reconciled_mask_out self x mk Hmk) as (H1 & H2 & m & Hsome & Hshape).
    rewrite Hshape. auto.
  - exists a. split; [rewrite Ha; reflexivity|].
    apply mha_forward_out in Ha. exact Ha.
Qed.

(** The feed-forward part: c_fc widens the last axis four times,
    QuickGELU keeps the shape, c_proj narrows it back. *)
Lemma mlp_ok (self : t (R := R)) (h : Tensor R) l n d :
  linear_wf (c_fc self) d (d * 4) (dtype h) (device h) ->
  linear_wf (c_proj self) (d * 4) d (dtype h) (device h) ->
  shape h = [l; n; d] ->
  exists u g f,
    Linear.forward (c_fc self) h = Ok u /\ shape u = [l; n; d * 4]
    /\ QuickGELU.forward u = Ok g
    /\ Linear.forward (c_proj self) g = Ok f
    /\ mlp self h = Ok f
    /\ shape f = shape h /\ dtype f = dtype h /\ device f = device h.
Proof.
  intros Hfc Hpr Hs.
  assert (Hs' : shape h = [l; n] ++ [d]) by exact Hs.
  destruct (Linear_forward_ok (c_fc self) h [l; n] d (d * 4) Hs' Hfc)
    as (u & Hu & Hus & Hud & Huv).
  destruct (QuickGELU_forward_ok u) as (g & Hg & Hgs & Hgd & Hgv).
  assert (Hsg : shape g = [l; n] ++ [d * 4]) by congruence.
  assert (Hpr' : linear_wf (c_proj self) (d * 4) d (dtype g) (device g))
    by (rewrite Hgd, Hgv, Hud, Huv; exact Hpr).
  destruct (Linear_forward_ok (c_proj self) g [l; n] (d * 4) d Hsg Hpr')
    as (f & Hf & Hfs & Hfd & Hfv).
  exists u, g, f. split; [exact Hu|]. split; [exact Hus|]. split; [exact Hg|].
  split; [exact Hf|]. split.
  - unfold mlp. rewrite Hu. cbn [bind]. rewrite Hg. cbn [bind]. exact Hf.
  - simpl in Hfs. repeat split; congruence.
Qed.

(** The steps of a block's forward on a matching input, one after the
    other, each with what it returns. *)
Ltac block_steps self x l n d Hwf Hm Hs :=
  pose proof Hwf as (He & Hd & Hv & Hl1 & Hfc & Hpr & Hl2);
  assert (Hsx : shape x = [l; n] ++ [d]) by exact Hs;
  destruct (LayerNorm_forward_ok (ln_1 self) x [l; n] d Hsx Hl1)
    as (h1 & Hh1 & Hh1d & Hh1s & Hh1v);
  assert (Hwf1 : block_wf self d (dtype h1) (device h1))
    by (rewrite Hh1d, Hh1v; exact Hwf);
  assert (Hs1 : shape h1 = [l; n; d]) by congruence;
  destruct (attention_ok self h1 l n d Hwf1 Hm Hs1) as (a & Ha & Has & Had & Hav);
  destruct (binop_same fadd x a) as (x1 & Hx1 & Hx1s & Hx1d & Hx1v);
    [congruence | congruence | congruence |];
  assert (Hsx1 : shape x1 = [l; n] ++ [d]) by (simpl; congruence);
  assert (Hl2' : ln_wf (ln_2 self) d Float32 (device x1))
    by (rewrite Hx1v; exact Hl2);
  destruct (LayerNorm_forward_ok (ln_2 self) x1 [l; n] d Hsx1 Hl2')
    as (h2 & Hh2 & Hh2d & Hh2s & Hh2v);
  assert (Hsh2 : shape h2 = [l; n; d]) by congruence;
  assert (Hfc' : linear_wf (c_fc self) d (d * 4) (dtype h2) (device h2))
    by (rewrite Hh2d, Hh2v, Hx1d, Hx1v; exact Hfc);
  assert (Hpr' : linear_wf (c_proj self) (d * 4) d (dtype h2) (device h2))
    by (rewrite Hh2d, Hh2v, Hx1d, Hx1v; exact Hpr);
  destruct (mlp_ok self h2 l n d Hfc' Hpr' Hsh2)
    as (u & g & f & Hu & Hus & Hg & Hf & Hmlp & Hfs & Hfd & Hfv);
  destruct (binop_same fadd x1 f) as (y & Hy & Hys & Hyd & Hyv);
    [congruence | congruence | congruence |];
  fold (@add _ _) in Hx1, Hy;
  assert (Hfw : forward self x
                = (Ok y, set_attn_mask self (reconciled_mask self h1)))
    by (unfold forward; rewrite Hh1, Ha; cbn [bind];
        rewrite Hx1; cbn [bind ln_2 set_attn_mask]; rewrite Hh2; cbn [bind];
        change (mlp (set_attn_mask self (reconciled_mask self h1)) h2)
          with (mlp self h2);
        rewrite Hmlp; cbn [bind]; rewrite Hy; reflexivity).

(** A matching block returns on a (seq, batch, width) input; the
    output has the shape, dtype and device of the input, and the block is
    left with its mask reconciled to ln_1(x). *)
Lemma block_forward_ok (self : t (R := R)) (x : Tensor R) l n d :
  block_wf self d (dtype x) (device x) ->
  mask_fits (attn_mask self) l ->
  shape x = [l; n; d] ->
  exists h1 y,
    LayerNorm.forward (ln_1 self) x = Ok h1
    /\ forward self x = (Ok y, set_attn_mask self (reconciled_mask self h1))
    /\ shape y = shape x /\ dtype y = dtype x /\ device y = device x.
Proof.
  intros Hwf Hm Hs. block_steps self x l n d Hwf Hm Hs.
  exists h1, y. repeat split; congruence.
Qed.

(** C6. On an input x of shape (seq, batch, width), a block whose
    parameters match computes x' = x + attention(ln_1(x)) and then
    x' + mlp(ln_2(x')), where mlp is c_fc (width to 4 * width), QuickGELU,
    c_proj (4 * width back to width); the output has the shape of x. *)
Theorem block_forward_residual (self : t (R := R)) (x : Tensor R) l n d :
  block_wf self d (dtype x) (device x) ->
  mask_fits (attn_mask self) l ->
  shape x = [l; n; d] ->
  exists h1 a x1 h2 u g f y self',
    LayerNorm.forward (ln_1 self) x = Ok h1
    /\ attention self h1 = (Ok a, self')
    /\ add x a = Ok x1
    /\ LayerNorm.forward (ln_2 self) x1 = Ok h2
    /\ Linear.forward (c_fc self) h2 = Ok u /\ shape u = [l; n; d * 4]
    /\ QuickGELU.forward u = Ok g
    /\ Linear.forward (c_proj self) g = Ok f
    /\ mlp self h2 = Ok f
    /\ add x1 f = Ok y
    /\ forward self x = (Ok y, self')
    /\ shape y = shape x /\ dtype y = dtype x /\ device y = device x.
Proof.
  intros Hwf Hm Hs. block_steps self x l n d Hwf Hm Hs.
  exists h1, a, x1, h2, u, g, f, y, (set_attn_mask self (reconciled_mask self h1)).
  repeat split; try assumption; congruence.
Qed.

End BlockFacts.

(** ** Shapes through the convolution, the views and the matrix product *)

Section ShapeFacts.
Context {R : Type} {RT : Runtime R}.

Lemma ltb_true a b : a < b -> (a <? b) = true.
Proof. apply Nat.ltb_lt. Qed.

Lemma leb_true a b : a <= b -> (a <=? b) = true.
Proof. apply Nat.leb_le. Qed.

Lemma Conv2d_forward_ok (c : Conv2d.t (R := R)) (x : Tensor R) b co ci k h w :
  shape (Conv2d.weight c) = [co; ci; k; k] ->
  shape x = [b; ci; h; w] ->
  dtype x = dtype (Conv2d.weight c) ->
  device x = device (Conv2d.weight c) ->
  0 < Conv2d.stride c -> 0 < k -> k <= h -> k <= w ->
  exists y, Conv2d.forward c x = Ok y
    /\ shape y = [b; co; (h - k) / Conv2d.stride c + 1; (w - k) / Conv2d.stride c + 1]
    /\ dtype y = dtype x /\ device y = device x.
Proof.
  intros Hw Hx Hd Hv Hs Hk Hh Hw'.
  unfold Conv2d.forward, Conv2d.checks. rewrite Hw, Hx, <- Hd, <- Hv.
  rewrite device_eqb_refl, dtype_eqb_refl, Nat.eqb_refl.
  rewrite (ltb_true _ _ Hs), (ltb_true _ _ Hk), (leb_true _ _ Hh), (leb_true _ _ Hw').
  simpl. eexists. split; [reflexivity|]. auto.
Qed.

Lemma Conv2d_forward_out (c : Conv2d.t (R := R)) (x y : Tensor R) :
  Conv2d.forward c x = Ok y ->
  dtype y = dtype x /\ dtype x = dtype (Conv2d.weight c)
  /\ device y = device x /\ device x = device (Conv2d.weight c).
Proof.
  unfold Conv2d.forward, Conv2d.checks.
  destruct (shape (Conv2d.weight c)) as [|co [|ci [|kh [|kw [|? ?]]]]];
    try discriminate.
  destruct (device_eqb (device x) (device (Conv2d.weight c))) eqn:Ev;
    [|destruct (shape x) as [|? [|? [|? [|? [|? ?]]]]]; discriminate].
  destruct (dtype_eqb (dtype x) (dtype (Conv2d.weight c))) eqn:Ed;
    [|destruct (shape x) as [|? [|? [|? [|? [|? ?]]]]]; discriminate].
  apply dtype_eqb_eq in Ed. apply device_eqb_eq in Ev.
  destruct (shape x) as [|? [|? [|? [|? [|? ?]]]]]; try discriminate;
    simpl;
    (destruct (guard _ ValueError); [|discriminate]); simpl;
    (destruct (guard _ ShapeError); [|discriminate]); simpl;
    (destruct (guard _ ShapeError); [|discriminate]); simpl;
    intros H; injection H as <-; auto.
Qed.

(** With kernel = stride = p and p <= h, the output extent is h // p. *)
Lemma patch_grid (h p : nat) : 0 < p -> p <= h -> (h - p) / p + 1 = h / p.
Proof.
  intros Hp Hh. replace h with ((h - p) + 1 * p) at 2 by lia.
  rewrite Nat.div_add by lia. reflexivity.
Qed.

(** x.reshape(x.shape[0], x.shape[1], -1) on a four-dimensional x. *)
Lemma reshape_flatten (x : Tensor R) b c g1 g2 :
  shape x = [b; c; g1; g2] -> 0 < b -> 0 < c ->
  exists y, reshape x [Some b; Some c; None] = Ok y
    /\ shape y = [b; c; g1 * g2] /\ dtype y = dtype x /\ device y = device x
    /\ data y = data x.
Proof.
  intros Hs Hb Hc. unfold reshape. rewrite Hs. simpl.
  replace (b * (c * (g1 * (g2 * 1)))) with ((g1 * g2) * (b * (c * 1))) by lia.
  rewrite Nat.Div0.mod_mul, Nat.div_mul by lia.
  destruct (b * (c * 1) =? 0) eqn:E.
  - apply Nat.eqb_eq in E. nia.
  - simpl. eexists. split; [reflexivity|]. auto.
Qed.

Lemma reshape_out (x y : Tensor R) sh :
  reshape x sh = Ok y -> dtype y = dtype x /\ device y = device x.
Proof.
  unfold reshape. destruct (count_inferred sh) as [|[|?]]; try discriminate;
    (destruct (guard _ ShapeError); [|discriminate]); simpl;
    intros H; injection H as <-; auto.
Qed.

Lemma permute_out (x y : Tensor R) dims :
  permute x dims = Ok y -> dtype y = dtype x /\ device y = device x.
Proof.
  unfold permute. destruct (guard _ ShapeError); [|discriminate]. simpl.
  intros H. injection H as <-. auto.
Qed.

(** x.permute(0, 2, 1) and x.permute(1, 0, 2) on a three-dimensional x. *)
Lemma permute_021 (x : Tensor R) a b c :
  shape x = [a; b; c] ->
  exists y, permute x [0; 2; 1] = Ok y
    /\ shape y = [a; c; b] /\ dtype y = dtype x /\ device y = device x
    /\ forall i j k, i < a -> j < c -> k < b -> get y [i; j; k] = get x [i; k; j].
Proof.
  intros Hs. unfold permute, rank. rewrite Hs. simpl.
  eexists. split; [reflexivity|]. simpl. repeat split.
  intros i j k Hi Hj Hk. rewrite get_build; [reflexivity|].
  simpl. rewrite (ltb_true _ _ Hi), (ltb_true _ _ Hj), (ltb_true _ _ Hk). reflexivity.
Qed.

Lemma permute_102 (x : Tensor R) a b c :
  shape x = [a; b; c] ->
  exists y, permute x [1; 0; 2] = Ok y
    /\ shape y = [b; a; c] /\ dtype y = dtype x /\ device y = device x
    /\ forall i j k, i < b -> j < a -> k < c -> get y [i; j; k] = get x [j; i; k].
Proof.
  intros Hs. unfold permute, rank. rewrite Hs. simpl.
  eexists. split; [reflexivity|]. simpl. repeat split.
  intros i j k Hi Hj Hk. rewrite get_build; [reflexivity|].
  simpl. rewrite (ltb_true _ _ Hi), (ltb_true _ _ Hj), (ltb_true _ _ Hk). reflexivity.
Qed.

(** torch.cat([a, b], dim=1) on two three-dimensional tensors. *)
Lemma cat_dim1 (a b : Tensor R) n la lb w :
  shape a = [n; la; w] -> shape b = [n; lb; w] ->
  dtype a = dtype b -> device a = device b ->
  exists y, cat a b 1 = Ok y
    /\ shape y = [n; la + lb; w] /\ dtype y = dtype a /\ device y = device a
    /\ (forall i j k, i < n -> j < la -> k < w ->
          get y [i; j; k] = round (dtype a) (get a [i; j; k]))
    /\ (forall i j k, i < n -> j < lb -> k < w ->
          get y [i; la + j; k] = round (dtype a) (get b [i; j; k])).
Proof.
  intros Ha Hb Hd Hv. unfold cat, rank. rewrite Ha, Hb, <- Hv, <- Hd.
  rewrite device_eqb_refl, promote_types_same. simpl.
  rewrite !Nat.eqb_refl. simpl.
  eexists. split; [reflexivity|]. simpl. repeat split.
  - intros i j k Hi Hj Hk. rewrite get_build.
    + simpl. rewrite (ltb_true _ _ Hj). reflexivity.
    + simpl. rewrite (ltb_true _ _ Hi), (ltb_true _ _ Hk).
      rewrite (ltb_true j (la + lb)) by lia. reflexivity.
  - intros i j k Hi Hj Hk. rewrite get_build.
    + simpl. replace (la + j <? la) with false
        by (symmetry; apply Nat.ltb_ge; lia).
      replace (la + j - la) with j by lia. reflexivity.
    + simpl. rewrite (ltb_true _ _ Hi), (ltb_true _ _ Hk).
      rewrite (ltb_true (la + j) (la + lb)) by lia. reflexivity.
Qed.

Lemma cat_out (a b y : Tensor R) dim :
  cat a b dim = Ok y ->
  dtype y = promote_types (dtype a) (dtype b) /\ device y = device a.
Proof.
  unfold cat. destruct (guard _ DeviceError); [|discriminate]. simpl.
  destruct (guard _ ShapeError); [|discriminate]. simpl.
  intros H. injection H as <-. auto.
Qed.

(** x[:, 0, :] on a three-dimensional x with a non-empty middle axis. *)
Lemma select_mid0 (x : Tensor R) a b c :
  shape x = [a; S b; c] ->
  exists y, select x 1 0 = Ok y
    /\ shape y = [a; c] /\ dtype y = dtype x /\ device y = device x
    /\ forall i k, i < a -> k < c -> get y [i; k] = get x [i; 0; k].
Proof.
  intros Hs. unfold select, rank. rewrite Hs. simpl.
  eexists. split; [reflexivity|]. simpl. repeat split.
  intros i k Hi Hk. rewrite get_build; [reflexivity|].
  apply in_bounds2; assumption.
Qed.

Lemma select_out (x y : Tensor R) dim i :
  select x dim i = Ok y -> dtype y = dtype x /\ device y = device x.
Proof.
  unfold select. destruct (guard _ IndexError); [|discriminate]. simpl.
  destruct (guard _ IndexError); [|discriminate]. simpl.
  intros H. injection H as <-. auto.
Qed.

(** The value of a matrix product, entry by entry. *)
Definition dot (dt : DType) (a b : Tensor R) (k i j : nat) : R :=
  fsum dt (map (fun l => fmul dt (get a [i; l]) (get b [l; j])) (seq 0 k)).

Lemma matmul_ok (a b : Tensor R) n k m :
  shape a = [n; k] -> shape b = [k; m] ->
  dtype a = dtype b -> device a = device b ->
  exists y, matmul a b = Ok y
    /\ shape y = [n; m] /\ dtype y = dtype a /\ device y = device a
    /\ forall i j, i < n -> j < m -> get y [i; j] = dot (dtype a) a b k i j.
Proof.
  intros Ha Hb Hd Hv. unfold matmul. rewrite Ha, Hb, <- Hd, <- Hv.
  rewrite device_eqb_refl, dtype_eqb_refl, Nat.eqb_refl. simpl.
  eexists. split; [reflexivity|]. simpl. repeat split.
  intros i j Hi Hj. rewrite get_build by (apply in_bounds2; assumption).
  reflexivity.
Qed.

(** Whenever a matrix product returns: the operands were matrices of one
    dtype with a common inner extent, and the result is as above. *)
Lemma matmul_out (a b y : Tensor R) :
  matmul a b = Ok y ->
  exists n k m,
    shape a = [n; k] /\ shape b = [k; m] /\ shape y = [n; m]
    /\ dtype b = dtype a /\ dtype y = dtype a /\ device y = device a
    /\ forall i j, i < n -> j < m -> get y [i; j] = dot (dtype a) a b k i j.
Proof.
  unfold matmul.
  destruct (shape a) as [|n [|k [|? ?]]] eqn:Ha; try discriminate.
  destruct (shape b) as [|k' [|m [|? ?]]] eqn:Hb; try discriminate.
  destruct (guard _ DeviceError); [|discriminate]. simpl.
  destruct (dtype_eqb (dtype a) (dtype b)) eqn:Ed; [|discriminate]. simpl.
  destruct (k =? k') eqn:Ek; [|discriminate]. simpl.
  apply Nat.eqb_eq in Ek. subst k'. apply dtype_eqb_eq in Ed.
  intros H. injection H as <-. exists n, k, m. simpl. repeat split; auto.
  intros i j Hi Hj. rewrite get_build by (apply in_bounds2; assumption).
  reflexivity.
Qed.

End ShapeFacts.

(** ** The transformer stack and the vision encoder *)

Section StackFacts.
Context {R : Type} {RT : Runtime R} {AT : Attention R}.

Lemma set_attn_mask_same (b : ResidualAttentionBlock.t (R := R)) :
  ResidualAttentionBlock.set_attn_mask b (ResidualAttentionBlock.attn_mask b) = b.
Proof. destruct b; reflexivity. Qed.

(** A stack of matching blocks without masks maps a (seq, batch, width)
    input to an output of the same shape, and is left as it was. *)
Lemma run_unmasked_ok (bs : list (ResidualAttentionBlock.t (R := R))) :
  forall (x : Tensor R) l n d,
    Forall (fun b => block_wf b d (dtype x) (device x)
                     /\ ResidualAttentionBlock.attn_mask b = None) bs ->
    shape x = [l; n; d] ->
    exists y, Transformer.run bs x = (Ok y, bs)
      /\ shape y = shape x /\ dtype y = dtype x /\ device y = device x.
Proof.
  induction bs as [|b bs IH]; intros x l n d Hall Hs.
  - exists x. simpl. auto.
  - inversion Hall as [|? ? [Hwf Hnone] Hrest]; subst.
    assert (Hfit : mask_fits (ResidualAttentionBlock.attn_mask b) l)
      by (intros mk Hmk; congruence).
    destruct (block_forward_ok b x l n d Hwf Hfit Hs)
      as (h1 & y & _ & Hfw & Hys & Hyd & Hyv).
    assert (Hb' : ResidualAttentionBlock.set_attn_mask b
                    (ResidualAttentionBlock.reconciled_mask b h1) = b).
    { unfold ResidualAttentionBlock.reconciled_mask. rewrite Hnone.
      rewrite <- Hnone. apply set_attn_mask_same. }
    rewrite Hb' in Hfw.
    destruct (IH y l n d) as (z & Hz & Hzs & Hzd & Hzv).
    + rewrite Hyd, Hyv. exact Hrest.
    + congruence.
    + exists z. simpl. rewrite Hfw, Hz. repeat split; congruence.
Qed.

End StackFacts.

Section VisionFacts.
Context {R : Type} {RT : Runtime R} {AT : Attention R}.

Import VisionTransformer.

Lemma bindex_vec w b k : k < w -> bindex [w] [b; 0; k] = [k].
Proof.
  intros Hk. unfold bindex. simpl.
  destruct (w =? 1) eqn:E; [|reflexivity].
  apply Nat.eqb_eq in E. f_equal. lia.
Qed.

(** The class-token rows: class_embedding, broadcast over the batch. *)
Lemma class_rows_ok (cls : Tensor R) b w dt dv :
  shape cls = [w] -> device cls = dv ->
  exists y, add (type_ cls dt) (zeros [b; 1; w] dt dv) = Ok y
    /\ shape y = [b; 1; w] /\ dtype y = dt /\ device y = dv
    /\ forall i k, i < b -> k < w ->
         get y [i; 0; k]
         = fadd dt (round dt (get (type_ cls dt) [k])) (round dt fzero).
Proof.
  intros Hs Hv. unfold add, binop.
  rewrite result_device_same by (rewrite type_device; simpl; congruence).
  rewrite result_dtype_same by (rewrite type_dtype; reflexivity).
  rewrite type_shape, type_dtype, type_device, Hs, Hv. simpl.
  unfold broadcast_shapes. simpl. rewrite Nat.eqb_refl. simpl.
  eexists. split; [reflexivity|]. simpl. repeat split.
  intros i k Hi Hk. rewrite get_build.
  - rewrite (bindex_vec w i k Hk). f_equal. f_equal.
    unfold zeros. rewrite get_build; [reflexivity|].
    unfold bindex. simpl.
    destruct (b =? 1) eqn:Eb; destruct (w =? 1) eqn:Ew; simpl;
      try (apply Nat.eqb_eq in Eb; subst b);
      try (apply Nat.eqb_eq in Ew; subst w);
      rewrite ?(ltb_true _ _ Hi), ?(ltb_true _ _ Hk); reflexivity.
  - simpl. rewrite (ltb_true _ _ Hi), (ltb_true _ _ Hk). reflexivity.
Qed.

(** x + positional_embedding: (batch, seq, width) plus (seq, width). *)
Lemma add_positional_ok (x pos : Tensor R) b l w :
  shape x = [b; l; w] -> shape pos = [l; w] -> device pos = device x ->
  exists y, add x (type_ pos (dtype x)) = Ok y
    /\ shape y = [b; l; w] /\ dtype y = dtype x /\ device y = device x.
Proof.
  intros Hx Hp Hv. apply binop_ok.
  - rewrite type_shape, Hx, Hp. unfold broadcast_shapes. simpl.
    rewrite !Nat.eqb_refl. reflexivity.
  - rewrite type_dtype. reflexivity.
  - rewrite type_device. congruence.
Qed.

(** From a batch of images to the sequence the transformer is given. *)
Lemma embed_ok (self : t (R := R)) (x : Tensor R) b patch width out :
  vit_wf self patch width out (dtype x) (device x) ->
  0 < patch -> patch <= input_resolution self -> 0 < width -> 1 <= b ->
  shape x = [b; 3; input_resolution self; input_resolution self] ->
  let grid := input_resolution self / patch in
  exists c r p cls s q n0 e,
    Conv2d.forward (conv1 self) x = Ok c
    /\ shape c = [b; width; grid; grid]
    /\ reshape c [Some b; Some width; None] = Ok r
    /\ permute r [0; 2; 1] = Ok p
    /\ shape p = [b; grid * grid; width]
    /\ add (type_ (class_embedding self) (dtype x))
           (zeros [b; 1; width] (dtype x) (device x)) = Ok cls
    /\ cat cls p 1 = Ok s
    /\ shape s = [b; grid ^ 2 + 1; width]
    /\ (forall i k, i < b -> k < width ->
          get s [i; 0; k] = round (dtype x) (get cls [i; 0; k]))
    /\ (forall i j k, i < b -> j < grid * grid -> k < width ->
          get s [i; 1 + j; k] = round (dtype x) (get p [i; j; k]))
    /\ add s (type_ (positional_embedding self) (dtype s)) = Ok q
    /\ LayerNorm.forward (ln_pre self) q = Ok n0
    /\ permute n0 [1; 0; 2] = Ok e
    /\ embed self x = Ok e
    /\ shape e = [grid ^ 2 + 1; b; width]
    /\ dtype e = dtype x /\ device e = device x.
Proof.
  intros (Hcw & Hst & Hcd & Hcv & Hce & Hcev & Hpe & Hpev & Hln & _ & _ & _ & _)
         Hp Hres Hw Hb Hs grid.
  destruct (Conv2d_forward_ok (conv1 self) x b width 3 patch
              (input_resolution self) (input_resolution self))
    as (c & Hc & Hcs & Hcdt & Hcdv); try congruence; try lia.
  rewrite Hst, (patch_grid _ _ Hp Hres) in Hcs. fold grid in Hcs.
  destruct (reshape_flatten c b width grid grid Hcs) as (r & Hr & Hrs & Hrd & Hrv & _);
    try lia.
  destruct (permute_021 r _ _ _ Hrs) as (p & Hpm & Hps & Hpd & Hpv & _).
  destruct (class_rows_ok (class_embedding self) b width (dtype p) (device p) Hce)
    as (cls & Hcls & Hclss & Hclsd & Hclsv & _); [congruence|].
  destruct (cat_dim1 cls p b 1 (grid * grid) width Hclss Hps)
    as (s & Hcat & Hss & Hsd & Hsv & Hs0 & Hs1); try congruence.
  assert (Hpe' : shape (positional_embedding self) = [1 + grid * grid; width]).
  { rewrite Hpe. fold grid. f_equal. rewrite Nat.pow_2_r. lia. }
  destruct (add_positional_ok s (positional_embedding self) b (1 + grid * grid) width
              Hss Hpe') as (q & Hq & Hqs & Hqd & Hqv); [congruence|].
  assert (Hqs' : shape q = [b; 1 + grid * grid] ++ [width]) by exact Hqs.
  assert (Hln' : ln_wf (ln_pre self) width Float32 (device q)) by
    (replace (device q) with (device x) by congruence; exact Hln).
  destruct (LayerNorm_forward_ok (ln_pre self) q _ _ Hqs' Hln')
    as (n & Hn & Hnd & Hns & Hnv).
  rewrite Hqs in Hns.
  destruct (permute_102 n _ _ _ Hns) as (e & He & Hes & Hed & Hev & _).
  assert (Hdp : dtype p = dtype x) by congruence.
  assert (Hvp : device p = device x) by congruence.
  assert (Hg2 : grid ^ 2 + 1 = 1 + grid * grid) by (rewrite Nat.pow_2_r; lia).
  assert (Hcls' := Hcls). rewrite Hdp, Hvp in Hcls'.
  rewrite Hclsd, Hdp in Hs0, Hs1.
  exists c, r, p, cls, s, q, n, e.
  split; [exact Hc|]. split; [exact Hcs|]. split; [exact Hr|].
  split; [exact Hpm|]. split; [exact Hps|]. split; [exact Hcls'|].
  split; [exact Hcat|]. split; [rewrite Hg2; exact Hss|].
  split; [intros i k Hi Hk; apply Hs0; lia|].
  split; [exact Hs1|].
  split; [exact Hq|]. split; [exact Hn|]. split; [exact He|].
  split.
  - unfold embed. rewrite Hc. cbn [bind]. rewrite Hcs, Hr. cbn [bind].
    rewrite Hpm. cbn [bind]. rewrite Hps. cbn [nth last].
    rewrite Hcls. cbn [bind]. rewrite Hcat. cbn [bind].
    rewrite Hq. cbn [bind]. rewrite Hn. cbn [bind]. exact He.
  - rewrite Hg2. repeat split; congruence.
Qed.

End VisionFacts.

(** ** C5: the vision encoder *)

Section VisionEncoder.
Context {R : Type} {RT : Runtime R} {AT : Attention R}.

Import VisionTransformer.


(** The class token's output, normalized and projected. *)
Lemma head_ok (self : t (R := R)) (z : Tensor R) l b patch width out :
  vit_wf self patch width out (dtype z) (device z) ->
  shape z = [S l; b; width] ->
  exists zp x0 n pr y,
    permute z [1; 0; 2] = Ok zp
    /\ select zp 1 0 = Ok x0
    /\ shape x0 = [b; width]
    /\ (forall i k, i < b -> k < width -> get x0 [i; k] = get z [0; i; k])
    /\ LayerNorm.forward (ln_post self) x0 = Ok n
    /\ proj self = Some pr
    /\ matmul n pr = Ok y
    /\ (forall i j, i < b -> j < out ->
          get y [i; j] = dot (dtype n) n pr width i j)
    /\ head self z = Ok y
    /\ shape y = [b; out] /\ dtype y = dtype z /\ device y = device z.
Proof.
  intros (_ & _ & _ & _ & _ & _ & _ & _ & _ & _ & Hln & (pr & Hpr & Hprs & Hprd & Hprv) & _)
         Hs.
  destruct (permute_102 z _ _ _ Hs) as (zp & Hzp & Hzps & Hzpd & Hzpv & Hzpg).
  destruct (select_mid0 zp _ _ _ Hzps) as (x0 & Hx0 & Hx0s & Hx0d & Hx0v & Hx0g).
  assert (Hx0s' : shape x0 = [b] ++ [width]) by exact Hx0s.
  assert (Hln' : ln_wf (ln_post self) width Float32 (device x0))
    by (replace (device x0) with (device z) by congruence; exact Hln).
  destruct (LayerNorm_forward_ok (ln_post self) x0 _ _ Hx0s' Hln')
    as (n & Hn & Hnd & Hns & Hnv).
  rewrite Hx0s in Hns.
  destruct (matmul_ok n pr b width out Hns Hprs) as (y & Hy & Hys & Hyd & Hyv & Hyg);
    [congruence | congruence |].
  exists zp, x0, n, pr, y.
  split; [exact Hzp|]. split; [exact Hx0|]. split; [exact Hx0s|].
  split.
  { intros i k Hi Hk. rewrite Hx0g by assumption. apply Hzpg; lia. }
  split; [exact Hn|]. split; [exact Hpr|]. split; [exact Hy|].
  split; [exact Hyg|].
  split.
  { unfold head. rewrite Hzp. cbn [bind]. rewrite Hx0. cbn [bind].
    rewrite Hn. cbn [bind]. rewrite Hpr. exact Hy. }
  repeat split; congruence.
Qed.

(** C5. For a batch of B >= 1 images of shape (B, 3, H, W) with
    H = W = input_resolution, an encoder whose parameters are laid out as
    __init__ lays them out (patch size at most the resolution) returns an
    output of shape (B, output_dim), computed step by step as follows.  The
    image goes through the strided convolution conv1, which gives a
    (B, width, grid, grid) tensor; that is flattened and permuted to grid^2
    tokens per image; the class-token rows (class_embedding, broadcast over
    the batch) are concatenated in front of them, so that sequence position
    0 holds the class token, position 1 + j holds patch token j, and the
    sequence has grid^2 + 1 positions, the length of positional_embedding,
    which is added; ln_pre and a permutation give the input of the stack;
    the stack runs without a mask and keeps the shape; only position 0 of
    its output is selected, normalized by ln_post, and multiplied by proj (no
    bias).  The encoder is left as it was. *)
Theorem VisionTransformer_forward_shape (self : t (R := R)) (x : Tensor R)
  (b patch width out : nat) :
  vit_wf self patch width out (dtype x) (device x) ->
  0 < patch -> patch <= input_resolution self -> 0 < width -> 1 <= b ->
  shape x = [b; 3; input_resolution self; input_resolution self] ->
  let grid := input_resolution self / patch in
  exists c r p cls s q n0 e z zp x0 n pr y,
    Conv2d.forward (conv1 self) x = Ok c
    /\ Conv2d.stride (conv1 self) = patch
    /\ shape c = [b; width; grid; grid]
    /\ reshape c [Some b; Some width; None] = Ok r
    /\ permute r [0; 2; 1] = Ok p
    /\ shape p = [b; grid * grid; width]
    /\ add (type_ (class_embedding self) (dtype x))
           (zeros [b; 1; width] (dtype x) (device x)) = Ok cls
    /\ cat cls p 1 = Ok s
    /\ shape s = [b; grid ^ 2 + 1; width]
    /\ (forall i k, i < b -> k < width ->
          get s [i; 0; k]
          = round (dtype x)
              (fadd (dtype x)
                 (round (dtype x) (get (type_ (class_embedding self) (dtype x)) [k]))
                 (round (dtype x) fzero)))
    /\ (forall i j k, i < b -> j < grid * grid -> k < width ->
          get s [i; 1 + j; k] = round (dtype x) (get p [i; j; k]))
    /\ shape (positional_embedding self) = [grid ^ 2 + 1; width]
    /\ add s (type_ (positional_embedding self) (dtype s)) = Ok q
    /\ LayerNorm.forward (ln_pre self) q = Ok n0
    /\ permute n0 [1; 0; 2] = Ok e
    /\ embed self x = Ok e
    /\ shape e = [grid ^ 2 + 1; b; width]
    /\ Forall (fun blk => ResidualAttentionBlock.attn_mask blk = None)
         (Transformer.resblocks (transformer self))
    /\ Transformer.forward (transformer self) e = (Ok z, transformer self)
    /\ shape z = shape e
    /\ permute z [1; 0; 2] = Ok zp
    /\ select zp 1 0 = Ok x0
    /\ shape x0 = [b; width]
    /\ (forall i k, i < b -> k < width -> get x0 [i; k] = get z [0; i; k])
    /\ LayerNorm.forward (ln_post self) x0 = Ok n
    /\ proj self = Some pr
    /\ matmul n pr = Ok y
    /\ (forall i j, i < b -> j < out ->
          get y [i; j] = dot (dtype n) n pr width i j)
    /\ forward self x = (Ok y, self)
    /\ shape y = [b; output_dim self].
Proof.
  intros Hwf Hp Hres Hw Hb Hs grid.
  destruct (embed_ok self x b patch width out Hwf Hp Hres Hw Hb Hs)
    as (c & r & p & cls & s & q & n0 & e & Hc & Hcs & Hr & Hpm & Hps & Hcls & Hcat
        & Hss & Hs0 & Hs1 & Hq & Hn0 & Hpe0 & He & Hes & Hed & Hev).
  fold grid in Hcs, Hps, Hss, Hs1, Hes.
  pose proof Hwf as (_ & Hst & _ & _ & Hce & Hcev & Hpe & _ & _ & Hblocks & _ & _ & Hout).
  fold grid in Hpe.
  assert (Hg : grid ^ 2 + 1 = S (grid * grid)) by (rewrite Nat.pow_2_r; lia).
  destruct (run_unmasked_ok (Transformer.resblocks (transformer self)) e
              (grid ^ 2 + 1) b width) as (z & Hz & Hzs & Hzd & Hzv).
  { rewrite Hed, Hev. exact Hblocks. }
  { exact Hes. }
  assert (Hwfz : vit_wf self patch width out (dtype z) (device z))
    by (rewrite Hzd, Hzv, Hed, Hev; exact Hwf).
  assert (Hzs' : shape z = [S (grid * grid); b; width]) by congruence.
  destruct (head_ok self z _ _ patch width out Hwfz Hzs')
    as (zp & x0 & n & pr & y & Hzp & Hx0 & Hx0s & Hx0g & Hn & Hpr & Hy & Hyg & Hhead
        & Hys & _ & _).
  assert (Htr : Transformer.forward (transformer self) e = (Ok z, transformer self)).
  { unfold Transformer.forward. rewrite Hz.
    destruct (transformer self); reflexivity. }
  destruct (class_rows_ok (class_embedding self) b width (dtype x) (device x) Hce Hcev)
    as (cls' & Hcls'' & _ & _ & _ & Hclsg).
  assert (cls' = cls) by congruence. subst cls'.
  exists c, r, p, cls, s, q, n0, e, z, zp, x0, n, pr, y.
  split; [exact Hc|]. split; [exact Hst|]. split; [exact Hcs|]. split; [exact Hr|].
  split; [exact Hpm|]. split; [exact Hps|]. split; [exact Hcls|].
  split; [exact Hcat|]. split; [exact Hss|].
  split.
  { intros i k Hi Hk. rewrite Hs0 by assumption. f_equal. apply Hclsg; assumption. }
  split; [exact Hs1|]. split; [exact Hpe|]. split; [exact Hq|]. split; [exact Hn0|].
  split; [exact Hpe0|]. split; [exact He|]. split; [exact Hes|].
  split.
  { eapply Forall_impl; [|exact Hblocks]. simpl. intros blk [_ H]. exact H. }
  split; [exact Htr|]. split; [exact Hzs|]. split; [exact Hzp|]. split; [exact Hx0|].
  split; [exact Hx0s|].
  split; [exact Hx0g|]. split; [exact Hn|]. split; [exact Hpr|].
  split; [exact Hy|]. split; [exact Hyg|].
  split.
  { unfold forward. rewrite He, Htr. cbn [bind]. rewrite Hhead.
    f_equal. destruct self as [? ? ? ? ? ? [? ? ?] ? ?]. reflexivity. }
  rewrite Hout. exact Hys.
Qed.

End VisionEncoder.

(** ** What the constructors establish *)

Section InitFacts.
Context {R : Type} {RT : Runtime R} {AT : Attention R}.

Lemma ln_init_wf (n : nat) : ln_wf (LayerNorm.init (R := R) n) n Float32 CPU.
Proof. repeat split. Qed.

Lemma linear_init_wf (s i o : nat) :
  linear_wf (Linear.init (R := R) s i o) i o Float32 CPU.
Proof. repeat split. Qed.

Lemma block_init_ok (s d h : nat) (m : option (Tensor R)) :
  0 < d -> 0 < h -> d mod h = 0 ->
  exists b, ResidualAttentionBlock.init s d h m = Ok b
    /\ block_wf b d Float32 CPU
    /\ ResidualAttentionBlock.attn_mask b = m.
Proof.
  intros Hd Hh Hdiv. unfold ResidualAttentionBlock.init.
  destruct (@mha_init_ok _ _ _ s d h Hd Hh Hdiv) as [a Ha]. rewrite Ha.
  destruct (@mha_init_spec _ _ _ s d h a Ha) as (He & Hdt & Hdv).
  eexists. split; [reflexivity|]. split; [|reflexivity].
  repeat split; assumption.
Qed.

Lemma init_blocks_ok (d h : nat) (m : option (Tensor R)) :
  0 < d -> 0 < h -> d mod h = 0 ->
  forall n s, exists bs,
    Transformer.init_blocks s d h n m = Ok bs
    /\ length bs = n
    /\ Forall (fun b => block_wf b d Float32 CPU
                        /\ ResidualAttentionBlock.attn_mask b = m) bs.
Proof.
  intros Hd Hh Hdiv. induction n as [|n IH]; intros s.
  - exists []. simpl. auto.
  - simpl. destruct (block_init_ok s d h m Hd Hh Hdiv) as (b & Hb & Hwf & Hm).
    rewrite Hb. cbn [bind]. destruct (IH (s + 5)) as (bs & Hbs & Hlen & Hall).
    rewrite Hbs. cbn [bind]. exists (b :: bs). simpl. auto.
Qed.

(** VisionTransformer.__init__ returns when the width and the patch size
    are positive and the number of heads divides the width, and lays the
    parameters out as [vit_wf] says. *)
Lemma VisionTransformer_init_ok (s res patch width layers heads out : nat) :
  0 < width -> 0 < patch -> 0 < heads -> width mod heads = 0 ->
  exists v, VisionTransformer.init s res patch width layers heads out = Ok v
    /\ VisionTransformer.input_resolution v = res
    /\ VisionTransformer.output_dim v = out
    /\ length (Transformer.resblocks (VisionTransformer.transformer v)) = layers
    /\ vit_wf v patch width out Float32 CPU.
Proof.
  intros Hw Hp Hh Hdiv. unfold VisionTransformer.init, Transformer.init.
  rewrite (ltb_true _ _ Hw), (ltb_true _ _ Hp). cbn [guard bind].
  destruct (init_blocks_ok width heads None Hw Hh Hdiv layers (s + 4))
    as (bs & Hbs & Hlen & Hall).
  rewrite Hbs. cbn [bind].
  eexists. split; [reflexivity|]. cbn.
  split; [reflexivity|]. split; [reflexivity|]. split; [exact Hlen|].
  unfold vit_wf. cbn.
  repeat split; try exact Hall.
  eexists. repeat split.
Qed.

End InitFacts.

(** ** A runtime to evaluate the model on small inputs

    Scalars are the integers extended with negative infinity; the
    arithmetic is integer arithmetic at every dtype.  Attention is uniform
    over the positions the mask leaves open.  The tokenizer maps a
    character to its code, between a start and an end marker, in a context
    of four positions; the text stack is the stack of nets/vit.py.  No
    pretrained model can be loaded. *)

Module Eval.

Inductive num : Type := NegInf | Num (z : Z).

Definition lift1 (f : Z -> Z) (a : num) : num :=
  match a with Num x => Num (f x) | NegInf => NegInf end.

Definition lift2 (f : Z -> Z -> Z) (a b : num) : num :=
  match a, b with Num x, Num y => Num (f x y) | _, _ => NegInf end.

#[export] Instance runtime : Runtime num := {|
  fzero := Num 0;
  fone := Num 1;
  neg_inf := NegInf;
  of_decimal := fun m e => Num (if (e <? 0)%Z then m / 10 ^ (- e) else m * 10 ^ e)%Z;
  of_nat := fun n => Num (Z.of_nat n);
  round := fun _ x => x;
  fadd := fun _ => lift2 Z.add;
  fsub := fun _ => lift2 Z.sub;
  fmul := fun _ => lift2 Z.mul;
  fdiv := fun _ => lift2 Z.div;
  fsqrt := fun _ => lift1 Z.sqrt;
  fexp := fun _ => lift1 (fun x => 2 ^ x)%Z;
  flog := fun _ => lift1 Z.log2;
  fpow := fun _ _ _ => Num 1;
  fsigmoid := fun _ a => match a with
                         | Num x => Num (if (0 <=? x)%Z then 1 else 0)
                         | NegInf => Num 0
                         end;
  uninit := fun _ => Num 0;
  randn := fun s n => Num (Z.of_nat ((s * 7 + n * 3) mod 5) - 2)%Z;
  round_zero := fun _ => eq_refl;
  round_neg_inf := fun _ => eq_refl
|}.

Record mha : Type := mkMha {
  embed_dim : nat;
  num_heads : nat;
  mha_dt : DType;
  mha_dv : Device
}.

Definition mha_new (s d h : nat) : result mha :=
  if (0 <? d) && (0 <? h) && (d mod h =? 0) then Ok (mkMha d h Float32 CPU)
  else Raise ValueError.

Definition mask_check (q : Tensor num) (l : nat) (m : option (Tensor num))
  : result unit :=
  match m with
  | None => Ok tt
  | Some mk =>
      _ <- guard (shape_eqb (shape mk) [l; l]) ShapeError ;;
      _ <- guard (dtype_eqb (dtype mk) (dtype q)) DTypeError ;;
      guard (device_eqb (device mk) (device q)) DeviceError
  end.

Definition is_open (m : option (Tensor num)) (i j : nat) : bool :=
  match m with
  | None => true
  | Some mk => match get mk [i; j] with NegInf => false | Num _ => true end
  end.

Definition mha_apply (a : mha) (q k v : Tensor num) (m : option (Tensor num))
  : result (Tensor num) :=
  match shape q with
  | [l; n; e] =>
      _ <- guard (e =? embed_dim a) ShapeError ;;
      _ <- guard (dtype_eqb (dtype q) (mha_dt a)) DTypeError ;;
      _ <- guard (device_eqb (device q) (mha_dv a)) DeviceError ;;
      _ <- mask_check q l m ;;
      Ok (build (dtype q) (device q) [l; n; e]
            (fun idx =>
               match idx with
               | [i; b; c] =>
                   fsum (dtype q)
                     (map (fun j => if is_open m i j then get v [j; b; c] else Num 0)
                          (seq 0 l))
               | _ => Num 0
               end))
  | _ => Raise ShapeError
  end.

Lemma mha_new_ok (s d h : nat) :
  0 < d -> 0 < h -> d mod h = 0 -> exists a, mha_new s d h = Ok a.
Proof.
  intros Hd Hh Hm. unfold mha_new.
  rewrite (ltb_true _ _ Hd), (ltb_true _ _ Hh), Hm. simpl. eauto.
Qed.

Lemma mha_new_spec (s d h : nat) (a : mha) :
  mha_new s d h = Ok a ->
  embed_dim a = d /\ mha_dt a = Float32 /\ mha_dv a = CPU.
Proof.
  unfold mha_new. destruct (_ && _); [|discriminate].
  intros H. injection H as <-. auto.
Qed.

Lemma mha_apply_out (a : mha) (q k v : Tensor num) (m : option (Tensor num))
  (y : Tensor num) :
  mha_apply a q k v m = Ok y ->
  shape y = shape q /\ dtype y = dtype q /\ device y = device q.
Proof.
  unfold mha_apply.
  destruct (shape q) as [|l [|n [|e [|? ?]]]] eqn:Hs; try discriminate.
  destruct (guard _ ShapeError); [|discriminate]. cbn [bind].
  destruct (guard _ DTypeError); [|discriminate]. cbn [bind].
  destruct (guard _ DeviceError); [|discriminate]. cbn [bind].
  destruct (mask_check q l m); [|discriminate]. cbn [bind].
  intros H. injection H as <-. auto.
Qed.

Lemma mha_apply_ok (a : mha) (x : Tensor num) (m : option (Tensor num)) (l n : nat) :
  shape x = [l; n; embed_dim a] ->
  dtype x = mha_dt a ->
  device x = mha_dv a ->
  (forall mk, m = Some mk ->
     shape mk = [l; l] /\ dtype mk = dtype x /\ device mk = device x) ->
  exists y, mha_apply a x x x m = Ok y.
Proof.
  intros Hs Hd Hv Hm. unfold mha_apply. rewrite Hs, Hd, Hv.
  rewrite Nat.eqb_refl, dtype_eqb_refl, device_eqb_refl. cbn [guard bind].
  assert (Hc : mask_check x l m = Ok tt).
  { destruct m as [mk|]; [|reflexivity].
    destruct (Hm mk eq_refl) as (H1 & H2 & H3). unfold mask_check.
    rewrite H1, H2, H3, shape_eqb_refl, dtype_eqb_refl, device_eqb_refl.
    reflexivity. }
  rewrite <- Hd, <- Hv, Hc. cbn [bind]. eauto.
Qed.

#[export] Instance attention : Attention num := {|
  MultiheadAttention := mha;
  mha_init := mha_new;
  mha_forward := mha_apply;
  mha_embed_dim := embed_dim;
  mha_dtype := mha_dt;
  mha_device := mha_dv;
  mha_init_ok := mha_new_ok;
  mha_init_spec := mha_new_spec;
  mha_forward_out := mha_apply_out;
  mha_forward_ok := mha_apply_ok
|}.

Local Open Scope string_scope.

Fixpoint codes (s : String.string) : list Z :=
  match s with
  | String.EmptyString => []
  | String.String c s' => Z.of_nat (Ascii.nat_of_ascii c) :: codes s'
  end.

(** One row of token ids: start marker 256, the codes, end marker 257,
    zeros up to four positions; a longer text is cut and ends in 257. *)
Definition encode_row (s : String.string) : list Z :=
  let toks := (256 :: codes s ++ [257])%Z in
  if length toks <=? 4 then toks ++ repeat 0%Z (4 - length toks)
  else firstn 3 toks ++ [257%Z].

Definition toy_tokenize (_ : unit) (texts : list String.string) (truncate : bool)
  : result IntTensor :=
  Ok (mkIntTensor CPU [length texts; 4] (flat_map encode_row texts)).

#[export] Instance text : TextCollaborators num := {|
  SimpleTokenizer := unit;
  SimpleTokenizer_init := Ok tt;
  tokenize := toy_tokenize;
  bert_Transformer := Transformer.t (R := num);
  bert_Transformer_init := fun w l h m => Transformer.init 50 w l h m;
  bert_Transformer_forward := fun tr x => Transformer.forward tr x;
  BertTokenizer := unit;
  BertTokenizer_from_pretrained := fun _ => Raise ExternalError;
  BertTokenizer_call := fun _ _ => Raise ExternalError;
  BertModel := unit;
  BertModel_from_pretrained := fun _ => Raise ExternalError;
  hidden_size := fun _ => 0;
  BertModel_pooler_output := fun m _ _ _ => (Raise ExternalError, m)
|}.

(** A small model: 2 x 2 images in one patch, width 2, one layer, one
    head, embeddings of dimension 2, a vocabulary of 258 ids. *)
Definition small_args : CLIP.args :=
  CLIP.mkArgs "openai" 2 2 1 64 2 4 1 2 1 258 [].

End Eval.

(** ** What a forward pass leaves in place, and the dtype it returns *)

Section FrameFacts.
Context {R : Type} {RT : Runtime R} {AT : Attention R}.

Import ResidualAttentionBlock.




(** The block after a pass: itself when ln_1 raised, and otherwise
    itself with the mask converted to the dtype and device of ln_1(x). *)
Lemma block_forward_state (b : t (R := R)) (x : Tensor R) :
  snd (forward b x)
  = match LayerNorm.forward (ln_1 b) x with
    | Ok h => set_attn_mask b (reconciled_mask b h)
    | Raise _ => b
    end.
Proof.
  unfold forward. destruct (LayerNorm.forward (ln_1 b) x); reflexivity.
Qed.


Lemma block_forward_same (b : t (R := R)) (x : Tensor R) :
  (attn_mask b = None
   \/ exists m, attn_mask b = Some m /\ dtype m = dtype x /\ device m = device x) ->
  snd (forward b x) = b.
Proof.
  intros H. rewrite block_forward_state.
  destruct (LayerNorm.forward (ln_1 b) x) as [h|] eqn:E; [|reflexivity].
  apply LayerNorm_forward_out in E. destruct E as (_ & Ed & Ev).
  unfold reconciled_mask. destruct H as [H | (m & H & Hd & Hv)]; rewrite H.
  - rewrite <- H. apply set_attn_mask_same.
  - rewrite Ed, Ev, <- Hd, <- Hv, to_same, <- H. apply set_attn_mask_same.
Qed.



(** dtype of a block's and of a stack's output *)
Lemma QuickGELU_forward_out (x y : Tensor R) :
  QuickGELU.forward x = Ok y -> dtype y = dtype x.
Proof.
  intros H. destruct (QuickGELU_forward_ok x) as (y' & H' & _ & Hd & _).
  congruence.
Qed.

Lemma add_out_dtype (x y r : Tensor R) :
  add x y = Ok r -> dtype y = dtype x -> dtype r = dtype x.
Proof.
  intros H Hd. apply binop_out in H. destruct H as (_ & H & _).
  rewrite H. apply result_dtype_same. congruence.
Qed.

Lemma mlp_out (b : t (R := R)) (x y : Tensor R) :
  mlp b x = Ok y -> dtype y = dtype x.
Proof.
  unfold mlp.
  destruct (Linear.forward (c_fc b) x) as [u|] eqn:Eu; [|discriminate].
  cbn [bind].
  destruct (QuickGELU.forward u) as [g|] eqn:Eg; [|discriminate].
  cbn [bind]. intros Ef.
  apply Linear_forward_out in Eu, Ef. apply QuickGELU_forward_out in Eg.
  destruct Eu as (Eu & _), Ef as (Ef & _). congruence.
Qed.

Lemma block_forward_dtype (b b' : t (R := R)) (x y : Tensor R) :
  forward b x = (Ok y, b') -> dtype y = dtype x.
Proof.
  unfold forward.
  destruct (LayerNorm.forward (ln_1 b) x) as [h|] eqn:Eh; [|discriminate].
  unfold attention. cbn [attn attn_mask set_attn_mask ln_2].
  destruct (mha_forward (attn b) h h h (reconciled_mask b h)) as [a|] eqn:Ea;
    [|discriminate].
  cbn [bind].
  destruct (add x a) as [x1|] eqn:Ex1; [|discriminate]. cbn [bind].
  destruct (LayerNorm.forward (ln_2 b) x1) as [h2|] eqn:Eh2; [|discriminate].
  cbn [bind].
  destruct (mlp _ h2) as [m|] eqn:Em; [|discriminate]. cbn [bind].
  intros H. injection H as H _.
  apply LayerNorm_forward_out in Eh, Eh2.
  destruct Eh as (_ & Eh & _), Eh2 as (_ & Eh2 & _).
  apply mha_forward_out in Ea. destruct Ea as (_ & Ea & _).
  apply mlp_out in Em.
  assert (Hx1 : dtype x1 = dtype x) by (apply (add_out_dtype x a); congruence).
  rewrite <- Hx1. apply (add_out_dtype x1 m); congruence.
Qed.

Lemma run_dtype (bs : list (t (R := R))) :
  forall x y bs', Transformer.run bs x = (Ok y, bs') -> dtype y = dtype x.
Proof.
  induction bs as [|b bs IH]; intros x y bs'; simpl.
  - intros H. injection H as <- _. reflexivity.
  - destruct (forward b x) as [r b1] eqn:Eb. destruct r as [z|e]; [|discriminate].
    destruct (Transformer.run bs z) as [r' bs''] eqn:Er.
    intros H. injection H as -> _.
    apply block_forward_dtype in Eb. apply IH in Er. congruence.
Qed.

End FrameFacts.

Section VisionFrame.
Context {R : Type} {RT : Runtime R} {AT : Attention R}.

Import VisionTransformer.

Lemma embed_dtype (self : t (R := R)) (x e : Tensor R) :
  embed self x = Ok e ->
  dtype e = dtype x /\ dtype x = dtype (Conv2d.weight (conv1 self)).
Proof.
  unfold embed.
  destruct (Conv2d.forward (conv1 self) x) as [c|] eqn:Ec; [|discriminate].
  cbn [bind].
  destruct (match shape c with
            | d0 :: d1 :: _ => reshape c [Some d0; Some d1; None]
            | _ => Raise IndexError
            end) as [r|] eqn:Er; [|discriminate].
  cbn [bind].
  destruct (permute r [0; 2; 1]) as [p|] eqn:Ep; [|discriminate]. cbn [bind].
  destruct (add _ _) as [cls|] eqn:Ecls; [|discriminate]. cbn [bind].
  destruct (cat cls p 1) as [s|] eqn:Es; [|discriminate]. cbn [bind].
  destruct (add s _) as [q|] eqn:Eq; [|discriminate]. cbn [bind].
  destruct (LayerNorm.forward (ln_pre self) q) as [n|] eqn:En; [|discriminate].
  cbn [bind]. intros Ee.
  apply Conv2d_forward_out in Ec. destruct Ec as (Ec & Ew & _).
  assert (Hr : dtype r = dtype c).
  { destruct (shape c) as [|d0 [|d1 ?]]; try discriminate.
    apply reshape_out in Er. apply Er. }
  apply permute_out in Ep, Ee. destruct Ep as (Ep & _), Ee as (Ee & _).
  assert (Hcls : dtype cls = dtype p).
  { apply binop_out in Ecls. destruct Ecls as (_ & H & _). rewrite H.
    rewrite result_dtype_same; rewrite type_dtype; reflexivity. }
  apply cat_out in Es. destruct Es as (Es & _).
  rewrite Hcls, promote_types_same in Es.
  assert (Hq : dtype q = dtype s).
  { apply (add_out_dtype s _ q Eq). apply type_dtype. }
  apply LayerNorm_forward_out in En. destruct En as (_ & En & _).
  split; congruence.
Qed.

Lemma head_dtype (self : t (R := R)) (z y : Tensor R) :
  head self z = Ok y -> dtype y = dtype z.
Proof.
  unfold head.
  destruct (permute z [1; 0; 2]) as [zp|] eqn:Ep; [|discriminate]. cbn [bind].
  destruct (select zp 1 0) as [x0|] eqn:Es; [|discriminate]. cbn [bind].
  destruct (LayerNorm.forward (ln_post self) x0) as [n|] eqn:En; [|discriminate].
  cbn [bind]. intros Hy.
  apply permute_out in Ep. apply select_out in Es.
  apply LayerNorm_forward_out in En.
  destruct Ep as (Ep & _), Es as (Es & _), En as (_ & En & _).
  destruct (proj self) as [p|].
  - apply matmul_out in Hy.
    destruct Hy as (? & ? & ? & _ & _ & _ & _ & Hy & _). congruence.
  - injection Hy as <-. congruence.
Qed.

(** Whenever the encoder returns, its output has the dtype of its
    input, which is the dtype of the patch convolution's weight. *)
Lemma VisionTransformer_forward_dtype (self self' : t (R := R)) (x y : Tensor R) :
  forward self x = (Ok y, self') ->
  dtype y = dtype x /\ dtype x = dtype (Conv2d.weight (conv1 self)).
Proof.
  unfold forward. destruct (embed self x) as [e|] eqn:Ee; [|discriminate].
  unfold Transformer.forward.
  destruct (Transformer.run (Transformer.resblocks (transformer self)) e)
    as [r bs] eqn:Er.
  destruct r as [z|]; [|discriminate]. cbn [bind].
  destruct (head self z) as [y'|] eqn:Eh; [|discriminate].
  intros H. injection H as <- _.
  apply embed_dtype in Ee. apply run_dtype in Er. apply head_dtype in Eh.
  destruct Ee as (Ee & Ew). split; congruence.
Qed.



End VisionFrame.

(** ** The position of the first maximum *)

Lemma argmax_from_inv (l pre : list Z) :
  forall best_i,
    best_i < length pre ->
    (forall j, j < length pre -> (nth j pre 0 <= nth best_i pre 0)%Z) ->
    (forall j, j < best_i -> (nth j pre 0 < nth best_i pre 0)%Z) ->
    let p := argmax_from best_i (nth best_i pre 0%Z) (length pre) l in
    p < length (pre ++ l)
    /\ (forall j, j < length (pre ++ l) ->
          (nth j (pre ++ l) 0 <= nth p (pre ++ l) 0)%Z)
    /\ (forall j, j < p -> (nth j (pre ++ l) 0 < nth p (pre ++ l) 0)%Z).
Proof.
  revert pre. induction l as [|v l IH]; intros pre best_i Hlt Hmax Hfirst; simpl.
  - rewrite app_nil_r. auto.
  - replace (pre ++ v :: l) with ((pre ++ [v]) ++ l)
      by (rewrite <- app_assoc; reflexivity).
    assert (Hlen : length (pre ++ [v]) = S (length pre))
      by (rewrite length_app; simpl; lia).
    assert (Hv : nth (length pre) (pre ++ [v]) 0%Z = v)
      by (rewrite app_nth2 by lia; rewrite Nat.sub_diag; reflexivity).
    assert (Hold : forall j, j < length pre -> nth j (pre ++ [v]) 0%Z = nth j pre 0%Z)
      by (intros j Hj; apply app_nth1; exact Hj).
    destruct (nth best_i pre 0 <? v)%Z eqn:E.
    + apply Z.ltb_lt in E.
      pose proof (IH (pre ++ [v]) (length pre)) as H.
      rewrite Hv, Hlen in H. apply H.
      * lia.
      * intros j Hj. destruct (Nat.eq_dec j (length pre)) as [->|Hne].
        -- rewrite Hv. lia.
        -- rewrite Hold by lia. specialize (Hmax j). lia.
      * intros j Hj. rewrite Hold by lia. specialize (Hmax j). lia.
    + apply Z.ltb_ge in E.
      pose proof (IH (pre ++ [v]) best_i) as H.
      rewrite (Hold best_i Hlt), Hlen in H. apply H.
      * lia.
      * intros j Hj. destruct (Nat.eq_dec j (length pre)) as [->|Hne].
        -- rewrite Hv. exact E.
        -- rewrite Hold by lia. apply Hmax. lia.
      * intros j Hj. rewrite Hold by lia. apply Hfirst. exact Hj.
Qed.

(** [argmax_list l] is a position of l that holds its maximum, and the
    first such position. *)
Lemma argmax_list_spec (l : list Z) :
  l <> [] ->
  argmax_list l < length l
  /\ (forall j, j < length l -> (nth j l 0 <= nth (argmax_list l) l 0)%Z)
  /\ (forall j, j < argmax_list l -> (nth j l 0 < nth (argmax_list l) l 0)%Z).
Proof.
  destruct l as [|v l]; [congruence|]. intros _.
  apply (argmax_from_inv l [v] 0); simpl.
  - lia.
  - intros j Hj. replace j with 0 by lia. lia.
  - intros j Hj. lia.
Qed.

Lemma iget_ito (t : IntTensor) (v : Device) (idx : list nat) :
  iget (ito t v) idx = iget t idx.
Proof. unfold ito. destruct (device_eqb (idevice t) v); reflexivity. Qed.

Lemma ishape_ito (t : IntTensor) (v : Device) : ishape (ito t v) = ishape t.
Proof. unfold ito. destruct (device_eqb (idevice t) v); reflexivity. Qed.

Lemma idevice_ito (t : IntTensor) (v : Device) : idevice (ito t v) = v.
Proof.
  unfold ito. destruct (device_eqb (idevice t) v) eqn:E; [|reflexivity].
  apply device_eqb_eq. exact E.
Qed.

(** The row of ids at batch position b. *)
Definition id_row (t : IntTensor) (b l : nat) : list Z :=
  map (fun k => iget t [b; k]) (seq 0 l).

(** argmax(dim=-1) of a (batch, length) tensor of ids, whenever it
    returns a vector of m positions. *)
Lemma argmax_rows (t pos : IntTensor) (m : nat) :
  argmax t = Ok pos -> ishape pos = [m] ->
  exists l,
    ishape t = [m; l] /\ 0 < l /\ idevice pos = idevice t
    /\ forall b, b < m -> iget pos [b] = Z.of_nat (argmax_list (id_row t b l)).
Proof.
  unfold argmax. destruct (rev (ishape t)) as [|d pre] eqn:Hr.
  - intros H. injection H as <-. discriminate.
  - destruct (0 <? d) eqn:Hd; [|discriminate]. cbn [guard bind].
    intros H. injection H as <-. simpl. intros Hm.
    assert (Hs : ishape t = [m; d]).
    { rewrite <- (rev_involutive (ishape t)), Hr. simpl. rewrite Hm. reflexivity. }
    exists d. split; [exact Hs|]. split; [apply Nat.ltb_lt; exact Hd|].
    split; [reflexivity|].
    intros b Hb. unfold iget, ibuild. simpl. rewrite Hm.
    rewrite nth_map_indices; [reflexivity|].
    simpl. rewrite (ltb_true _ _ Hb). reflexivity.
Qed.

Section IndexFacts.
Context {R : Type} {RT : Runtime R}.

(** x[arange(n), pos] whenever it returns, for positions that are not
    negative and a batch extent n that is the number of positions. *)
Lemma index_rows_same_batch (x sel : Tensor R) (pos : IntTensor) (m : nat) :
  index_rows x m pos = Ok sel -> ishape pos = [m] ->
  (forall b, b < m -> (0 <= iget pos [b])%Z) ->
  exists d0 d1 rest,
    shape x = d0 :: d1 :: rest
    /\ shape sel = m :: rest
    /\ dtype sel = dtype x
    /\ (forall b, b < m -> b < d0 /\ Z.to_nat (iget pos [b]) < d1)
    /\ forall b tl, in_bounds (m :: rest) (b :: tl) = true ->
         get sel (b :: tl) = get x (b :: Z.to_nat (iget pos [b]) :: tl).
Proof.
  unfold index_rows. intros H Hp Hnn. rewrite Hp in H.
  destruct (shape x) as [|d0 [|d1 rest]]; try discriminate.
  destruct (guard _ DeviceError); [|discriminate]. cbn [bind] in H.
  rewrite Nat.eqb_refl in H. cbn [orb guard bind] in H.
  match type of H with
  | bind (guard (forallb ?f ?l) _) _ = _ =>
      destruct (forallb f l) eqn:Hall; [|discriminate]
  end.
  cbn [guard bind] in H. injection H as <-.
  assert (Hrows : (if m =? 1 then m else m) = m) by (destruct (m =? 1); reflexivity).
  rewrite Hrows in *.
  assert (Hidx : forall b, b < m ->
            (if m =? 1 then 0 else b) = b).
  { intros b Hb. destruct (m =? 1) eqn:E; [|reflexivity].
    apply Nat.eqb_eq in E. lia. }
  exists d0, d1, rest. simpl.
  split; [reflexivity|]. split; [reflexivity|]. split; [reflexivity|].
  rewrite forallb_forall in Hall.
  assert (Hb : forall b, b < m -> b < d0 /\ Z.to_nat (iget pos [b]) < d1).
  { intros b Hlt. specialize (Hall b). rewrite in_seq in Hall.
    specialize (Hall ltac:(lia)). rewrite (Hidx b Hlt) in Hall.
    specialize (Hnn b Hlt).
    replace (iget pos [b] <? 0)%Z with false in Hall
      by (symmetry; apply Z.ltb_ge; exact Hnn).
    apply andb_true_iff in Hall. destruct Hall as [Hall H3].
    apply andb_true_iff in Hall. destruct Hall as [H1 H2].
    apply Nat.ltb_lt in H1. apply Z.ltb_lt in H3. split; [exact H1|lia]. }
  split; [exact Hb|].
  intros b tl Hin. rewrite get_build by exact Hin.
  simpl in Hin. apply andb_true_iff in Hin. destruct Hin as [Hlt _].
  apply Nat.ltb_lt in Hlt. rewrite (Hidx b Hlt).
  replace (iget pos [b] <? 0)%Z with false
    by (symmetry; apply Z.ltb_ge; apply Hnn; exact Hlt).
  reflexivity.
Qed.

Lemma index_rows_dtype (x sel : Tensor R) (n : nat) (pos : IntTensor) :
  index_rows x n pos = Ok sel -> dtype sel = dtype x.
Proof.
  unfold index_rows.
  destruct (shape x) as [|d0 [|d1 rest]]; try discriminate.
  destruct (ishape pos) as [|m [|? ?]]; try discriminate.
  destruct (guard _ DeviceError); [|discriminate]. cbn [bind].
  destruct (guard _ IndexError); [|discriminate]. cbn [bind].
  destruct (guard _ IndexError); [|discriminate]. cbn [bind].
  intros H. injection H as <-. reflexivity.
Qed.

End IndexFacts.

(** ** C4: pooling at the position of the highest token id *)

Section TextFacts.
Context {R : Type} {RT : Runtime R} {AT : Attention R} {TC : TextCollaborators R}.
Local Open Scope string_scope.

Import CLIP.

(** What a successful variant-A encoding went through. *)
Lemma encode_text_openai_inv (self self' : t (R := R)) (text : list String.string)
  (y : Tensor R) :
  bert_type self = "openai" ->
  encode_text self text = (Ok y, self') ->
  exists tk emb pe tr ids x0 tr' h,
    tokenizer self = Some (OfSimpleTokenizer tk)
    /\ token_embedding self = Some emb
    /\ positional_embedding self = Some pe
    /\ transformer self = Some (OfTransformer tr)
    /\ tokenize tk text true = Ok ids
    /\ embed_text self tk emb pe text = Ok (ito ids (param_device self), x0)
    /\ bert_Transformer_forward tr x0 = (Ok h, tr')
    /\ pool_text self (ito ids (param_device self)) h = Ok y
    /\ self' = set_transformer self (OfTransformer tr').
Proof.
  intros Hb. unfold encode_text. rewrite Hb. simpl String.eqb. cbv iota.
  destruct (tokenizer self) as [[tk|?]|]; try discriminate.
  destruct (token_embedding self) as [emb|]; try discriminate.
  destruct (positional_embedding self) as [pe|]; try discriminate.
  destruct (transformer self) as [[tr|?]|]; try discriminate.
  destruct (embed_text self tk emb pe text) as [[text_ids x0]|] eqn:Ee;
    [|discriminate].
  destruct (bert_Transformer_forward tr x0) as [r tr'] eqn:Et.
  destruct r as [h|]; [|discriminate]. cbn [bind].
  destruct (pool_text self text_ids h) as [y'|] eqn:Ep; [|discriminate].
  intros H. injection H as <- <-.
  assert (Hids : exists ids, tokenize tk text true = Ok ids
                             /\ text_ids = ito ids (param_device self)).
  { unfold embed_text in Ee.
    destruct (tokenize tk text true) as [ids|]; [|discriminate].
    cbn [bind] in Ee.
    destruct (Embedding.forward emb _) as [e|]; [|discriminate]. cbn [bind] in Ee.
    destruct (add _ _) as [a|]; [|discriminate]. cbn [bind] in Ee.
    destruct (permute a [1; 0; 2]) as [p|]; [|discriminate]. cbn [bind] in Ee.
    injection Ee as <- _. eauto. }
  destruct Hids as (ids & Hids & ->).
  exists tk, emb, pe, tr, ids, x0, tr', h. repeat split; assumption.
Qed.

Lemma pool_text_inv (self : t (R := R)) (text_ids : IntTensor) (h y : Tensor R) :
  pool_text self text_ids h = Ok y ->
  exists hp n pos sel,
    permute h [1; 0; 2] = Ok hp
    /\ nnLayerNorm.forward (ln_final self) hp = Ok n
    /\ argmax text_ids = Ok pos
    /\ index_rows (type_ n (dtype self)) (nth 0 (shape (type_ n (dtype self))) 0) pos
       = Ok sel
    /\ matmul sel (text_projection self) = Ok y.
Proof.
  unfold pool_text.
  destruct (permute h [1; 0; 2]) as [hp|] eqn:Eh; [|discriminate]. cbn [bind].
  destruct (nnLayerNorm.forward (ln_final self) hp) as [n|] eqn:En; [|discriminate].
  cbn [bind].
  destruct (argmax text_ids) as [pos|] eqn:Ea; [|discriminate]. cbn [bind].
  destruct (index_rows _ _ pos) as [sel|] eqn:Es; [|discriminate]. cbn [bind].
  intros H. exists hp, n, pos, sel. repeat split; assumption.
Qed.

Lemma index_rows_positions (x sel : Tensor R) (n : nat) (pos : IntTensor) :
  index_rows x n pos = Ok sel -> exists m, ishape pos = [m].
Proof.
  unfold index_rows.
  destruct (shape x) as [|d0 [|d1 rest]]; try discriminate.
  destruct (ishape pos) as [|m [|? ?]]; try discriminate. eauto.
Qed.

Lemma embed_text_inv (self : t (R := R)) tk emb pe (text : list String.string)
  (text_ids : IntTensor) (x0 : Tensor R) :
  embed_text self tk emb pe text = Ok (text_ids, x0) ->
  exists ids e a,
    tokenize tk text true = Ok ids
    /\ text_ids = ito ids (param_device self)
    /\ Embedding.forward emb (ito ids (param_device self)) = Ok e
    /\ add (type_ e (dtype self)) (type_ pe (dtype self)) = Ok a
    /\ permute a [1; 0; 2] = Ok x0.
Proof.
  unfold embed_text.
  destruct (tokenize tk text true) as [ids|]; [|discriminate]. cbn [bind].
  destruct (Embedding.forward emb _) as [e|] eqn:Ee; [|discriminate]. cbn [bind].
  destruct (add _ _) as [a|] eqn:Ea; [|discriminate]. cbn [bind].
  destruct (permute a [1; 0; 2]) as [p|] eqn:Ep; [|discriminate]. cbn [bind].
  intros H. injection H as <- <-. exists ids, e, a. repeat split; assumption.
Qed.

(** The pooled rows, for as many hidden sequences as there are
    sequences of ids. *)
Lemma pooled_rows (self : t (R := R)) (ids pos : IntTensor) (n sel : Tensor R)
  (m l : nat) :
  ishape pos = [m] ->
  (forall b, b < m -> iget pos [b] = Z.of_nat (argmax_list (id_row ids b l))) ->
  index_rows (type_ n (dtype self)) (nth 0 (shape (type_ n (dtype self))) 0) pos
  = Ok sel ->
  nth 0 (shape n) 0 = m ->
  forall b k, b < m -> in_bounds (shape sel) [b; k] = true ->
    get sel [b; k] = get (type_ n (dtype self)) [b; argmax_list (id_row ids b l); k].
Proof.
  intros Hm Hpos Hsel Hbatch b k Hlt Hin.
  rewrite type_shape, Hbatch in Hsel.
  destruct (index_rows_same_batch _ _ _ m Hsel Hm)
    as (d0 & d1 & rest & _ & Hss & _ & _ & Hget).
  - intros b' Hb'. rewrite (Hpos b' Hb'). lia.
  - rewrite Hss in Hin. rewrite (Hget b [k] Hin).
    rewrite (Hpos b Hlt), Nat2Z.id. reflexivity.
Qed.

(** C4. Whenever variant A encodes a batch of texts: the token ids are
    embedded, the positional embedding is added, and the text transformer is
    run on the result; its output h, the hidden state of the last layer, is
    normalized by ln_final and converted to the model's dtype; the row pooled
    for each sequence is the row of that tensor at the position of the
    sequence's highest token id, the first position that holds the maximum of
    the ids; the pooled rows are then multiplied by text_projection.
    Encoding the same texts again with the model as the first pass left it
    runs the text transformer on the same embedded sequence and pools its
    output, normalized, at the same positions. *)
Theorem encode_text_pools_at_argmax (self self' : t (R := R))
  (text : list String.string) (y : Tensor R) :
  bert_type self = "openai" ->
  encode_text self text = (Ok y, self') ->
  exists tk emb pe tr ids e a x0 h tr' m l hp n pos sel,
    tokenizer self = Some (OfSimpleTokenizer tk)
    /\ token_embedding self = Some emb
    /\ positional_embedding self = Some pe
    /\ transformer self = Some (OfTransformer tr)
    /\ tokenize tk text true = Ok ids
    /\ ishape ids = [m; l] /\ 0 < l
    /\ Embedding.forward emb (ito ids (param_device self)) = Ok e
    /\ add (type_ e (dtype self)) (type_ pe (dtype self)) = Ok a
    /\ permute a [1; 0; 2] = Ok x0
    /\ bert_Transformer_forward tr x0 = (Ok h, tr')
    /\ permute h [1; 0; 2] = Ok hp
    /\ nnLayerNorm.forward (ln_final self) hp = Ok n
    /\ argmax (ito ids (param_device self)) = Ok pos
    /\ ishape pos = [m]
    /\ (forall b, b < m ->
          let p := argmax_list (id_row ids b l) in
          iget pos [b] = Z.of_nat p
          /\ p < l
          /\ (forall j, j < l -> (iget ids [b; j] <= iget ids [b; p])%Z)
          /\ (forall j, j < p -> (iget ids [b; j] < iget ids [b; p])%Z))
    /\ index_rows (type_ n (dtype self)) (nth 0 (shape (type_ n (dtype self))) 0) pos
       = Ok sel
    /\ (nth 0 (shape n) 0 = m ->
        forall b k, b < m -> in_bounds (shape sel) [b; k] = true ->
          get sel [b; k]
          = get (type_ n (dtype self)) [b; argmax_list (id_row ids b l); k])
    /\ matmul sel (text_projection self) = Ok y
    /\ self' = set_transformer self (OfTransformer tr')
    /\ (forall y2 self2, encode_text self' text = (Ok y2, self2) ->
          exists h2 tr2 hp2 n2 sel2,
            bert_Transformer_forward tr' x0 = (Ok h2, tr2)
            /\ permute h2 [1; 0; 2] = Ok hp2
            /\ nnLayerNorm.forward (ln_final self') hp2 = Ok n2
            /\ argmax (ito ids (param_device self')) = Ok pos
            /\ index_rows (type_ n2 (dtype self'))
                 (nth 0 (shape (type_ n2 (dtype self'))) 0) pos = Ok sel2
            /\ (nth 0 (shape n2) 0 = m ->
                forall b k, b < m -> in_bounds (shape sel2) [b; k] = true ->
                  get sel2 [b; k]
                  = get (type_ n2 (dtype self'))
                      [b; argmax_list (id_row ids b l); k])
            /\ matmul sel2 (text_projection self') = Ok y2).
Proof.
  intros Hb He.
  destruct (encode_text_openai_inv self self' text y Hb He)
    as (tk & emb & pe & tr & ids & x0 & tr' & h & Htk & Hemb & Hpe & Htr & Hids
        & Hembed & Hfw & Hpool & ->).
  destruct (embed_text_inv self tk emb pe text _ x0 Hembed)
    as (ids' & e & a & Hids' & _ & Hlook & Hadd & Hperm).
  assert (ids' = ids) by congruence. subst ids'.
  destruct (pool_text_inv self _ h y Hpool) as (hp & n & pos & sel & Hhp & Hn & Hpos
                                                & Hsel & Hy).
  destruct (index_rows_positions _ _ _ _ Hsel) as [m Hm].
  destruct (argmax_rows _ _ m Hpos Hm) as (l & Hs & Hl & _ & Hrows).
  rewrite ishape_ito in Hs.
  assert (Hrow : forall b, id_row (ito ids (param_device self)) b l = id_row ids b l).
  { intros b. unfold id_row. apply map_ext. intros k. apply iget_ito. }
  assert (Hnth : forall b j, j < l -> nth j (id_row ids b l) 0%Z = iget ids [b; j]).
  { intros b j Hj. unfold id_row.
    rewrite (nth_indep _ 0%Z (iget ids [b; 0])) by (rewrite length_map, length_seq; lia).
    rewrite (map_nth (fun k => iget ids [b; k])), seq_nth by lia. reflexivity. }
  assert (Hspec : forall b, b < m ->
            let p := argmax_list (id_row ids b l) in
            iget pos [b] = Z.of_nat p
            /\ p < l
            /\ (forall j, j < l -> (iget ids [b; j] <= iget ids [b; p])%Z)
            /\ (forall j, j < p -> (iget ids [b; j] < iget ids [b; p])%Z)).
  { intros b Hlt p.
    assert (Hne : id_row ids b l <> []).
    { unfold id_row. destruct l; [lia|]. simpl. discriminate. }
    destruct (argmax_list_spec _ Hne) as (H1 & H2 & H3).
    assert (Hlen : length (id_row ids b l) = l)
      by (unfold id_row; rewrite length_map, length_seq; reflexivity).
    rewrite Hlen in H1, H2. fold p in H1, H2, H3.
    split; [rewrite (Hrows b Hlt), Hrow; reflexivity|].
    split; [exact H1|]. split.
    - intros j Hj. rewrite <- !Hnth by lia. apply H2. exact Hj.
    - intros j Hj. rewrite <- !Hnth by lia. apply H3. exact Hj. }
  assert (Hposv : forall b, b < m ->
            iget pos [b] = Z.of_nat (argmax_list (id_row ids b l)))
    by (intros b Hlt; apply (Hspec b Hlt)).
  exists tk, emb, pe, tr, ids, e, a, x0, h, tr', m, l, hp, n, pos, sel.
  split; [exact Htk|]. split; [exact Hemb|]. split; [exact Hpe|].
  split; [exact Htr|]. split; [exact Hids|]. split; [exact Hs|].
  split; [exact Hl|]. split; [exact Hlook|]. split; [exact Hadd|].
  split; [exact Hperm|]. split; [exact Hfw|]. split; [exact Hhp|].
  split; [exact Hn|]. split; [exact Hpos|].
  split; [exact Hm|]. split; [exact Hspec|]. split; [exact Hsel|].
  split; [exact (pooled_rows self ids pos n sel m l Hm Hposv Hsel)|].
  split; [exact Hy|]. split; [reflexivity|].
  intros y2 self2 He2.
  set (self1 := set_transformer self (OfTransformer tr')) in *.
  assert (Hb2 : bert_type self1 = "openai") by exact Hb.
  destruct (encode_text_openai_inv _ self2 text y2 Hb2 He2)
    as (tk2 & emb2 & pe2 & trb & ids2 & x02 & tr2 & h2 & Htk2 & Hemb2 & Hpe2 & Htr2
        & Hids2 & Hembed2 & Hfw2 & Hpool2 & _).
  unfold self1 in Htk2, Hemb2, Hpe2, Htr2.
  cbn [tokenizer token_embedding positional_embedding transformer set_transformer]
    in Htk2, Hemb2, Hpe2, Htr2.
  assert (tk2 = tk) by congruence. subst tk2.
  assert (emb2 = emb) by congruence. subst emb2.
  assert (pe2 = pe) by congruence. subst pe2.
  assert (trb = tr') by congruence. subst trb.
  assert (ids2 = ids) by congruence. subst ids2.
  change (embed_text self1 tk emb pe text) with (embed_text self tk emb pe text)
    in Hembed2.
  change (param_device self1) with (param_device self) in Hembed2, Hpool2.
  assert (x02 = x0) by congruence. subst x02.
  destruct (pool_text_inv _ _ h2 y2 Hpool2) as (hp2 & n2 & pos2 & sel2 & Hhp2 & Hn2
                                                 & Hpos2 & Hsel2 & Hy2).
  assert (pos2 = pos) by congruence. subst pos2.
  exists h2, tr2, hp2, n2, sel2.
  split; [exact Hfw2|]. split; [exact Hhp2|]. split; [exact Hn2|].
  split; [exact Hpos|]. split; [exact Hsel2|].
  split; [exact (pooled_rows self1 ids pos n2 sel2 m l Hm Hposv Hsel2)|].
  exact Hy2.
Qed.

End TextFacts.

(** ** C1: the similarity logits *)

Section LogitFacts.
Context {R : Type} {RT : Runtime R}.

Lemma broadcast_shapes_nil (s : list nat) : broadcast_shapes [] s = Some s.
Proof. unfold broadcast_shapes. simpl. rewrite rev_involutive. reflexivity. Qed.

(** (..., d) against (..., 1): the shape of x against that of its norm. *)
Lemma broadcast_shapes_keepdim (pre : list nat) (d : nat) :
  broadcast_shapes (pre ++ [d]) (pre ++ [1]) = Some (pre ++ [d]).
Proof.
  unfold broadcast_shapes. rewrite !shape_last_rev. simpl.
  rewrite broadcast_rev_same.
  destruct (d =? 1) eqn:E; simpl; rewrite rev_involutive; reflexivity.
Qed.

Lemma bindex_same2 (n d i k : nat) : i < n -> k < d -> bindex [n; d] [i; k] = [i; k].
Proof.
  intros Hi Hk. unfold bindex. simpl.
  destruct (n =? 1) eqn:En; destruct (d =? 1) eqn:Ed;
    try (apply Nat.eqb_eq in En); try (apply Nat.eqb_eq in Ed);
    repeat f_equal; lia.
Qed.

Lemma bindex_keepdim (n d i k : nat) : i < n -> bindex [n; 1] [i; k] = [i; 0].
Proof.
  intros Hi. unfold bindex. simpl.
  destruct (n =? 1) eqn:En; try (apply Nat.eqb_eq in En); repeat f_equal; lia.
Qed.

(** The 2-norm of row i of a matrix, along its feature axis. *)
Definition row_norm (x : Tensor R) (d i : nat) : R :=
  fsqrt (dtype x)
    (fsum (dtype x)
       (map (fun k => fmul (dtype x) (get x [i; k]) (get x [i; k])) (seq 0 d))).

Lemma norm_inv (x ni : Tensor R) :
  norm x = Ok ni ->
  exists pre d,
    shape x = pre ++ [d] /\ shape ni = pre ++ [1]
    /\ dtype ni = dtype x /\ device ni = device x.
Proof.
  unfold norm. destruct (rev (shape x)) as [|d pre] eqn:E; [discriminate|].
  intros H. injection H as <-. exists (rev pre), d. simpl.
  rewrite <- (rev_involutive (shape x)), E. simpl. auto.
Qed.

Lemma norm_rows (x ni : Tensor R) (n d : nat) :
  norm x = Ok ni -> shape x = [n; d] ->
  forall i, i < n -> get ni [i; 0] = row_norm x d i.
Proof.
  unfold norm. intros H Hs. rewrite Hs in H. simpl in H. injection H as <-.
  intros i Hi. rewrite get_build by (apply in_bounds2; lia). reflexivity.
Qed.

(** x / x.norm(dim=-1, keepdim=True), whenever both steps return. *)
Lemma normalize_inv (x ni xn : Tensor R) :
  norm x = Ok ni -> div x ni = Ok xn ->
  shape xn = shape x /\ dtype xn = dtype x
  /\ forall n d, shape x = [n; d] ->
       forall i k, i < n -> k < d ->
         get xn [i; k]
         = fdiv (dtype x) (round (dtype x) (get x [i; k]))
                          (round (dtype x) (row_norm x d i)).
Proof.
  intros Hn Hd.
  destruct (norm_inv x ni Hn) as (pre & d & Hs & Hsn & Hdn & Hvn).
  pose proof (norm_rows x ni) as Hrows.
  unfold div, binop in Hd.
  destruct (result_device x ni) as [dv|]; [|discriminate]. cbn [bind] in Hd.
  rewrite Hs, Hsn, broadcast_shapes_keepdim in Hd.
  rewrite result_dtype_same in Hd by congruence.
  injection Hd as <-. simpl.
  split; [congruence|]. split; [reflexivity|].
  intros n d' Hs' i k Hi Hk. rewrite Hs' in Hs. rewrite <- Hs.
  rewrite get_build by (apply in_bounds2; assumption).
  assert (Hp : pre ++ [1] = [n; 1]).
  { destruct pre as [|a [|b pre]]; simpl in Hs; try discriminate.
    - injection Hs as -> _. reflexivity.
    - destruct pre; discriminate. }
  rewrite Hp, (bindex_same2 n d' i k Hi Hk), (bindex_keepdim n d' i k Hi).
  rewrite (Hrows n d' Hn Hs' i Hi). reflexivity.
Qed.

(** logit_scale * x for a zero-dimensional logit_scale. *)
Lemma scale_inv (s x y : Tensor R) :
  shape s = [] -> mul s x = Ok y ->
  shape y = shape x
  /\ forall n d, shape x = [n; d] ->
       dtype y = dtype x
       /\ forall i k, i < n -> k < d ->
            get y [i; k]
            = fmul (dtype x) (round (dtype x) (get s [])) (round (dtype x) (get x [i; k])).
Proof.
  intros Hs Hm. unfold mul, binop in Hm.
  destruct (result_device s x) as [dv|]; [|discriminate]. cbn [bind] in Hm.
  rewrite Hs, broadcast_shapes_nil in Hm. injection Hm as <-. simpl.
  split; [reflexivity|].
  intros n d Hx. unfold result_dtype. rewrite Hs, Hx.
  split; [reflexivity|].
  intros i k Hi Hk. rewrite get_build by (apply in_bounds2; assumption).
  rewrite (bindex_same2 n d i k Hi Hk). reflexivity.
Qed.

(** x.t(), whenever the result is a matrix. *)
Lemma t_inv (x y : Tensor R) (a b : nat) :
  t_ x = Ok y -> shape y = [a; b] ->
  shape x = [b; a] /\ dtype y = dtype x /\ device y = device x
  /\ forall i j, i < a -> j < b -> get y [i; j] = get x [j; i].
Proof.
  unfold t_. destruct (shape x) as [|n [|m [|? ?]]] eqn:Hs; try discriminate.
  - intros H. injection H as <-. rewrite Hs. discriminate.
  - intros H. injection H as <-. rewrite Hs. discriminate.
  - intros H. injection H as <-. simpl. intros H. injection H as <- <-.
    repeat split. intros i j Hi Hj.
    rewrite get_build by (apply in_bounds2; assumption). reflexivity.
Qed.

Lemma t_matrix (x : Tensor R) (n m : nat) :
  shape x = [n; m] ->
  exists y, t_ x = Ok y /\ shape y = [m; n]
    /\ dtype y = dtype x /\ device y = device x
    /\ forall i j, i < n -> j < m -> get y [j; i] = get x [i; j].
Proof.
  intros Hs. unfold t_. rewrite Hs. eexists. split; [reflexivity|].
  simpl. repeat split. intros i j Hi Hj.
  rewrite get_build by (apply in_bounds2; assumption). reflexivity.
Qed.

End LogitFacts.

Section ForwardFacts.
Context {R : Type} {RT : Runtime R} {AT : Attention R} {TC : TextCollaborators R}.
Local Open Scope string_scope.


(** The attributes of the container that no pass assigns. *)
Definition same_attributes (c c' : CLIP.t (R := R)) : Prop :=
  CLIP.context_length c' = CLIP.context_length c
  /\ CLIP.bert_type c' = CLIP.bert_type c
  /\ CLIP.tokenizer c' = CLIP.tokenizer c
  /\ CLIP.vocab_size c' = CLIP.vocab_size c
  /\ CLIP.token_embedding c' = CLIP.token_embedding c
  /\ CLIP.positional_embedding c' = CLIP.positional_embedding c
  /\ CLIP.text_projection c' = CLIP.text_projection c
  /\ CLIP.ln_final c' = CLIP.ln_final c
  /\ CLIP.logit_scale c' = CLIP.logit_scale c.

Lemma encode_image_state (self : CLIP.t (R := R)) (image : Tensor R) :
  snd (CLIP.encode_image self image)
  = CLIP.set_visual self
      (snd (VisionTransformer.forward (CLIP.visual self) (type_ image (CLIP.dtype self)))).
Proof.
  unfold CLIP.encode_image.
  destruct (VisionTransformer.forward (CLIP.visual self) (type_ image (CLIP.dtype self))).
  reflexivity.
Qed.

Lemma encode_image_result (self : CLIP.t (R := R)) (image : Tensor R) :
  fst (CLIP.encode_image self image)
  = fst (VisionTransformer.forward (CLIP.visual self) (type_ image (CLIP.dtype self))).
Proof.
  unfold CLIP.encode_image.
  destruct (VisionTransformer.forward (CLIP.visual self) (type_ image (CLIP.dtype self))).
  reflexivity.
Qed.

Lemma encode_text_assigns (self : CLIP.t (R := R)) (text : list String.string) :
  snd (CLIP.encode_text self text) = self
  \/ exists tr, snd (CLIP.encode_text self text) = CLIP.set_transformer self tr.
Proof.
  unfold CLIP.encode_text.
  destruct (String.eqb (CLIP.bert_type self) "openai").
  - destruct (CLIP.tokenizer self) as [[tk|?]|]; try (left; reflexivity).
    destruct (CLIP.token_embedding self) as [emb|]; try (left; reflexivity).
    destruct (CLIP.positional_embedding self) as [pe|]; try (left; reflexivity).
    destruct (CLIP.transformer self) as [[tr|?]|]; try (left; reflexivity).
    destruct (CLIP.embed_text self tk emb pe text) as [[ids x]|]; [|left; reflexivity].
    destruct (bert_Transformer_forward tr x). right. eexists. reflexivity.
  - destruct (String.eqb (CLIP.bert_type self) "huggingface"); [|left; reflexivity].
    destruct (CLIP.tokenizer self) as [[?|tk]|]; try (left; reflexivity).
    destruct (CLIP.transformer self) as [[?|m]|]; try (left; reflexivity).
    destruct (BertTokenizer_call tk text) as [x|]; [|left; reflexivity].
    destruct (BertModel_pooler_output m _ _ _). right. eexists. reflexivity.
Qed.

Lemma encode_text_state (self : CLIP.t (R := R)) (text : list String.string) :
  same_attributes self (snd (CLIP.encode_text self text))
  /\ CLIP.visual (snd (CLIP.encode_text self text)) = CLIP.visual self.
Proof.
  destruct (encode_text_assigns self text) as [H | [tr H]]; rewrite H;
    unfold same_attributes; simpl; tauto.
Qed.


Lemma logits_inv (self : CLIP.t (R := R)) (image_features text_features lpi lpt : Tensor R) :
  CLIP.logits self image_features text_features = Ok (lpi, lpt) ->
  exists ni xi nt xt scaled tt,
    norm image_features = Ok ni /\ div image_features ni = Ok xi
    /\ norm text_features = Ok nt /\ div text_features nt = Ok xt
    /\ mul (exp_ (CLIP.logit_scale self)) xi = Ok scaled
    /\ t_ xt = Ok tt
    /\ matmul scaled tt = Ok lpi
    /\ t_ lpi = Ok lpt.
Proof.
  unfold CLIP.logits.
  destruct (norm image_features) as [ni|] eqn:E1; [|discriminate]. cbn [bind].
  destruct (div image_features ni) as [xi|] eqn:E2; [|discriminate]. cbn [bind].
  destruct (norm text_features) as [nt|] eqn:E3; [|discriminate]. cbn [bind].
  destruct (div text_features nt) as [xt|] eqn:E4; [|discriminate]. cbn [bind].
  destruct (mul (exp_ (CLIP.logit_scale self)) xi) as [scaled|] eqn:E5; [|discriminate].
  cbn [bind].
  destruct (t_ xt) as [tt|] eqn:E6; [|discriminate]. cbn [bind].
  destruct (matmul scaled tt) as [lpi'|] eqn:E7; [|discriminate]. cbn [bind].
  destruct (t_ lpi') as [lpt'|] eqn:E8; [|discriminate]. cbn [bind].
  intros H. injection H as <- <-.
  exists ni, xi, nt, xt, scaled, tt. repeat split; assumption.
Qed.

(** The exponential of a zero-dimensional tensor holding one scalar. *)
Lemma exp_scalar (ls : Tensor R) :
  shape ls = [] -> length (data ls) = 1 ->
  shape (exp_ ls) = [] /\ dtype (exp_ ls) = dtype ls /\ device (exp_ ls) = device ls
  /\ get (exp_ ls) [] = fexp (dtype ls) (get ls []).
Proof.
  intros Hs Hl. unfold exp_, unop, get. simpl. rewrite Hs. simpl.
  destruct (data ls) as [|v [|? ?]]; try discriminate. auto.
Qed.

(** C1. Whenever [CLIP.forward] returns for an image batch and a text batch
    (the model holding a zero-dimensional CLIP.logit_scale of one scalar, as
    __init__ builds it): the two embeddings are matrices (n, D) and (m, D);
    each is divided, row by row, by the 2-norm of that row along the feature
    axis, independently of the other; the scale is the exponential of the
    scalar in logit_scale, computed in the dtype of logit_scale;
    logits_per_image is (scale * normalized image embeddings)
    @ (normalized text embeddings)^T and has shape (n, m); and
    logits_per_text is the transpose of logits_per_image itself: shape
    (m, n), and entry (j, i) is entry (i, j) of logits_per_image. *)
Theorem forward_logits (self self' : CLIP.t (R := R)) (image : Tensor R)
  (text : list String.string) (logits_per_image logits_per_text : Tensor R) :
  shape (CLIP.logit_scale self) = [] ->
  length (data (CLIP.logit_scale self)) = 1 ->
  CLIP.forward self image text = (Ok (logits_per_image, logits_per_text), self') ->
  exists image_features text_features ni xi nt xt scaled tt n m d,
    fst (CLIP.encode_image self image) = Ok image_features
    /\ fst (CLIP.encode_text (snd (CLIP.encode_image self image)) text) = Ok text_features
    /\ shape image_features = [n; d] /\ shape text_features = [m; d]
    /\ norm image_features = Ok ni /\ div image_features ni = Ok xi
    /\ (forall i k, i < n -> k < d ->
          get xi [i; k]
          = fdiv (dtype image_features)
              (round (dtype image_features) (get image_features [i; k]))
              (round (dtype image_features) (row_norm image_features d i)))
    /\ norm text_features = Ok nt /\ div text_features nt = Ok xt
    /\ (forall j k, j < m -> k < d ->
          get xt [j; k]
          = fdiv (dtype text_features)
              (round (dtype text_features) (get text_features [j; k]))
              (round (dtype text_features) (row_norm text_features d j)))
    /\ get (exp_ (CLIP.logit_scale self)) []
       = fexp (dtype (CLIP.logit_scale self)) (get (CLIP.logit_scale self) [])
    /\ mul (exp_ (CLIP.logit_scale self)) xi = Ok scaled
    /\ (forall i k, i < n -> k < d ->
          get scaled [i; k]
          = fmul (dtype xi)
              (round (dtype xi)
                 (fexp (dtype (CLIP.logit_scale self)) (get (CLIP.logit_scale self) [])))
              (round (dtype xi) (get xi [i; k])))
    /\ t_ xt = Ok tt
    /\ matmul scaled tt = Ok logits_per_image
    /\ shape logits_per_image = [n; m]
    /\ (forall i j, i < n -> j < m ->
          get logits_per_image [i; j]
          = fsum (dtype scaled)
              (map (fun l => fmul (dtype scaled) (get scaled [i; l]) (get xt [j; l]))
                   (seq 0 d)))
    /\ t_ logits_per_image = Ok logits_per_text
    /\ shape logits_per_text = [m; n]
    /\ dtype logits_per_text = dtype logits_per_image
    /\ device logits_per_text = device logits_per_image
    /\ (forall i j, i < n -> j < m ->
          get logits_per_text [j; i] = get logits_per_image [i; j]).
Proof.
  intros Hls Hone Hfw. unfold CLIP.forward in Hfw.
  destruct (exp_scalar (CLIP.logit_scale self) Hls Hone) as (Hes & _ & _ & Hexp).
  destruct (CLIP.encode_image self image) as [ri self1] eqn:Ei.
  destruct ri as [image_features|]; [|discriminate].
  destruct (CLIP.encode_text self1 text) as [rt self2] eqn:Et.
  destruct rt as [text_features|]; [|discriminate]. cbn [bind] in Hfw.
  destruct (CLIP.logits self2 image_features text_features) as [[lpi lpt]|] eqn:El;
    [|discriminate].
  injection Hfw as <- <- <-.
  assert (Hscale : CLIP.logit_scale self2 = CLIP.logit_scale self).
  { pose proof (encode_text_state self1 text) as [Ha _]. rewrite Et in Ha.
    pose proof (encode_image_state self image) as Hs. rewrite Ei in Hs.
    simpl in Ha, Hs. destruct Ha as (_ & _ & _ & _ & _ & _ & _ & _ & Ha).
    rewrite Ha, Hs. reflexivity. }
  destruct (logits_inv _ _ _ _ _ El)
    as (ni & xi & nt & xt & scaled & tt & Hni & Hxi & Hnt & Hxt & Hsc & Htt & Hmm & Ht).
  rewrite Hscale in Hsc.
  destruct (matmul_out _ _ _ Hmm)
    as (n & d & m & Hss & Hts & Hls' & _ & _ & _ & Hdot).
  destruct (scale_inv (exp_ (CLIP.logit_scale self)) xi scaled Hes Hsc) as (Hscs & Hscv).
  rewrite Hss in Hscs.
  destruct (normalize_inv _ _ _ Hni Hxi) as (Hxis & Hxid & Hxiv).
  destruct (normalize_inv _ _ _ Hnt Hxt) as (Hxts & Hxtd & Hxtv).
  destruct (t_inv _ _ _ _ Htt Hts) as (Hxtsh & _ & _ & Httg).
  destruct (t_matrix _ _ _ Hls') as (lpt' & Ht' & Hlpts & Hlptd & Hlptv & Hlptg).
  assert (lpt' = lpt) by congruence. subst lpt'.
  assert (Hsi : shape image_features = [n; d]) by congruence.
  assert (Hst : shape text_features = [m; d]) by congruence.
  destruct (Hscv n d (eq_sym Hscs)) as (_ & Hscg).
  exists image_features, text_features, ni, xi, nt, xt, scaled, tt, n, m, d.
  simpl.
  split; [reflexivity|]. split; [rewrite Et; reflexivity|]. split; [exact Hsi|].
  split; [exact Hst|]. split; [exact Hni|]. split; [exact Hxi|].
  split; [exact (Hxiv n d Hsi)|]. split; [exact Hnt|]. split; [exact Hxt|].
  split; [exact (Hxtv m d Hst)|]. split; [exact Hexp|]. split; [exact Hsc|].
  split; [intros i k Hi Hk; rewrite <- Hexp; apply Hscg; assumption|].
  split; [exact Htt|]. split; [exact Hmm|]. split; [exact Hls'|].
  split.
  { intros i j Hi Hj. rewrite (Hdot i j Hi Hj). unfold dot.
    apply f_equal. apply map_ext_in. intros l Hl. apply in_seq in Hl.
    rewrite (Httg l j) by lia. reflexivity. }
  split; [exact Ht|]. split; [exact Hlpts|]. split; [exact Hlptd|].
  split; [exact Hlptv|]. exact Hlptg.
Qed.

End ForwardFacts.

(** ** C10: the working dtype and device are those of conv1's weight *)

Section DtypeFacts.
Context {R : Type} {RT : Runtime R} {AT : Attention R} {TC : TextCollaborators R}.
Local Open Scope string_scope.

Lemma encode_image_dtype (self : CLIP.t (R := R)) (image y : Tensor R) :
  fst (CLIP.encode_image self image) = Ok y -> dtype y = CLIP.dtype self.
Proof.
  rewrite encode_image_result.
  destruct (VisionTransformer.forward (CLIP.visual self)
              (type_ image (CLIP.dtype self))) as [r v] eqn:E.
  simpl. intros ->. apply VisionTransformer_forward_dtype in E.
  destruct E as (E & _). rewrite E. apply type_dtype.
Qed.

Lemma encode_text_dtype (self : CLIP.t (R := R)) (text : list String.string)
  (y : Tensor R) :
  fst (CLIP.encode_text self text) = Ok y -> dtype y = CLIP.dtype self.
Proof.
  destruct (CLIP.encode_text self text) as [r self'] eqn:E. simpl. intros ->.
  destruct (String.eqb (CLIP.bert_type self) "openai") eqn:Eo.
  - apply String.eqb_eq in Eo.
    destruct (encode_text_openai_inv self self' text y Eo E)
      as (tk & emb & pe & tr & ids & x0 & tr' & h & _ & _ & _ & _ & _ & _ & _
          & Hpool & _).
    destruct (pool_text_inv self _ h y Hpool)
      as (hp & n & pos & sel & _ & _ & _ & Hsel & Hy).
    apply index_rows_dtype in Hsel. apply matmul_out in Hy.
    destruct Hy as (? & ? & ? & _ & _ & _ & _ & Hy & _).
    rewrite Hy, Hsel. apply type_dtype.
  - unfold CLIP.encode_text in E. rewrite Eo in E.
    destruct (String.eqb (CLIP.bert_type self) "huggingface"); [|discriminate].
    destruct (CLIP.tokenizer self) as [[?|tk]|]; try discriminate.
    destruct (CLIP.transformer self) as [[?|m]|]; try discriminate.
    destruct (BertTokenizer_call tk text) as [x|]; [|discriminate].
    destruct (BertModel_pooler_output m _ _ _) as [r m'].
    destruct r as [p|]; [|discriminate]. cbn [bind] in E.
    destruct (nnLayerNorm.forward (CLIP.ln_final self) p) as [n|]; [|discriminate].
    cbn [bind] in E.
    destruct (matmul _ _) as [y'|] eqn:Hy; [|discriminate].
    injection E as <- _. apply matmul_out in Hy.
    destruct Hy as (? & ? & ? & _ & _ & _ & _ & Hy & _).
    rewrite Hy. apply type_dtype.
Qed.

(** C10. The model's dtype is the dtype of visual.conv1.weight.
    [encode_image] hands the vision encoder the image converted to that
    dtype; variant A of [encode_text] moves the token ids to the device of
    visual.conv1.weight before the embedding lookup, and converts the
    embeddings and the positional embedding to that dtype.  Whatever either
    encoder returns has that dtype.  Text encoding depends on where the
    vision parameters are: with the embedding table on another device than
    visual.conv1.weight, variant A raises a device error. *)
Theorem dtype_follows_conv1 (self : CLIP.t (R := R)) (image : Tensor R)
  (text : list String.string) :
  let w := Conv2d.weight (VisionTransformer.conv1 (CLIP.visual self)) in
  CLIP.dtype self = dtype w
  /\ fst (CLIP.encode_image self image)
     = fst (VisionTransformer.forward (CLIP.visual self) (type_ image (dtype w)))
  /\ dtype (type_ image (dtype w)) = dtype w
  /\ (forall y, fst (CLIP.encode_image self image) = Ok y -> dtype y = dtype w)
  /\ (forall y, fst (CLIP.encode_text self text) = Ok y -> dtype y = dtype w)
  /\ (forall tk emb pe ids,
        tokenize tk text true = Ok ids ->
        idevice (ito ids (device w)) = device w
        /\ CLIP.embed_text self tk emb pe text
           = (e <- Embedding.forward emb (ito ids (device w)) ;;
              x <- add (type_ e (dtype w)) (type_ pe (dtype w)) ;;
              x <- permute x [1; 0; 2] ;;
              Ok (ito ids (device w), x)))
  /\ (forall tk emb pe tr ids v d,
        CLIP.bert_type self = "openai" ->
        CLIP.tokenizer self = Some (CLIP.OfSimpleTokenizer tk) ->
        CLIP.token_embedding self = Some emb ->
        CLIP.positional_embedding self = Some pe ->
        CLIP.transformer self = Some (CLIP.OfTransformer tr) ->
        tokenize tk text true = Ok ids ->
        shape (Embedding.weight emb) = [v; d] ->
        device (Embedding.weight emb) <> device w ->
        CLIP.encode_text self text = (Raise DeviceError, self)).
Proof.
  intros w. split; [reflexivity|].
  split; [apply encode_image_result|].
  split; [apply type_dtype|].
  split; [apply encode_image_dtype|].
  split; [intros y; apply encode_text_dtype|].
  split.
  - intros tk emb pe ids Hids. split; [apply idevice_ito|].
    unfold CLIP.embed_text. rewrite Hids. reflexivity.
  - intros tk emb pe tr ids v d Hb Htk Hemb Hpe Htr Hids Hs Hdev.
    unfold CLIP.encode_text. rewrite Hb, Htk, Hemb, Hpe, Htr. simpl String.eqb.
    cbv iota. unfold CLIP.embed_text. rewrite Hids. cbn [bind].
    unfold Embedding.forward. rewrite Hs, idevice_ito.
    unfold CLIP.param_device. fold w.
    destruct (device_eqb (device w) (device (Embedding.weight emb))) eqn:E.
    + apply device_eqb_eq in E. congruence.
    + reflexivity.
Qed.

End DtypeFacts.

(** ** C8: what a forward pass assigns *)

Section AssignFacts.
Context {R : Type} {RT : Runtime R} {AT : Attention R} {TC : TextCollaborators R}.

Local Open Scope string_scope.






End AssignFacts.

(** ** C3: a backbone selector that is neither variant *)

Section SelectorFacts.
Context {R : Type} {RT : Runtime R} {AT : Attention R} {TC : TextCollaborators R}.
Local Open Scope string_scope.

(** C3, on the code.  With a bert_type that is neither "openai" nor
    "huggingface" (and vision arguments that __init__ accepts), __init__
    returns: the container it builds has no tokenizer and no transformer,
    and encoding any text with it raises UnboundLocalError. *)
Theorem init_accepts_unknown_bert_type (a : CLIP.args) :
  String.eqb (CLIP.a_bert_type a) "openai" = false ->
  String.eqb (CLIP.a_bert_type a) "huggingface" = false ->
  0 < CLIP.a_vision_width a / 64 ->
  CLIP.a_vision_width a mod (CLIP.a_vision_width a / 64) = 0 ->
  0 < CLIP.a_vision_patch_size a ->
  0 < CLIP.a_transformer_width a ->
  exists c : CLIP.t (R := R),
    CLIP.init a = Ok c
    /\ CLIP.bert_type c = CLIP.a_bert_type a
    /\ CLIP.tokenizer c = None
    /\ CLIP.transformer c = None
    /\ forall text, CLIP.encode_text c text = (Raise UnboundLocalError, c).
Proof.
  intros Ho Hh Hheads Hdiv Hp Hw.
  assert (Hvw : 0 < CLIP.a_vision_width a).
  { destruct (CLIP.a_vision_width a); [simpl in Hheads; lia | lia]. }
  destruct (VisionTransformer_init_ok 100 (CLIP.a_input_resolution a)
              (CLIP.a_vision_patch_size a) (CLIP.a_vision_width a)
              (CLIP.a_vision_layers a) (CLIP.a_vision_width a / 64)
              (CLIP.a_embed_dim a) Hvw Hp Hheads Hdiv) as (vis & Hvis & _).
  unfold CLIP.init. rewrite Hvis. cbn [bind].
  unfold CLIP.init_text. rewrite Ho, Hh. cbn [bind].
  rewrite (ltb_true _ _ Hw). cbn [guard bind].
  eexists. split; [reflexivity|]. cbn.
  split; [reflexivity|]. split; [reflexivity|]. split; [reflexivity|].
  intros text. unfold CLIP.encode_text. cbn. rewrite Ho, Hh. reflexivity.
Qed.

End SelectorFacts.

(** ** The theorems at concrete inputs *)

Import Eval.
Local Open Scope string_scope.

(** A model small enough to run: its vision tower is built by
    VisionTransformer.__init__ with width 2 and one head (CLIP.__init__
    takes width // 64 heads, so it needs a width of at least 64), its text
    side by the "openai" branch of CLIP.__init__. *)
Definition small_model : result (CLIP.t (R := num)) :=
  vis <- VisionTransformer.init 100 2 2 2 1 1 2 ;;
  ' (tk, tr, vs, emb, pos, w) <- CLIP.init_text small_args ;;
  Ok (CLIP.mk 4 vis "openai" tk tr vs emb pos
        (build Float32 CPU [2; 2] (fun idx => Num (Z.of_nat (ravel [2; 2] idx) + 1)))
        (nnLayerNorm.init 2) (scalar_mul (Num 1) (ones []))).

Definition small_clip : CLIP.t (R := num) :=
  ltac:(let r := eval vm_compute in small_model in
        match r with Ok ?c => exact c end).

Definition small_image : Tensor num :=
  build Float32 CPU [1; 3; 2; 2] (fun idx => Num (Z.of_nat (ravel [1; 3; 2; 2] idx))).

Definition small_texts : list String.string := ["a"; "hi"].

(** A block whose parameters were moved to a GPU after construction, as
    nn.Module.to does: attn_mask is a plain attribute, not a parameter, and
    stays where __init__ put it. *)
Definition ln_to (dv : Device) (p : nnLayerNorm.t (R := num)) : nnLayerNorm.t :=
  nnLayerNorm.mk (nnLayerNorm.normalized_shape p)
    (to_device (nnLayerNorm.weight p) dv) (to_device (nnLayerNorm.bias p) dv)
    (nnLayerNorm.eps p).

Definition linear_to (dv : Device) (l : Linear.t (R := num)) : Linear.t :=
  Linear.mk (to_device (Linear.weight l) dv) (to_device (Linear.bias l) dv).

Definition block_to (dv : Device) (b : ResidualAttentionBlock.t (R := num))
  : ResidualAttentionBlock.t :=
  let a := ResidualAttentionBlock.attn b in
  ResidualAttentionBlock.mk
    (mkMha (embed_dim a) (num_heads a) (mha_dt a) dv)
    (ln_to dv (ResidualAttentionBlock.ln_1 b))
    (linear_to dv (ResidualAttentionBlock.c_fc b))
    (linear_to dv (ResidualAttentionBlock.c_proj b))
    (ln_to dv (ResidualAttentionBlock.ln_2 b))
    (ResidualAttentionBlock.attn_mask b).

Definition masked_block : result (ResidualAttentionBlock.t (R := num)) :=
  mask <- CLIP.build_attention_mask 3 ;;
  b <- ResidualAttentionBlock.init 1 2 1 (Some mask) ;;
  Ok (block_to (CUDA 0) b).

Definition gpu_block : ResidualAttentionBlock.t (R := num) :=
  ltac:(let r := eval vm_compute in masked_block in
        match r with Ok ?b => exact b end).

Definition gpu_input : Tensor num :=
  build Float32 (CUDA 0) [3; 1; 2] (fun idx => Num (Z.of_nat (ravel [3; 1; 2] idx))).

Example small_clip_built : small_model = Ok small_clip.
Proof. reflexivity. Qed.

Example gpu_block_built : masked_block = Ok gpu_block.
Proof. vm_compute. reflexivity. Qed.

(** The two texts are tokenized to 256 97 257 0 and 256 104 105 257:
    the highest id sits at position 2 of the first and 3 of the second. *)
Example small_texts_positions :
  exists ids,
    tokenize tt small_texts true = Ok ids
    /\ idata ids = [256; 97; 257; 0; 256; 104; 105; 257]%Z
    /\ argmax ids = Ok (mkIntTensor CPU [2] [2; 3]%Z).
Proof. eexists. split; [reflexivity|]. split; reflexivity. Qed.

(** The all-ones image of the repository's own smoke test, through an
    encoder of the default configuration; and the small image through the
    small encoder, where every step can be evaluated: one patch per image,
    the convolution gives (1, 12), the sequence handed to the stack is
    ((1, -1), (-1, 1)) and the output is (1, -4). *)
Lemma VisionTransformer_forward_shape_witness :
  (exists (v : VisionTransformer.t (R := num)) (c e y : Tensor num),
     VisionTransformer.init 100 224 32 768 12 12 512 = Ok v
     /\ Conv2d.forward (VisionTransformer.conv1 v) (ones [1; 3; 224; 224]) = Ok c
     /\ shape c = [1; 768; 7; 7]
     /\ VisionTransformer.embed v (ones [1; 3; 224; 224]) = Ok e
     /\ shape e = [50; 1; 768]
     /\ VisionTransformer.forward v (ones [1; 3; 224; 224]) = (Ok y, v)
     /\ shape y = [1; 512])
  /\ (exists c e y : Tensor num,
        Conv2d.forward (VisionTransformer.conv1 (CLIP.visual small_clip)) small_image
        = Ok c
        /\ data c = [Num 1; Num 12]
        /\ VisionTransformer.embed (CLIP.visual small_clip) small_image = Ok e
        /\ data e = [Num 1; Num (-1); Num (-1); Num 1]
        /\ VisionTransformer.forward (CLIP.visual small_clip) small_image
           = (Ok y, CLIP.visual small_clip)
        /\ shape y = [1; 2]
        /\ data y = [Num 1; Num (-4)]).
Proof.
  split.
  - destruct (VisionTransformer_init_ok (R := num) 100 224 32 768 12 12 512)
      as (v & Hv & Hres & Hout & _ & Hwf); [lia | lia | lia | reflexivity |].
    assert (Hs : shape (ones (R := num) [1; 3; 224; 224])
                 = [1; 3; VisionTransformer.input_resolution v;
                    VisionTransformer.input_resolution v])
      by (rewrite Hres; reflexivity).
    assert (Hle : 32 <= VisionTransformer.input_resolution v) by (rewrite Hres; lia).
    destruct (VisionTransformer_forward_shape v (ones [1; 3; 224; 224]) 1 32 768 512
                Hwf ltac:(lia) Hle ltac:(lia) ltac:(lia) Hs)
      as (c & r & p & cls & s & q & n0 & e & z & zp & x0 & n & pr & y & H).
    exists v, c, e, y. split; [exact Hv|].
    destruct H as (Hc & _ & Hcs & _ & _ & _ & _ & _ & _ & _ & _ & _ & _ & _ & _ & He
                   & Hes & _ & _ & _ & _ & _ & _ & _ & _ & _ & _ & _ & Hf & Hy).
    rewrite Hres in Hcs, Hes.
    split; [exact Hc|]. split; [exact Hcs|].
    split; [exact He|]. split; [exact Hes|].
    split; [exact Hf|]. rewrite Hout in Hy. exact Hy.
  - destruct (VisionTransformer_init_ok (R := num) 100 2 2 2 1 1 2)
      as (v & Hv & _ & _ & _ & Hwf); [lia | lia | lia | reflexivity |].
    assert (Hb : VisionTransformer.init 100 2 2 2 1 1 2 = Ok (CLIP.visual small_clip))
      by reflexivity.
    rewrite Hb in Hv. injection Hv as <-.
    destruct (VisionTransformer_forward_shape (CLIP.visual small_clip) small_image
                1 2 2 2 Hwf ltac:(lia) (le_n 2) ltac:(lia) ltac:(lia) eq_refl)
      as (c & r & p & cls & s & q & n0 & e & z & zp & x0 & n & pr & y & H).
    destruct H as (Hc & _ & _ & _ & _ & _ & _ & _ & _ & _ & _ & _ & _ & _ & _ & He
                   & _ & _ & _ & _ & _ & _ & _ & _ & _ & _ & _ & _ & Hf & Hy).
    exists c, e, y.
    assert (Hy' : fst (VisionTransformer.forward (CLIP.visual small_clip) small_image)
                  = Ok y) by (rewrite Hf; reflexivity).
    split; [exact Hc|].
    split; [vm_compute in Hc; injection Hc as <-; reflexivity|].
    split; [exact He|].
    split; [vm_compute in He; injection He as <-; reflexivity|].
    split; [exact Hf|]. split; [exact Hy|].
    vm_compute in Hy'. injection Hy' as <-. reflexivity.
Defined.

(** A text-tower block of width 512 with the causal mask of 77
    positions, on a batch of two sequences. *)
Lemma block_forward_residual_witness :
  exists mask (b : ResidualAttentionBlock.t (R := num)) y b',
    CLIP.build_attention_mask 77 = Ok mask
    /\ ResidualAttentionBlock.init 1 512 8 (Some mask) = Ok b
    /\ ResidualAttentionBlock.forward b (ones [77; 2; 512]) = (Ok y, b')
    /\ shape y = [77; 2; 512].
Proof.
  destruct (build_attention_mask_ok (R := num) 77) as (mask & Hmask & Hshape & _).
  destruct (block_init_ok (R := num) 1 512 8 (Some mask))
    as (b & Hb & Hwf & Hm); [lia | lia | reflexivity |].
  assert (Hfit : mask_fits (ResidualAttentionBlock.attn_mask b) 77)
    by (intros mk Hmk; congruence).
  destruct (block_forward_residual b (ones [77; 2; 512]) 77 2 512 Hwf Hfit eq_refl)
    as (h1 & a & x1 & h2 & u & g & f & y & b' & H).
  exists mask, b, y, b'. split; [exact Hmask|]. split; [exact Hb|].
  destruct H as (_ & _ & _ & _ & _ & _ & _ & _ & _ & _ & Hf & Hy & _).
  split; [exact Hf|exact Hy].
Defined.

(** A half-precision input through a float32 normalization layer. *)
Lemma LayerNorm_forward_cast_witness :
  exists y,
    LayerNorm.forward (LayerNorm.init (R := num) 768) (zeros [2; 50; 768] Float16 CPU)
    = Ok y
    /\ dtype y = Float16 /\ shape y = [2; 50; 768].
Proof.
  destruct (LayerNorm_forward_cast (LayerNorm.init (R := num) 768)
              (zeros [2; 50; 768] Float16 CPU) [2; 50] 768 eq_refl
              (ln_init_wf 768))
    as (ret & y & _ & _ & _ & Hy & _ & Hd & Hs & _).
  exists y. split; [exact Hy|]. split; [exact Hd|exact Hs].
Defined.

(** The small model on one image and two texts.  The image embedding
    is (1, -4) and both text embeddings are (-2, -2); in the integer
    arithmetic of [Eval] the normalized rows are (0, -1) and (-1, -1), the
    scale is 2 ^ 1 = 2, and both logits are 2. *)
Lemma forward_logits_witness :
  exists lpi lpt c' n m,
    CLIP.forward small_clip small_image small_texts = (Ok (lpi, lpt), c')
    /\ shape lpi = [n; m] /\ shape lpt = [m; n]
    /\ t_ lpi = Ok lpt
    /\ get (exp_ (CLIP.logit_scale small_clip)) [] = Num 2
    /\ data lpi = [Num 2; Num 2].
Proof.
  pose (r := CLIP.forward small_clip small_image small_texts).
  assert (Hf : exists lpi lpt, fst r = Ok (lpi, lpt) /\ data lpi = [Num 2; Num 2])
    by (vm_compute; eexists; eexists; split; reflexivity).
  destruct Hf as (lpi & lpt & Hf & Hdata).
  assert (E : CLIP.forward small_clip small_image small_texts
              = (Ok (lpi, lpt), snd r))
    by (rewrite <- Hf; apply surjective_pairing).
  destruct (forward_logits small_clip (snd r) small_image small_texts lpi lpt
              eq_refl eq_refl E)
    as (xf & tf & ni & xi & nt & xt & scaled & tt' & n & m & d & H).
  exists lpi, lpt, (snd r), n, m. split; [exact E|].
  destruct H as (_ & _ & _ & _ & _ & _ & _ & _ & _ & _ & Hexp & _ & _ & _ & _ & Hs & _
                 & Ht & Hts & _).
  split; [exact Hs|]. split; [exact Hts|]. split; [exact Ht|].
  split; [rewrite Hexp; reflexivity | exact Hdata].
Defined.

(** The small model on the two texts: the pooled positions are 2 and
    3; the normalized hidden state has the row (1, -1) at both, and (-1, 1)
    at position 1 of the second sequence; both pooled rows are (1, -1), and
    multiplied by text_projection they give (-2, -2). *)
Lemma encode_text_pools_at_argmax_witness :
  exists y c' h n pos sel,
    CLIP.encode_text small_clip small_texts = (Ok y, c')
    /\ data h = [Num 3; Num (-15); Num 3; Num (-15); Num 5; Num (-15); Num (-6);
                 Num 10; Num 6; Num (-16); Num 6; Num (-17); Num 5; Num (-19);
                 Num 5; Num (-14)]
    /\ shape n = [2; 4; 2]
    /\ data n = [Num 1; Num (-1); Num 1; Num (-1); Num 1; Num (-1); Num 1; Num (-1);
                 Num 1; Num (-1); Num (-1); Num 1; Num 1; Num (-1); Num 1; Num (-1)]
    /\ argmax (ito (mkIntTensor CPU [2; 4] [256; 97; 257; 0; 256; 104; 105; 257]%Z)
                 (CLIP.param_device small_clip)) = Ok pos
    /\ idata pos = [2; 3]%Z
    /\ get sel [0; 0] = get (type_ n (CLIP.dtype small_clip)) [0; 2; 0]
    /\ get sel [0; 1] = get (type_ n (CLIP.dtype small_clip)) [0; 2; 1]
    /\ get sel [1; 0] = get (type_ n (CLIP.dtype small_clip)) [1; 3; 0]
    /\ get sel [1; 1] = get (type_ n (CLIP.dtype small_clip)) [1; 3; 1]
    /\ matmul sel (CLIP.text_projection small_clip) = Ok y
    /\ data y = [Num (-2); Num (-2); Num (-2); Num (-2)]
    /\ forall y2 c2, CLIP.encode_text c' small_texts = (Ok y2, c2) ->
         exists n2 sel2,
           index_rows (type_ n2 (CLIP.dtype c'))
             (nth 0 (shape (type_ n2 (CLIP.dtype c'))) 0) pos = Ok sel2
           /\ matmul sel2 (CLIP.text_projection c') = Ok y2.
Proof.
  pose (r := CLIP.encode_text small_clip small_texts).
  assert (Hf : exists y, fst r = Ok y) by (vm_compute; eauto).
  destruct Hf as (y & Hf).
  assert (E : CLIP.encode_text small_clip small_texts = (Ok y, snd r))
    by (rewrite <- Hf; apply surjective_pairing).
  destruct (encode_text_pools_at_argmax small_clip (snd r) small_texts y eq_refl E)
    as (tk & emb & pe & tr & ids & e & a & x0 & h & tr' & m & l & hp & n & pos & sel
        & _ & Hemb & Hpe & Htr & Hids & Hsh & _ & Hlook & Hadd & Hperm & Hfw & Hhp & Hn
        & Hpos & _ & _ & Hsel & Hrows & Hy & _ & Hagain).
  assert (Hh : fst (bert_Transformer_forward tr x0) = Ok h)
    by (rewrite Hfw; reflexivity).
  injection Hids as <-. injection Hsh as <- <-.
  injection Hemb as <-. injection Hpe as <-. injection Htr as <-.
  vm_compute in Hlook. injection Hlook as <-.
  vm_compute in Hadd. injection Hadd as <-.
  vm_compute in Hperm. injection Hperm as <-.
  vm_compute in Hh. injection Hh as Hh.
  rewrite <- Hh in Hhp. vm_compute in Hhp. injection Hhp as <-.
  pose proof Hn as Hn'. vm_compute in Hn'. injection Hn' as Hn'.
  pose proof Hpos as Hpos'. vm_compute in Hpos'. injection Hpos' as Hpos'.
  pose proof Hsel as Hsel'. rewrite <- Hn', <- Hpos' in Hsel'.
  vm_compute in Hsel'. injection Hsel' as Hsel'.
  pose proof Hy as Hy'. rewrite <- Hsel' in Hy'.
  vm_compute in Hy'. injection Hy' as Hy'.
  assert (Hbatch : nth 0 (shape n) 0 = 2) by (rewrite <- Hn'; reflexivity).
  assert (Hin : forall b k, b < 2 -> k < 2 -> in_bounds (shape sel) [b; k] = true).
  { intros b k Hb Hk. rewrite <- Hsel'.
    destruct b as [|[|b]]; [| |lia]; (destruct k as [|[|k]]; [| |lia]); reflexivity. }
  exists y, (snd r), h, n, pos, sel.
  split; [exact E|]. split; [rewrite <- Hh; reflexivity|].
  split; [rewrite <- Hn'; reflexivity|]. split; [rewrite <- Hn'; reflexivity|].
  split; [exact Hpos|]. split; [rewrite <- Hpos'; reflexivity|].
  split; [apply (Hrows Hbatch 0 0); [lia | apply Hin; lia]|].
  split; [apply (Hrows Hbatch 0 1); [lia | apply Hin; lia]|].
  split; [apply (Hrows Hbatch 1 0); [lia | apply Hin; lia]|].
  split; [apply (Hrows Hbatch 1 1); [lia | apply Hin; lia]|].
  split; [exact Hy|].
  split; [rewrite <- Hy'; reflexivity|].
  intros y2 c2 He2.
  destruct (Hagain y2 c2 He2) as (h2 & tr2 & hp2 & n2 & sel2 & _ & _ & _ & _ & Hs2
                                  & _ & Hy2).
  exists n2, sel2. split; [exact Hs2|exact Hy2].
Defined.

(** CLIP(bert_type="bert"), every other argument at its default. *)
Definition unknown_args : CLIP.args :=
  CLIP.mkArgs "bert" 512 224 12 768 32 77 12 768 12 49408 [].

Lemma init_accepts_unknown_bert_type_witness :
  exists c : CLIP.t (R := num),
    CLIP.init unknown_args = Ok c
    /\ CLIP.tokenizer c = None /\ CLIP.transformer c = None
    /\ CLIP.encode_text c small_texts = (Raise UnboundLocalError, c).
Proof.
  destruct (init_accepts_unknown_bert_type (R := num) unknown_args)
    as (c & Hc & _ & Htk & Htr & Henc);
    [reflexivity | reflexivity | vm_compute; lia | reflexivity
     | vm_compute; lia | vm_compute; lia |].
  exists c. split; [exact Hc|]. split; [exact Htk|]. split; [exact Htr|].
  apply Henc.
Defined.


(** * Further properties of the constructors and the encoders *)

(** ** What a constructor that returns has built *)

Section ConstructorFacts.
Context {R : Type} {RT : Runtime R} {AT : Attention R} {TC : TextCollaborators R}.
Local Open Scope string_scope.

Lemma block_init_inv (s d h : nat) (m : option (Tensor R))
  (b : ResidualAttentionBlock.t (R := R)) :
  ResidualAttentionBlock.init s d h m = Ok b ->
  block_wf b d Float32 CPU /\ ResidualAttentionBlock.attn_mask b = m.
Proof.
  unfold ResidualAttentionBlock.init.
  destruct (mha_init s d h) as [a|] eqn:Ea; [|discriminate]. cbn [bind].
  intros H. injection H as <-.
  destruct (@mha_init_spec _ _ _ s d h a Ea) as (He & Hdt & Hdv).
  split; [|reflexivity]. repeat split; assumption.
Qed.

Lemma init_blocks_inv (d h : nat) (m : option (Tensor R)) :
  forall n s bs,
    Transformer.init_blocks s d h n m = Ok bs ->
    length bs = n
    /\ Forall (fun b => block_wf b d Float32 CPU
                        /\ ResidualAttentionBlock.attn_mask b = m) bs.
Proof.
  induction n as [|n IH]; intros s bs; simpl.
  - intros H. injection H as <-. auto.
  - destruct (ResidualAttentionBlock.init s d h m) as [b|] eqn:Eb; [|discriminate].
    cbn [bind].
    destruct (Transformer.init_blocks (s + 5) d h n m) as [bs'|] eqn:Ebs;
      [|discriminate].
    cbn [bind]. intros H. injection H as <-.
    apply block_init_inv in Eb. destruct (IH _ _ Ebs) as (Hlen & Hall).
    simpl. auto.
Qed.

Lemma VisionTransformer_init_inv (s res patch width layers heads out : nat)
  (v : VisionTransformer.t (R := R)) :
  VisionTransformer.init s res patch width layers heads out = Ok v ->
  0 < width /\ 0 < patch
  /\ VisionTransformer.input_resolution v = res
  /\ VisionTransformer.output_dim v = out
  /\ length (Transformer.resblocks (VisionTransformer.transformer v)) = layers
  /\ Transformer.layers (VisionTransformer.transformer v) = layers
  /\ vit_wf v patch width out Float32 CPU.
Proof.
  unfold VisionTransformer.init, Transformer.init.
  destruct (0 <? width) eqn:Hw; [|discriminate]. cbn [guard bind].
  destruct (0 <? patch) eqn:Hp; [|discriminate]. cbn [guard bind].
  destruct (Transformer.init_blocks (s + 4) width heads layers None) as [bs|] eqn:Ebs;
    [|discriminate].
  cbn [bind]. intros H. injection H as <-.
  apply Nat.ltb_lt in Hw, Hp.
  destruct (init_blocks_inv _ _ _ _ _ _ Ebs) as (Hlen & Hall).
  split; [exact Hw|]. split; [exact Hp|]. cbn.
  split; [reflexivity|]. split; [reflexivity|]. split; [exact Hlen|].
  split; [reflexivity|].
  unfold vit_wf. cbn. repeat split; try exact Hall.
  eexists. repeat split.
Qed.

(** X1. VisionTransformer.__init__ raises when the width or the patch
    size is zero, and returns when both are positive and the number of heads
    divides the width.  Whenever it returns, the encoder it built has: the
    resolution and output dimension it was given; a patch convolution of 3
    input channels with kernel = stride = patch_size; a positional embedding
    of (input_resolution // patch_size)^2 + 1 rows; exactly [layers] blocks,
    none of which stores a mask; a projection of shape (width, output_dim);
    every parameter in float32 on the CPU. *)
Theorem VisionTransformer_init_layout (s res patch width layers heads out : nat) :
  (width = 0 \/ patch = 0 ->
   exists e, VisionTransformer.init (R := R) s res patch width layers heads out
             = Raise e)
  /\ (0 < width -> 0 < patch -> 0 < heads -> width mod heads = 0 ->
      exists v : VisionTransformer.t (R := R),
        VisionTransformer.init s res patch width layers heads out = Ok v)
  /\ (forall v : VisionTransformer.t (R := R),
        VisionTransformer.init s res patch width layers heads out = Ok v ->
        VisionTransformer.input_resolution v = res
        /\ VisionTransformer.output_dim v = out
        /\ length (Transformer.resblocks (VisionTransformer.transformer v)) = layers
        /\ shape (VisionTransformer.positional_embedding v)
           = [(res / patch) ^ 2 + 1; width]
        /\ vit_wf v patch width out Float32 CPU).
Proof.
  split.
  { intros H.
    destruct (VisionTransformer.init (R := R) s res patch width layers heads out)
      as [v|e] eqn:E; [|eauto].
    apply VisionTransformer_init_inv in E. lia. }
  split.
  { intros Hw Hp Hh Hdiv.
    destruct (VisionTransformer_init_ok (R := R) s res patch width layers heads out
                Hw Hp Hh Hdiv) as (v & Hv & _).
    eauto. }
  intros v Hv. apply VisionTransformer_init_inv in Hv.
  destruct Hv as (_ & _ & Hres & Hout & Hlen & _ & Hwf).
  split; [exact Hres|]. split; [exact Hout|]. split; [exact Hlen|].
  split; [|exact Hwf].
  destruct Hwf as (_ & _ & _ & _ & _ & _ & Hpe & _). rewrite Hres in Hpe. exact Hpe.
Qed.

Lemma kwargs_get_missing (k : String.string)
  (kw : list (String.string * String.string)) :
  (forall v, ~ In (k, v) kw) -> CLIP.kwargs_get k kw = Raise KeyError.
Proof.
  induction kw as [|[k' v'] kw IH]; intros H; simpl; [reflexivity|].
  destruct (String.eqb k k') eqn:E.
  - apply String.eqb_eq in E. subst k'. exfalso. apply (H v'). left. reflexivity.
  - apply IH. intros v Hin. apply (H v). right. exact Hin.
Qed.

(** X2. Whenever CLIP.__init__ returns: the model's dtype is float32 and
    its parameters are on the CPU; logit_scale is zero-dimensional;
    text_projection has shape (w, embed_dim) and ln_final normalizes over w,
    where w is the transformer_width argument, except with the pretrained
    backbone, where w is the backbone's own hidden size whatever the
    argument was.  The "openai" branch leaves a token embedding of shape
    (vocab_size, transformer_width) and a positional embedding of shape
    (context_length, transformer_width); the "huggingface" branch leaves
    neither. *)
Theorem CLIP_init_layout (a : CLIP.args) (c : CLIP.t (R := R)) :
  CLIP.init a = Ok c ->
  CLIP.context_length c = CLIP.a_context_length a
  /\ CLIP.bert_type c = CLIP.a_bert_type a
  /\ CLIP.dtype c = Float32
  /\ CLIP.param_device c = CPU
  /\ shape (CLIP.logit_scale c) = []
  /\ exists w,
       0 < w
       /\ shape (CLIP.text_projection c) = [w; CLIP.a_embed_dim a]
       /\ dtype (CLIP.text_projection c) = Float32
       /\ ln_wf (CLIP.ln_final c) w Float32 CPU
       /\ (CLIP.a_bert_type a = "openai" ->
           w = CLIP.a_transformer_width a
           /\ CLIP.vocab_size c = Some (CLIP.a_vocab_size a)
           /\ exists tk tr emb pos,
                CLIP.tokenizer c = Some (CLIP.OfSimpleTokenizer tk)
                /\ CLIP.transformer c = Some (CLIP.OfTransformer tr)
                /\ CLIP.token_embedding c = Some emb
                /\ shape (Embedding.weight emb)
                   = [CLIP.a_vocab_size a; CLIP.a_transformer_width a]
                /\ CLIP.positional_embedding c = Some pos
                /\ shape pos = [CLIP.a_context_length a; CLIP.a_transformer_width a])
       /\ (CLIP.a_bert_type a = "huggingface" ->
           exists tk m,
             CLIP.tokenizer c = Some (CLIP.OfBertTokenizer tk)
             /\ CLIP.transformer c = Some (CLIP.OfBertModel m)
             /\ w = hidden_size m
             /\ CLIP.token_embedding c = None
             /\ CLIP.positional_embedding c = None).
Proof.
  unfold CLIP.init.
  destruct (VisionTransformer.init 100 _ _ _ _ _ _) as [vis|] eqn:Ev; [|discriminate].
  cbn [bind].
  assert (Hconv : dtype (Conv2d.weight (VisionTransformer.conv1 vis)) = Float32
                  /\ device (Conv2d.weight (VisionTransformer.conv1 vis)) = CPU).
  { unfold VisionTransformer.init in Ev.
    destruct (guard (0 <? CLIP.a_vision_width a) ZeroDivisionError); [|discriminate].
    cbn [bind] in Ev.
    destruct (guard (0 <? CLIP.a_vision_patch_size a) ZeroDivisionError);
      [|discriminate].
    cbn [bind] in Ev.
    destruct (Transformer.init _ _ _ _ _) as [tr|]; [|discriminate].
    cbn [bind] in Ev. injection Ev as <-. split; reflexivity. }
  destruct (CLIP.init_text a) as [[[[[[tk tr] vs] emb] pos] w]|] eqn:Et;
    [|discriminate].
  cbn [bind].
  destruct (0 <? w) eqn:Hw; [|discriminate]. cbn [guard bind].
  intros H. injection H as <-. apply Nat.ltb_lt in Hw.
  unfold CLIP.dtype, CLIP.param_device. cbn.
  split; [reflexivity|]. split; [reflexivity|]. split; [apply Hconv|].
  split; [apply Hconv|]. split; [reflexivity|].
  exists w. split; [exact Hw|]. split; [reflexivity|]. split; [reflexivity|].
  split; [repeat split|].
  unfold CLIP.init_text in Et. split.
  - intros Hb. rewrite Hb in Et. simpl String.eqb in Et. cbv iota in Et.
    destruct SimpleTokenizer_init as [tk0|]; [|discriminate]. cbn [bind] in Et.
    destruct (CLIP.build_attention_mask _) as [mask|]; [|discriminate].
    cbn [bind] in Et.
    destruct (bert_Transformer_init _ _ _ _) as [tr0|]; [|discriminate].
    cbn [bind] in Et. injection Et as <- <- <- <- <- <-.
    split; [reflexivity|]. split; [reflexivity|].
    do 4 eexists. repeat split.
  - intros Hb. rewrite Hb in Et. simpl String.eqb in Et. cbv iota in Et.
    destruct (CLIP.kwargs_get _ _) as [name|]; [|discriminate]. cbn [bind] in Et.
    destruct (BertTokenizer_from_pretrained name) as [tk0|]; [|discriminate].
    cbn [bind] in Et.
    destruct (BertModel_from_pretrained name) as [m|]; [|discriminate].
    cbn [bind] in Et. injection Et as <- <- <- <- <- <-.
    do 2 eexists. repeat split.
Qed.

(** X3. With bert_type = "huggingface" and no huggingface_model_name
    among the keyword arguments, CLIP.__init__ raises KeyError (the vision
    arguments being ones it accepts): the name has no default. *)
Theorem init_huggingface_needs_model_name (a : CLIP.args) :
  CLIP.a_bert_type a = "huggingface" ->
  (forall v, ~ In ("huggingface_model_name", v) (CLIP.a_kwargs a)) ->
  0 < CLIP.a_vision_width a / 64 ->
  CLIP.a_vision_width a mod (CLIP.a_vision_width a / 64) = 0 ->
  0 < CLIP.a_vision_patch_size a ->
  CLIP.init (R := R) a = Raise KeyError.
Proof.
  intros Hb Hkw Hheads Hdiv Hp.
  assert (Hvw : 0 < CLIP.a_vision_width a).
  { destruct (CLIP.a_vision_width a); [simpl in Hheads; lia | lia]. }
  destruct (VisionTransformer_init_ok 100 (CLIP.a_input_resolution a)
              (CLIP.a_vision_patch_size a) (CLIP.a_vision_width a)
              (CLIP.a_vision_layers a) (CLIP.a_vision_width a / 64)
              (CLIP.a_embed_dim a) Hvw Hp Hheads Hdiv) as (vis & Hvis & _).
  unfold CLIP.init. rewrite Hvis. cbn [bind].
  unfold CLIP.init_text. rewrite Hb. simpl String.eqb. cbv iota.
  rewrite (kwargs_get_missing _ _ Hkw). reflexivity.
Qed.

End ConstructorFacts.

(** ** Reading converted and mapped tensors *)

Section ElementFacts.
Context {R : Type} {RT : Runtime R}.

(** The contents fill the shape. *)
Definition tensor_wf (x : Tensor R) : Prop := length (data x) = numel (shape x).

Lemma build_wf dt dv sh (f : list nat -> R) : tensor_wf (build dt dv sh f).
Proof. apply numel_build. Qed.

Lemma nth_map_in (A B : Type) (f : A -> B) (l : list A) (k : nat) (da : A) (db : B) :
  k < length l -> nth k (map f l) db = f (nth k l da).
Proof.
  intros Hk. rewrite (nth_indep _ db (f da)) by (rewrite length_map; exact Hk).
  apply map_nth.
Qed.

Lemma get_type (x : Tensor R) (d : DType) (idx : list nat) :
  tensor_wf x -> in_bounds (shape x) idx = true ->
  get (type_ x d) idx
  = if dtype_eqb (dtype x) d then get x idx else round d (get x idx).
Proof.
  intros Hwf Hin. unfold type_. destruct (dtype_eqb (dtype x) d); [reflexivity|].
  unfold get. simpl. apply nth_map_in. rewrite Hwf. apply ravel_lt. exact Hin.
Qed.

Lemma get_to_device (x : Tensor R) (v : Device) (idx : list nat) :
  get (to_device x v) idx = get x idx.
Proof. unfold to_device. destruct (device_eqb (device x) v); reflexivity. Qed.

Lemma type_wf (x : Tensor R) (d : DType) : tensor_wf x -> tensor_wf (type_ x d).
Proof.
  unfold type_, tensor_wf. destruct (dtype_eqb (dtype x) d); [auto|].
  simpl. rewrite length_map. auto.
Qed.

Lemma get_unop f (x : Tensor R) (idx : list nat) :
  tensor_wf x -> in_bounds (shape x) idx = true ->
  get (unop f x) idx = f (dtype x) (get x idx).
Proof.
  intros Hwf Hin. unfold get, unop. simpl. apply nth_map_in.
  rewrite Hwf. apply ravel_lt. exact Hin.
Qed.

Lemma in_bounds_length (sh idx : list nat) :
  in_bounds sh idx = true -> length idx = length sh.
Proof.
  revert idx. induction sh as [|d ds IH]; intros [|i is_] H; simpl in *;
    try discriminate; [reflexivity|].
  apply andb_true_iff in H. destruct H as [_ H]. f_equal. apply IH. exact H.
Qed.

(** Against an operand of the result's own shape, broadcasting reads
    the same index. *)
Lemma bindex_same (sh idx : list nat) :
  in_bounds sh idx = true -> bindex sh idx = idx.
Proof.
  intros Hin. unfold bindex. rewrite (in_bounds_length _ _ Hin), Nat.sub_diag.
  simpl. revert idx Hin. induction sh as [|d ds IH]; intros [|i is_] H; simpl in *;
    try discriminate; [reflexivity|].
  apply andb_true_iff in H. destruct H as [Hi H]. apply Nat.ltb_lt in Hi.
  rewrite (IH _ H). destruct (d =? 1) eqn:E; [|reflexivity].
  apply Nat.eqb_eq in E. f_equal. lia.
Qed.

(** X15. QuickGELU returns on every tensor, with the shape, dtype and
    device of its input; element by element the result is
    x * sigmoid(1.702 * x), the constant converted to the dtype of x and the
    arithmetic carried out in that dtype. *)
Theorem QuickGELU_elementwise (x : Tensor R) :
  tensor_wf x ->
  exists y,
    QuickGELU.forward x = Ok y
    /\ shape y = shape x /\ dtype y = dtype x /\ device y = device x
    /\ forall idx, in_bounds (shape x) idx = true ->
         get y idx
         = fmul (dtype x) (round (dtype x) (get x idx))
             (round (dtype x)
                (fsigmoid (dtype x)
                   (fmul (dtype x) (round (dtype x) (of_decimal 1702 (-3)))
                      (get x idx)))).
Proof.
  intros Hwf. unfold QuickGELU.forward, mul, binop.
  rewrite result_device_same by reflexivity. cbn [bind].
  change (shape (sigmoid (scalar_mul (of_decimal 1702 (-3)) x))) with (shape x).
  rewrite broadcast_shapes_same.
  rewrite result_dtype_same by reflexivity.
  eexists. split; [reflexivity|]. simpl.
  split; [reflexivity|]. split; [reflexivity|]. split; [reflexivity|].
  intros idx Hin. rewrite get_build by exact Hin.
  rewrite (bindex_same _ _ Hin). f_equal. f_equal.
  unfold sigmoid, scalar_mul.
  rewrite get_unop; [|unfold tensor_wf, unop; simpl; rewrite length_map; exact Hwf
                     |exact Hin].
  simpl. rewrite get_unop by assumption. reflexivity.
Qed.

(** X14. On a float32 input the subclass is the base class: no
    conversion takes place on the way in or out, so LayerNorm.forward
    returns, or raises, exactly what nn.LayerNorm.forward does. *)
Theorem LayerNorm_float32_is_base (self : LayerNorm.t (R := R)) (x : Tensor R) :
  dtype x = Float32 ->
  LayerNorm.forward self x = nnLayerNorm.forward self x.
Proof.
  intros Hd. unfold LayerNorm.forward.
  rewrite <- Hd at 1. rewrite type_same.
  destruct (nnLayerNorm.forward self x) as [ret|e] eqn:E; [|reflexivity].
  cbn [bind]. apply nnLayerNorm_forward_out in E. destruct E as (_ & E & _).
  rewrite <- E, type_same. reflexivity.
Qed.

End ElementFacts.

(** ** The stored mask over successive passes *)

Section MaskStateFacts.
Context {R : Type} {RT : Runtime R} {AT : Attention R}.

Import ResidualAttentionBlock.

(** X4. A block that stores the mask of build_attention_mask hands
    attention a mask that is still causal, whatever the input's dtype and
    device: after the conversion the entries above the diagonal are negative
    infinity and the others zero, in the input's dtype, on its device. *)
Theorem reconciled_mask_stays_causal (self : t (R := R)) (x mask : Tensor R)
  (n : nat) :
  CLIP.build_attention_mask n = Ok mask ->
  attn_mask self = Some mask ->
  exists m',
    reconciled_mask self x = Some m'
    /\ shape m' = [n; n] /\ dtype m' = dtype x /\ device m' = device x
    /\ forall i j, i < n -> j < n ->
         get m' [i; j] = if i <? j then neg_inf else fzero.
Proof.
  unfold CLIP.build_attention_mask, triu_. simpl. intros H Hm.
  injection H as <-. unfold reconciled_mask. rewrite Hm.
  eexists. split; [reflexivity|].
  rewrite to_shape, to_dtype, to_device_of.
  split; [reflexivity|]. split; [reflexivity|]. split; [reflexivity|].
  intros i j Hi Hj. unfold to_. rewrite get_to_device.
  rewrite get_type; [|apply build_wf|apply in_bounds2; assumption].
  assert (Hv : get (build Float32 CPU [n; n]
                      (fun idx => match idx with
                                  | [i0; j0] =>
                                      if (1 <=? Z.of_nat j0 - Z.of_nat i0)%Z
                                      then get (fill_ (empty [n; n]) neg_inf) idx
                                      else fzero
                                  | _ => fzero
                                  end)) [i; j]
                = if i <? j then neg_inf else fzero).
  { rewrite get_build by (apply in_bounds2; assumption).
    destruct (i <? j) eqn:E.
    - apply Nat.ltb_lt in E.
      replace (1 <=? Z.of_nat j - Z.of_nat i)%Z with true
        by (symmetry; apply Z.leb_le; lia).
      unfold fill_. rewrite get_build by (apply in_bounds2; assumption).
      apply round_neg_inf.
    - apply Nat.ltb_ge in E.
      replace (1 <=? Z.of_nat j - Z.of_nat i)%Z with false
        by (symmetry; apply Z.leb_gt; lia).
      reflexivity. }
  simpl dtype. simpl shape. rewrite Hv.
  destruct (dtype_eqb Float32 (dtype x)); [reflexivity|].
  destruct (i <? j); [apply round_neg_inf|apply round_zero].
Qed.

Lemma result_device_out (x y : Tensor R) (dv : Device) :
  result_device x y = Ok dv -> device y = device x -> dv = device x.
Proof.
  intros H Hv. rewrite (result_device_same x y (eq_sym Hv)) in H. congruence.
Qed.

Lemma add_out_device (x y r : Tensor R) :
  add x y = Ok r -> device y = device x -> device r = device x.
Proof.
  intros H Hv. apply binop_out in H. destruct H as (_ & _ & H).
  apply (result_device_out x y); assumption.
Qed.

Lemma mlp_out_device (b : t (R := R)) (x y : Tensor R) :
  mlp b x = Ok y -> device y = device x.
Proof.
  unfold mlp.
  destruct (Linear.forward (c_fc b) x) as [u|] eqn:Eu; [|discriminate].
  cbn [bind].
  destruct (QuickGELU.forward u) as [g|] eqn:Eg; [|discriminate].
  cbn [bind]. intros Ef.
  apply Linear_forward_out in Eu, Ef.
  destruct (QuickGELU_forward_ok u) as (g' & Eg' & _ & _ & Hg).
  assert (g' = g) by congruence. subst g'.
  destruct Eu as (_ & Eu & _), Ef as (_ & Ef & _). congruence.
Qed.

Lemma block_forward_inv (b b' : t (R := R)) (x y : Tensor R) :
  forward b x = (Ok y, b') ->
  exists h, LayerNorm.forward (ln_1 b) x = Ok h
            /\ b' = set_attn_mask b (reconciled_mask b h)
            /\ device y = device x.
Proof.
  unfold forward.
  destruct (LayerNorm.forward (ln_1 b) x) as [h|] eqn:Eh; [|discriminate].
  unfold attention. cbn [attn attn_mask set_attn_mask ln_2].
  destruct (mha_forward (attn b) h h h (reconciled_mask b h)) as [a|] eqn:Ea;
    [|discriminate].
  cbn [bind].
  destruct (add x a) as [x1|] eqn:Ex1; [|discriminate]. cbn [bind].
  destruct (LayerNorm.forward (ln_2 b) x1) as [h2|] eqn:Eh2; [|discriminate].
  cbn [bind].
  destruct (mlp _ h2) as [m|] eqn:Em; [|discriminate]. cbn [bind].
  destruct (add x1 m) as [y'|] eqn:Ey; [|discriminate].
  intros H. injection H as <- <-.
  exists h. split; [reflexivity|]. split; [reflexivity|].
  apply LayerNorm_forward_out in Eh, Eh2.
  destruct Eh as (_ & _ & Eh), Eh2 as (_ & _ & Eh2).
  apply mha_forward_out in Ea. destruct Ea as (_ & _ & Ea).
  apply mlp_out_device in Em.
  assert (Hx1 : device x1 = device x) by (apply (add_out_device x a); congruence).
  rewrite <- Hx1. apply (add_out_device x1 m); congruence.
Qed.

(** The stored mask, if any, has dtype [dt] and is on device [dv]. *)
Definition mask_at (dt : DType) (dv : Device) (b : t (R := R)) : Prop :=
  forall m, attn_mask b = Some m -> dtype m = dt /\ device m = dv.

Lemma mask_at_same (b : t (R := R)) (x : Tensor R) :
  mask_at (dtype x) (device x) b -> snd (forward b x) = b.
Proof.
  intros H. apply block_forward_same.
  destruct (attn_mask b) as [m|] eqn:E; [right|left; reflexivity].
  exists m. destruct (H m E). auto.
Qed.

Lemma run_reconciles (bs : list (t (R := R))) :
  forall x y bs1,
    Transformer.run bs x = (Ok y, bs1) ->
    Forall (mask_at (dtype x) (device x)) bs1.
Proof.
  induction bs as [|b bs IH]; intros x y bs1; simpl.
  - intros H. injection H as _ <-. constructor.
  - destruct (forward b x) as [r b1] eqn:Eb. destruct r as [z|e]; [|discriminate].
    destruct (Transformer.run bs z) as [r' bs''] eqn:Er.
    intros H. injection H as -> <-.
    pose proof (block_forward_dtype _ _ _ _ Eb) as Hzd.
    destruct (block_forward_inv _ _ _ _ Eb) as (h & Hh & -> & Hzv).
    apply LayerNorm_forward_out in Hh. destruct Hh as (_ & Hhd & Hhv).
    constructor.
    + intros m Hm. cbn [attn_mask set_attn_mask] in Hm.
      destruct (reconciled_mask_out b h m Hm) as (H1 & H2 & _). split; congruence.
    + rewrite <- Hzd, <- Hzv. apply (IH z y). exact Er.
Qed.

Lemma run_settled (bs : list (t (R := R))) :
  forall x, Forall (mask_at (dtype x) (device x)) bs ->
            snd (Transformer.run bs x) = bs.
Proof.
  induction bs as [|b bs IH]; intros x Hall; simpl; [reflexivity|].
  inversion Hall as [|? ? Hb Hrest]; subst.
  pose proof (mask_at_same b x Hb) as Hsame.
  destruct (forward b x) as [r b1] eqn:Eb. simpl in Hsame. subst b1.
  destruct r as [z|e]; [|reflexivity].
  pose proof (block_forward_dtype _ _ _ _ Eb) as Hzd.
  destruct (block_forward_inv _ _ _ _ Eb) as (_ & _ & _ & Hzv).
  specialize (IH z). rewrite Hzd, Hzv in IH. specialize (IH Hrest).
  destruct (Transformer.run bs z) as [r' bs'']. simpl in *. congruence.
Qed.

(** X5. The stored masks settle after one pass.  Once a stack has
    returned on an input, every mask it stores has that input's dtype and is
    on its device, and a further pass on any input of the same dtype and
    device, whether it returns or raises, leaves the stack exactly as it
    is. *)
Theorem stack_settles_after_first_pass (tr tr1 : Transformer.t (R := R))
  (x x' y : Tensor R) :
  Transformer.forward tr x = (Ok y, tr1) ->
  dtype x' = dtype x -> device x' = device x ->
  Forall (mask_at (dtype x) (device x)) (Transformer.resblocks tr1)
  /\ snd (Transformer.forward tr1 x') = tr1.
Proof.
  unfold Transformer.forward. intros H Hd Hv.
  destruct (Transformer.run (Transformer.resblocks tr) x) as [r bs1] eqn:Er.
  injection H as -> <-. cbn [Transformer.resblocks Transformer.width Transformer.layers].
  pose proof (run_reconciles _ _ _ _ Er) as Hall.
  split; [exact Hall|].
  assert (Hs : snd (Transformer.run bs1 x') = bs1)
    by (apply run_settled; rewrite Hd, Hv; exact Hall).
  destruct (Transformer.run bs1 x') as [r' bs2]. simpl in *. congruence.
Qed.

End MaskStateFacts.

(** ** The similarity step and the text encoder at their edges *)

Section EdgeFacts.
Context {R : Type} {RT : Runtime R} {AT : Attention R} {TC : TextCollaborators R}.
Local Open Scope string_scope.

Lemma normalize_ok (x : Tensor R) (n d : nat) :
  shape x = [n; d] ->
  exists ni xn, norm x = Ok ni /\ div x ni = Ok xn
    /\ shape xn = [n; d] /\ dtype xn = dtype x /\ device xn = device x.
Proof.
  intros Hs. unfold norm. rewrite Hs. simpl. eexists.
  destruct (binop_ok fdiv x
              (build (dtype x) (device x) [n; 1]
                 (fun idx =>
                    fsqrt (dtype x)
                      (fsum (dtype x)
                         (map (fun k => let v := get x (removelast idx ++ [k]) in
                                        fmul (dtype x) v v) (seq 0 d))))) [n; d])
    as (xn & Hxn & H1 & H2 & H3); try reflexivity.
  - rewrite Hs. apply (broadcast_shapes_keepdim [n] d).
  - exists xn. split; [reflexivity|]. split; [exact Hxn|]. auto.
Qed.

Lemma logits_ok (self : CLIP.t (R := R)) (image_features text_features : Tensor R)
  (n m d : nat) :
  shape image_features = [n; d] -> shape text_features = [m; d] ->
  dtype text_features = dtype image_features ->
  device text_features = device image_features ->
  shape (CLIP.logit_scale self) = [] ->
  device (CLIP.logit_scale self) = device image_features
  \/ device (CLIP.logit_scale self) = CPU ->
  exists lpi lpt,
    CLIP.logits self image_features text_features = Ok (lpi, lpt)
    /\ shape lpi = [n; m] /\ shape lpt = [m; n]
    /\ dtype lpi = dtype image_features /\ device lpi = device image_features.
Proof.
  intros Hi Ht Hd Hv Hls Hlv.
  destruct (normalize_ok image_features n d Hi) as (ni & xi & Hni & Hxi & Hxis & Hxid & Hxiv).
  destruct (normalize_ok text_features m d Ht) as (nt & xt & Hnt & Hxt & Hxts & Hxtd & Hxtv).
  assert (Hsc : exists scaled, mul (exp_ (CLIP.logit_scale self)) xi = Ok scaled
                  /\ shape scaled = [n; d] /\ dtype scaled = dtype xi
                  /\ device scaled = device xi).
  { unfold mul, binop.
    assert (Hrd : result_device (exp_ (CLIP.logit_scale self)) xi = Ok (device xi)).
    { unfold result_device. change (device (exp_ (CLIP.logit_scale self)))
        with (device (CLIP.logit_scale self)).
      change (shape (exp_ (CLIP.logit_scale self))) with (shape (CLIP.logit_scale self)).
      destruct (device_eqb (device (CLIP.logit_scale self)) (device xi)) eqn:E.
      - apply device_eqb_eq in E. congruence.
      - rewrite Hls. destruct Hlv as [Hlv|Hlv]; rewrite Hlv in *.
        + rewrite <- Hxiv, device_eqb_refl in E. discriminate.
        + reflexivity. }
    rewrite Hrd. cbn [bind].
    change (shape (exp_ (CLIP.logit_scale self))) with (shape (CLIP.logit_scale self)).
    rewrite Hls, broadcast_shapes_nil. eexists. split; [reflexivity|]. simpl.
    split; [exact Hxis|]. split; [|reflexivity].
    unfold result_dtype.
    change (shape (exp_ (CLIP.logit_scale self))) with (shape (CLIP.logit_scale self)).
    rewrite Hls, Hxis. reflexivity. }
  destruct Hsc as (scaled & Hsc & Hscs & Hscd & Hscv).
  destruct (t_matrix xt m d Hxts) as (tt' & Htt & Htts & Httd & Httv & _).
  destruct (matmul_ok scaled tt' n d m Hscs Htts) as (lpi & Hlpi & Hlpis & Hlpid & Hlpiv & _);
    [congruence | congruence |].
  destruct (t_matrix lpi n m Hlpis) as (lpt & Hlpt & Hlpts & _).
  exists lpi, lpt. split.
  - unfold CLIP.logits. rewrite Hni. cbn [bind]. rewrite Hxi. cbn [bind].
    rewrite Hnt. cbn [bind]. rewrite Hxt. cbn [bind]. rewrite Hsc. cbn [bind].
    rewrite Htt. cbn [bind]. rewrite Hlpi. cbn [bind]. rewrite Hlpt. reflexivity.
  - repeat split; congruence.
Qed.

(** X13. The similarity step of forward returns for any two embedding
    matrices of one width, dtype and device, with a zero-dimensional
    logit_scale on that device or on the CPU: the batch sizes n and m need
    not agree, and no row, not even an all-zero one, makes the
    normalization raise.  The logits have shapes (n, m) and (m, n), and
    logits_per_text is the transpose of logits_per_image. *)
Theorem logits_total (self : CLIP.t (R := R)) (image_features text_features : Tensor R)
  (n m d : nat) :
  shape image_features = [n; d] -> shape text_features = [m; d] ->
  dtype text_features = dtype image_features ->
  device text_features = device image_features ->
  shape (CLIP.logit_scale self) = [] ->
  device (CLIP.logit_scale self) = device image_features
  \/ device (CLIP.logit_scale self) = CPU ->
  exists lpi lpt,
    CLIP.logits self image_features text_features = Ok (lpi, lpt)
    /\ shape lpi = [n; m] /\ shape lpt = [m; n]
    /\ dtype lpi = dtype image_features /\ device lpi = device image_features
    /\ t_ lpi = Ok lpt.
Proof.
  intros Hi Ht Hd Hv Hls Hlv.
  destruct (logits_ok self image_features text_features n m d Hi Ht Hd Hv Hls Hlv)
    as (lpi & lpt & H & H1 & H2 & H3 & H4).
  exists lpi, lpt. repeat (split; [assumption|]).
  destruct (logits_inv self image_features text_features lpi lpt H)
    as (ni & xi & nt & xt & scaled & tt' & _ & _ & _ & _ & _ & _ & _ & Ht').
  exact Ht'.
Qed.

(** (batch, l, w) against (cl, w'): no broadcast when l and cl differ
    and neither is 1. *)
Lemma broadcast_shapes_length_mismatch (b l w cl w' : nat) :
  l <> cl -> l <> 1 -> cl <> 1 ->
  broadcast_shapes [b; l; w] [cl; w'] = None.
Proof.
  intros H1 H2 H3. unfold broadcast_shapes. simpl.
  destruct (Nat.eqb_spec l cl); [contradiction|].
  destruct (Nat.eqb_spec l 1); [contradiction|].
  destruct (Nat.eqb_spec cl 1); [contradiction|].
  reflexivity.
Qed.

Lemma Embedding_forward_ok (emb : Embedding.t (R := R)) (ids : IntTensor) (v w : nat) :
  shape (Embedding.weight emb) = [v; w] ->
  idevice ids = device (Embedding.weight emb) ->
  forallb (fun z => (0 <=? z)%Z && (z <? Z.of_nat v)%Z) (idata ids) = true ->
  exists e, Embedding.forward emb ids = Ok e
    /\ shape e = ishape ids ++ [w]
    /\ dtype e = dtype (Embedding.weight emb)
    /\ device e = device (Embedding.weight emb).
Proof.
  intros Hs Hv Hr. unfold Embedding.forward.
  rewrite Hs, Hv, device_eqb_refl, Hr. cbn [guard bind].
  eexists. split; [reflexivity|]. auto.
Qed.

Lemma idata_ito (t : IntTensor) (v : Device) : idata (ito t v) = idata t.
Proof. unfold ito. destruct (device_eqb (idevice t) v); reflexivity. Qed.

(** X11. tokenize is called without the model's context_length.  When
    the sequences it returns have another length than the positional
    embedding has rows (neither being 1), variant A raises a shape error at
    the addition of the positional embedding, before the transformer runs,
    and the model is left as it was. *)
Theorem encode_text_length_mismatch (self : CLIP.t (R := R))
  (text : list String.string) tk emb pos tr ids (b l v w cl w' : nat) :
  CLIP.bert_type self = "openai" ->
  CLIP.tokenizer self = Some (CLIP.OfSimpleTokenizer tk) ->
  CLIP.token_embedding self = Some emb ->
  CLIP.positional_embedding self = Some pos ->
  CLIP.transformer self = Some (CLIP.OfTransformer tr) ->
  tokenize tk text true = Ok ids ->
  ishape ids = [b; l] ->
  shape (Embedding.weight emb) = [v; w] ->
  device (Embedding.weight emb) = CLIP.param_device self ->
  forallb (fun z => (0 <=? z)%Z && (z <? Z.of_nat v)%Z) (idata ids) = true ->
  shape pos = [cl; w'] ->
  device pos = CLIP.param_device self ->
  l <> cl -> l <> 1 -> cl <> 1 ->
  CLIP.encode_text self text = (Raise ShapeError, self).
Proof.
  intros Hb Htk Hemb Hpos Htr Hids Hsh Hw Hdev Hr Hps Hpv H1 H2 H3.
  unfold CLIP.encode_text. rewrite Hb, Htk, Hemb, Hpos, Htr. simpl String.eqb.
  cbv iota. unfold CLIP.embed_text. rewrite Hids. cbn [bind].
  destruct (Embedding_forward_ok emb (ito ids (CLIP.param_device self)) v w Hw)
    as (e & He & Hes & Hed & Hev).
  { rewrite idevice_ito. congruence. }
  { rewrite idata_ito. exact Hr. }
  rewrite He. cbn [bind]. rewrite ishape_ito, Hsh in Hes. simpl in Hes.
  unfold add, binop.
  rewrite result_device_same by (rewrite !type_device; congruence).
  cbn [bind]. rewrite !type_shape, Hes, Hps.
  rewrite (broadcast_shapes_length_mismatch b l w cl w' H1 H2 H3). reflexivity.
Qed.

(** X12. When the tokenizer returns an id outside 0 .. vocab_size - 1
    (the rows of the embedding table, which is on the model's device),
    variant A raises an index error at the lookup and the model is left as
    it was. *)
Theorem encode_text_id_out_of_vocabulary (self : CLIP.t (R := R))
  (text : list String.string) tk emb pos tr ids (v w : nat) (z : Z) :
  CLIP.bert_type self = "openai" ->
  CLIP.tokenizer self = Some (CLIP.OfSimpleTokenizer tk) ->
  CLIP.token_embedding self = Some emb ->
  CLIP.positional_embedding self = Some pos ->
  CLIP.transformer self = Some (CLIP.OfTransformer tr) ->
  tokenize tk text true = Ok ids ->
  shape (Embedding.weight emb) = [v; w] ->
  device (Embedding.weight emb) = CLIP.param_device self ->
  In z (idata ids) -> (z < 0 \/ Z.of_nat v <= z)%Z ->
  CLIP.encode_text self text = (Raise IndexError, self).
Proof.
  intros Hb Htk Hemb Hpos Htr Hids Hw Hdev Hin Hz.
  unfold CLIP.encode_text. rewrite Hb, Htk, Hemb, Hpos, Htr. simpl String.eqb.
  cbv iota. unfold CLIP.embed_text. rewrite Hids. cbn [bind].
  unfold Embedding.forward. rewrite Hw, idevice_ito, Hdev, device_eqb_refl.
  cbn [guard bind]. rewrite idata_ito.
  destruct (forallb _ (idata ids)) eqn:E; [|reflexivity].
  rewrite forallb_forall in E. specialize (E z Hin).
  apply andb_true_iff in E. destruct E as [E1 E2].
  apply Z.leb_le in E1. apply Z.ltb_lt in E2. lia.
Qed.

End EdgeFacts.

(** ** The vision encoder beyond the images it was built for *)

Section VisionEdgeFacts.
Context {R : Type} {RT : Runtime R} {AT : Attention R} {TC : TextCollaborators R}.

Import VisionTransformer.

(** self.proj = None *)
Definition without_proj (self : t (R := R)) : t :=
  mk (input_resolution self) (output_dim self) (conv1 self) (class_embedding self)
     (positional_embedding self) (ln_pre self) (transformer self) (ln_post self) None.

Lemma VisionTransformer_forward_ok (self : t (R := R)) (x : Tensor R)
  (b patch width out : nat) :
  vit_wf self patch width out (dtype x) (device x) ->
  0 < patch -> patch <= input_resolution self -> 0 < width -> 1 <= b ->
  shape x = [b; 3; input_resolution self; input_resolution self] ->
  exists e z zp x0 n pr y,
    embed self x = Ok e
    /\ Transformer.forward (transformer self) e = (Ok z, transformer self)
    /\ permute z [1; 0; 2] = Ok zp
    /\ select zp 1 0 = Ok x0
    /\ LayerNorm.forward (ln_post self) x0 = Ok n
    /\ shape n = [b; width]
    /\ proj self = Some pr
    /\ matmul n pr = Ok y
    /\ forward self x = (Ok y, self)
    /\ shape y = [b; out] /\ dtype y = dtype x /\ device y = device x.
Proof.
  intros Hwf Hp Hres Hw Hb Hs.
  destruct (embed_ok self x b patch width out Hwf Hp Hres Hw Hb Hs)
    as (c & r & p & cls & s & q & n0 & e & _ & _ & _ & _ & _ & _ & _ & _ & _ & _
        & _ & _ & _ & He & Hes & Hed & Hev).
  pose proof Hwf as (_ & _ & _ & _ & _ & _ & _ & _ & _ & Hblocks & _ & _ & _).
  set (grid := input_resolution self / patch) in *.
  assert (Hg : grid ^ 2 + 1 = S (grid * grid)) by (rewrite Nat.pow_2_r; lia).
  destruct (run_unmasked_ok (Transformer.resblocks (transformer self)) e
              (grid ^ 2 + 1) b width) as (z & Hz & Hzs & Hzd & Hzv).
  { rewrite Hed, Hev. exact Hblocks. }
  { exact Hes. }
  assert (Hwfz : vit_wf self patch width out (dtype z) (device z))
    by (rewrite Hzd, Hzv, Hed, Hev; exact Hwf).
  assert (Hzs' : shape z = [S (grid * grid); b; width]) by congruence.
  destruct (head_ok self z _ _ patch width out Hwfz Hzs')
    as (zp & x0 & n & pr & y & Hzp & Hx0 & Hx0s & _ & Hn & Hpr & Hy & _ & Hhead
        & Hys & Hyd & Hyv).
  assert (Htr : Transformer.forward (transformer self) e = (Ok z, transformer self)).
  { unfold Transformer.forward. rewrite Hz.
    destruct (transformer self); reflexivity. }
  exists e, z, zp, x0, n, pr, y.
  split; [exact He|]. split; [exact Htr|]. split; [exact Hzp|].
  split; [exact Hx0|]. split; [exact Hn|].
  split.
  { apply LayerNorm_forward_out in Hn. destruct Hn as (Hn & _). congruence. }
  split; [exact Hpr|]. split; [exact Hy|].
  split.
  { unfold forward. rewrite He, Htr. cbn [bind]. rewrite Hhead.
    f_equal. destruct self as [? ? ? ? ? ? [? ? ?] ? ?]. reflexivity. }
  split; [exact Hys|]. split; congruence.
Qed.

(** X7. Without a projection (proj set to None) the encoder returns the
    normalized class-token states themselves, of shape (B, width) instead of
    (B, output_dim); the output of the encoder with its projection is that
    tensor multiplied by proj. *)
Theorem forward_without_proj (self : t (R := R)) (x : Tensor R)
  (b patch width out : nat) :
  vit_wf self patch width out (dtype x) (device x) ->
  0 < patch -> patch <= input_resolution self -> 0 < width -> 1 <= b ->
  shape x = [b; 3; input_resolution self; input_resolution self] ->
  exists n pr y,
    forward (without_proj self) x = (Ok n, without_proj self)
    /\ shape n = [b; width]
    /\ proj self = Some pr
    /\ matmul n pr = Ok y
    /\ forward self x = (Ok y, self)
    /\ shape y = [b; out].
Proof.
  intros Hwf Hp Hres Hw Hb Hs.
  destruct (VisionTransformer_forward_ok self x b patch width out Hwf Hp Hres Hw Hb Hs)
    as (e & z & zp & x0 & n & pr & y & He & Htr & Hzp & Hx0 & Hn & Hns & Hpr & Hy
        & Hfw & Hys & _).
  exists n, pr, y. split.
  - unfold forward.
    change (embed (without_proj self) x) with (embed self x). rewrite He.
    change (transformer (without_proj self)) with (transformer self). rewrite Htr.
    cbn [bind]. unfold head. rewrite Hzp. cbn [bind]. rewrite Hx0. cbn [bind].
    change (ln_post (without_proj self)) with (ln_post self). rewrite Hn.
    cbn [bind proj without_proj]. reflexivity.
  - repeat split; assumption.
Qed.

Lemma set_visual_same (c : CLIP.t (R := R)) : CLIP.set_visual c (CLIP.visual c) = c.
Proof. destruct c. reflexivity. Qed.

(** X8. encode_image accepts a batch of images of any floating dtype
    (the encoder laid out as __init__ lays it out, with the patch size at
    most the resolution): it is converted to the dtype of the weights, the
    result has shape (B, output_dim) and that dtype, and the model is left as
    it was.
    Handing the same images to the vision encoder directly, in another
    dtype than the weights', raises a dtype error in the patch
    convolution. *)
Theorem encode_image_any_dtype (c : CLIP.t (R := R)) (image : Tensor R)
  (b patch width out : nat) :
  vit_wf (CLIP.visual c) patch width out (CLIP.dtype c) (device image) ->
  0 < patch -> patch <= input_resolution (CLIP.visual c) -> 0 < width -> 1 <= b ->
  shape image = [b; 3; input_resolution (CLIP.visual c);
                 input_resolution (CLIP.visual c)] ->
  (exists y, CLIP.encode_image c image = (Ok y, c)
             /\ shape y = [b; out] /\ dtype y = CLIP.dtype c)
  /\ (dtype image <> CLIP.dtype c ->
      forward (CLIP.visual c) image = (Raise DTypeError, CLIP.visual c)).
Proof.
  intros Hwf Hp Hres Hw Hb Hs. split.
  - assert (Hwf' : vit_wf (CLIP.visual c) patch width out
                     (dtype (type_ image (CLIP.dtype c)))
                     (device (type_ image (CLIP.dtype c))))
      by (rewrite type_dtype, type_device; exact Hwf).
    assert (Hs' : shape (type_ image (CLIP.dtype c))
                  = [b; 3; input_resolution (CLIP.visual c);
                     input_resolution (CLIP.visual c)])
      by (rewrite type_shape; exact Hs).
    destruct (VisionTransformer_forward_ok (CLIP.visual c) (type_ image (CLIP.dtype c))
                b patch width out Hwf' Hp Hres Hw Hb Hs')
      as (e & z & zp & x0 & n & pr & y & _ & _ & _ & _ & _ & _ & _ & _ & Hfw & Hys & Hyd
          & _).
    exists y. unfold CLIP.encode_image. rewrite Hfw, set_visual_same.
    split; [reflexivity|]. split; [exact Hys|].
    rewrite Hyd. apply type_dtype.
  - intros Hd.
    destruct Hwf as (Hcw & _ & Hcd & Hcv & _).
    unfold forward, embed, Conv2d.forward, Conv2d.checks. rewrite Hcw, Hs, Hcv.
    rewrite device_eqb_refl. cbn [guard bind].
    destruct (dtype_eqb (dtype image)
                (dtype (Conv2d.weight (conv1 (CLIP.visual c))))) eqn:E.
    + apply dtype_eqb_eq in E. exfalso. apply Hd. exact E.
    + reflexivity.
Qed.

(** X9. An image of another size is refused by an encoder whose patch
    size is at most its resolution: when the number of patches the
    convolution cuts out of a (B, 3, H, W) batch (H and W at least the patch
    size) is not the grid^2 the positional embedding was sized for, forward
    raises a shape error at the addition of the positional embedding, and the
    encoder is left as it was. *)
Theorem forward_rejects_other_patch_count (self : t (R := R)) (x : Tensor R)
  (b h w patch width out : nat) :
  vit_wf self patch width out (dtype x) (device x) ->
  0 < patch -> patch <= input_resolution self -> 0 < width -> 1 <= b ->
  shape x = [b; 3; h; w] ->
  patch <= h -> patch <= w ->
  (h / patch) * (w / patch)
  <> (input_resolution self / patch) * (input_resolution self / patch) ->
  forward self x = (Raise ShapeError, self).
Proof.
  intros Hwf Hp Hres Hw Hb Hs Hh Hw' Hne.
  destruct Hwf as (Hcw & Hst & Hcd & Hcv & Hce & Hcev & Hpe & Hpev & _).
  set (grid := input_resolution self / patch) in *.
  destruct (Conv2d_forward_ok (conv1 self) x b width 3 patch h w)
    as (c & Hc & Hcs & Hcdt & Hcdv); try congruence; try lia.
  rewrite Hst, (patch_grid _ _ Hp Hh), (patch_grid _ _ Hp Hw') in Hcs.
  destruct (reshape_flatten c b width (h / patch) (w / patch) Hcs)
    as (r & Hr & Hrs & Hrd & Hrv & _); try lia.
  destruct (permute_021 r _ _ _ Hrs) as (p & Hpm & Hps & Hpd & Hpv & _).
  destruct (class_rows_ok (class_embedding self) b width (dtype p) (device p) Hce)
    as (cls & Hcls & Hclss & Hclsd & Hclsv & _); [congruence|].
  destruct (cat_dim1 cls p b 1 (h / patch * (w / patch)) width Hclss Hps)
    as (s & Hcat & Hss & Hsd & Hsv & _); try congruence.
  assert (Hgrid : 1 <= grid).
  { unfold grid. apply Nat.div_le_lower_bound; lia. }
  assert (Hadd : add s (type_ (positional_embedding self) (dtype s))
                 = Raise ShapeError).
  { unfold add, binop.
    rewrite result_device_same by (rewrite type_device; congruence).
    cbn [bind]. rewrite type_shape, Hss, Hpe.
    assert (Hpos : 1 <= h / patch * (w / patch)).
    { assert (1 <= h / patch) by (apply Nat.div_le_lower_bound; lia).
      assert (1 <= w / patch) by (apply Nat.div_le_lower_bound; lia). nia. }
    rewrite broadcast_shapes_length_mismatch; [reflexivity | | |];
      rewrite ?Nat.pow_2_r; nia. }
  unfold forward, embed. rewrite Hc. cbn [bind]. rewrite Hcs, Hr. cbn [bind].
  rewrite Hpm. cbn [bind]. rewrite Hps. cbn [nth last].
  rewrite Hcls. cbn [bind]. rewrite Hcat. cbn [bind]. rewrite Hadd. reflexivity.
Qed.

End VisionEdgeFacts.

(** ** Pixels beyond the last whole patch *)

Lemma in_indices_bounds (sh idx : list nat) :
  In idx (indices sh) -> in_bounds sh idx = true.
Proof.
  revert idx. induction sh as [|d ds IH]; intros idx H; simpl in *.
  - destruct H as [<-|[]]. reflexivity.
  - apply in_flat_map in H. destruct H as (i & Hi & H).
    apply in_map_iff in H. destruct H as (is_ & <- & His).
    apply in_seq in Hi. simpl.
    rewrite (ltb_true i d) by lia. apply IH. exact His.
Qed.

Lemma in_bounds_cons_inv (d : nat) (ds idx : list nat) :
  in_bounds (d :: ds) idx = true ->
  exists i tl, idx = i :: tl /\ i < d /\ in_bounds ds tl = true.
Proof.
  destruct idx as [|i tl]; [discriminate|]. cbn [in_bounds]. intros H.
  apply andb_true_iff in H. destruct H as [Hi H]. apply Nat.ltb_lt in Hi.
  exists i, tl. auto.
Qed.

Lemma in_bounds_nil_inv (idx : list nat) : in_bounds [] idx = true -> idx = [].
Proof. destruct idx; [reflexivity|discriminate]. Qed.

Section PatchFacts.
Context {R : Type} {RT : Runtime R} {AT : Attention R}.

Lemma build_ext dt dv sh (f g : list nat -> R) :
  (forall idx, in_bounds sh idx = true -> f idx = g idx) ->
  build dt dv sh f = build dt dv sh g.
Proof.
  intros H. unfold build. f_equal. apply map_ext_in.
  intros idx Hin. apply H. apply in_indices_bounds. exact Hin.
Qed.

(** A convolution with kernel = stride = k reads, of each image, only
    the rows below (h // k) * k and the columns below (w // k) * k. *)
Lemma Conv2d_forward_ext (c : Conv2d.t (R := R)) (x x' : Tensor R)
  (b co ci k h w : nat) :
  shape (Conv2d.weight c) = [co; ci; k; k] ->
  Conv2d.stride c = k ->
  shape x = [b; ci; h; w] -> shape x' = [b; ci; h; w] ->
  dtype x' = dtype x -> device x' = device x ->
  (forall n ch r cl, n < b -> ch < ci -> r < (h / k) * k -> cl < (w / k) * k ->
     get x' [n; ch; r; cl] = get x [n; ch; r; cl]) ->
  Conv2d.forward c x' = Conv2d.forward c x.
Proof.
  intros Hw Hst Hx Hx' Hd Hv Hagree.
  unfold Conv2d.forward, Conv2d.checks. rewrite Hw, Hx, Hx', Hd, Hv, Hst.
  destruct (guard (device_eqb _ _) DeviceError); [|reflexivity]. cbn [bind].
  destruct (guard (dtype_eqb _ _) DTypeError); [|reflexivity]. cbn [bind].
  destruct (0 <? k) eqn:Hk; [|reflexivity]. cbn [guard bind].
  rewrite Nat.eqb_refl. cbn [andb].
  destruct (k <=? h) eqn:Hh; [|reflexivity].
  destruct (k <=? w) eqn:Hw'; [|reflexivity]. cbn [andb guard bind].
  apply Nat.ltb_lt in Hk. apply Nat.leb_le in Hh, Hw'.
  f_equal. apply build_ext. intros idx Hin.
  apply in_bounds_cons_inv in Hin. destruct Hin as (n & t1 & -> & Hn & Hin).
  apply in_bounds_cons_inv in Hin. destruct Hin as (o & t2 & -> & _ & Hin).
  apply in_bounds_cons_inv in Hin. destruct Hin as (i & t3 & -> & Hi & Hin).
  apply in_bounds_cons_inv in Hin. destruct Hin as (j & t4 & -> & Hj & Hin).
  apply in_bounds_nil_inv in Hin. subst t4.
  rewrite (patch_grid _ _ Hk Hh) in Hi. rewrite (patch_grid _ _ Hk Hw') in Hj.
  unfold Conv2d.window. rewrite Hw, Hd, Hst. f_equal.
  apply map_ext_in. intros kk Hkk. apply in_indices_bounds in Hkk.
  apply in_bounds_cons_inv in Hkk. destruct Hkk as (ch & u1 & -> & Hch & Hkk).
  apply in_bounds_cons_inv in Hkk. destruct Hkk as (di & u2 & -> & Hdi & Hkk).
  apply in_bounds_cons_inv in Hkk. destruct Hkk as (dj & u3 & -> & Hdj & Hkk).
  apply in_bounds_nil_inv in Hkk. subst u3.
  f_equal. simpl. apply Hagree; nia.
Qed.

(** X10. The vision encoder never reads the pixels beyond the last
    whole patch: two batches of (B, 3, H, W) images of one dtype on one
    device that agree on the rows below (H // patch) * patch and the columns
    below (W // patch) * patch get the same result, an output or an error,
    and leave the encoder in the same state. *)
Theorem forward_ignores_trailing_pixels (self : VisionTransformer.t (R := R))
  (x x' : Tensor R) (b h w patch width : nat) :
  shape (Conv2d.weight (VisionTransformer.conv1 self)) = [width; 3; patch; patch] ->
  Conv2d.stride (VisionTransformer.conv1 self) = patch ->
  shape x = [b; 3; h; w] -> shape x' = [b; 3; h; w] ->
  dtype x' = dtype x -> device x' = device x ->
  (forall n ch r cl, n < b -> ch < 3 ->
     r < (h / patch) * patch -> cl < (w / patch) * patch ->
     get x' [n; ch; r; cl] = get x [n; ch; r; cl]) ->
  VisionTransformer.forward self x' = VisionTransformer.forward self x.
Proof.
  intros Hw Hst Hx Hx' Hd Hv Hagree.
  unfold VisionTransformer.forward, VisionTransformer.embed.
  rewrite (Conv2d_forward_ext (VisionTransformer.conv1 self) x x' b width 3 patch h w
             Hw Hst Hx Hx' Hd Hv Hagree).
  reflexivity.
Qed.

End PatchFacts.

(** ** The text encoder, end to end *)

Lemma argmax_ok (t : IntTensor) (b l : nat) :
  ishape t = [b; l] -> 0 < l ->
  exists pos,
    argmax t = Ok pos /\ ishape pos = [b] /\ idevice pos = idevice t
    /\ forall r, r < b ->
         iget pos [r] = Z.of_nat (argmax_list (id_row t r l))
         /\ argmax_list (id_row t r l) < l.
Proof.
  intros Hs Hl. unfold argmax. rewrite Hs. simpl rev. cbv iota.
  rewrite (ltb_true _ _ Hl). cbn [guard bind].
  eexists. split; [reflexivity|]. split; [reflexivity|]. split; [reflexivity|].
  intros r Hr. split.
  - unfold iget, ibuild. simpl ishape. simpl idata.
    rewrite nth_map_indices; [reflexivity|].
    simpl. rewrite (ltb_true _ _ Hr). reflexivity.
  - assert (Hne : id_row t r l <> []).
    { unfold id_row. destruct l; [lia|]. simpl. discriminate. }
    destruct (argmax_list_spec _ Hne) as (H & _).
    unfold id_row in H at 2. rewrite length_map, length_seq in H. exact H.
Qed.

Section TextShapeFacts.
Context {R : Type} {RT : Runtime R} {AT : Attention R} {TC : TextCollaborators R}.
Local Open Scope string_scope.

Lemma index_rows_ok (x : Tensor R) (pos : IntTensor) (b l w : nat) :
  shape x = [b; l; w] -> ishape pos = [b] ->
  idevice pos = CPU \/ idevice pos = device x ->
  (forall r, r < b -> (0 <= iget pos [r] < Z.of_nat l)%Z) ->
  exists sel, index_rows x b pos = Ok sel
    /\ shape sel = [b; w] /\ dtype sel = dtype x /\ device sel = device x.
Proof.
  intros Hs Hp Hv Hr. unfold index_rows. rewrite Hs, Hp.
  assert (Hg : device_eqb (idevice pos) CPU || device_eqb (idevice pos) (device x)
               = true).
  { destruct Hv as [Hv|Hv]; rewrite Hv, device_eqb_refl;
      [reflexivity|apply orb_true_r]. }
  rewrite Hg, Nat.eqb_refl. cbn [orb guard bind].
  assert (Hrows : (if b =? 1 then b else b) = b) by (destruct (b =? 1); reflexivity).
  rewrite Hrows.
  assert (Hidx : forall r, r < b -> (if b =? 1 then 0 else r) = r).
  { intros r Hlt. destruct (Nat.eqb_spec b 1); [lia|reflexivity]. }
  match goal with
  | |- context [forallb ?f (seq 0 b)] => assert (Hall : forallb f (seq 0 b) = true)
  end.
  { apply forallb_forall. intros r Hin. apply in_seq in Hin.
    assert (Hlt : r < b) by lia. rewrite (Hidx r Hlt).
    specialize (Hr r Hlt).
    replace (iget pos [r] <? 0)%Z with false by (symmetry; apply Z.ltb_ge; lia).
    rewrite (ltb_true _ _ Hlt). cbn [andb].
    apply andb_true_iff. split; [apply Z.leb_le|apply Z.ltb_lt]; lia. }
  rewrite Hall. cbn [guard bind]. eexists. split; [reflexivity|]. auto.
Qed.

Lemma encode_text_openai_ok (self : CLIP.t (R := R))
  (text : list String.string) tk emb pos tr ids (b l v w out : nat) :
  CLIP.bert_type self = "openai" ->
  CLIP.tokenizer self = Some (CLIP.OfSimpleTokenizer tk) ->
  CLIP.token_embedding self = Some emb ->
  CLIP.positional_embedding self = Some pos ->
  CLIP.transformer self = Some (CLIP.OfTransformer tr) ->
  tokenize tk text true = Ok ids ->
  ishape ids = [b; l] -> 0 < l ->
  forallb (fun z => (0 <=? z)%Z && (z <? Z.of_nat v)%Z) (idata ids) = true ->
  shape (Embedding.weight emb) = [v; w] ->
  device (Embedding.weight emb) = CLIP.param_device self ->
  shape pos = [l; w] ->
  device pos = CLIP.param_device self ->
  (forall x0, shape x0 = [l; b; w] -> dtype x0 = CLIP.dtype self ->
              device x0 = CLIP.param_device self ->
     exists h tr', bert_Transformer_forward tr x0 = (Ok h, tr')
                   /\ shape h = shape x0 /\ dtype h = dtype x0
                   /\ device h = device x0) ->
  ln_wf (CLIP.ln_final self) w (CLIP.dtype self) (CLIP.param_device self) ->
  shape (CLIP.text_projection self) = [w; out] ->
  dtype (CLIP.text_projection self) = CLIP.dtype self ->
  device (CLIP.text_projection self) = CLIP.param_device self ->
  exists y tr',
    CLIP.encode_text self text
    = (Ok y, CLIP.set_transformer self (CLIP.OfTransformer tr'))
    /\ shape y = [b; out] /\ dtype y = CLIP.dtype self
    /\ device y = CLIP.param_device self.
Proof.
  intros Hb Htk Hemb Hpos Htr Hids Hsh Hl Hr Hw Hdev Hps Hpv Hstack Hln Htp Htpd Htpv.
  set (dt := CLIP.dtype self) in *. set (dv := CLIP.param_device self) in *.
  destruct (Embedding_forward_ok emb (ito ids dv) v w Hw) as (e & He & Hes & Hed & Hev).
  { rewrite idevice_ito. congruence. }
  { rewrite idata_ito. exact Hr. }
  rewrite ishape_ito, Hsh in Hes. simpl in Hes.
  assert (Hes' : shape (type_ e dt) = [b; l; w]) by (rewrite type_shape; exact Hes).
  destruct (add_positional_ok (type_ e dt) pos b l w Hes' Hps)
    as (q & Hq & Hqs & Hqd & Hqv).
  { rewrite type_device. congruence. }
  rewrite type_dtype in Hq, Hqd. rewrite type_device in Hqv.
  destruct (permute_102 q _ _ _ Hqs) as (x0 & Hx0 & Hx0s & Hx0d & Hx0v & _).
  destruct (Hstack x0 Hx0s) as (h & tr' & Hh & Hhs & Hhd & Hhv);
    [congruence | congruence |].
  rewrite Hx0s in Hhs.
  destruct (permute_102 h _ _ _ Hhs) as (hp & Hhp & Hhps & Hhpd & Hhpv & _).
  assert (Hhps' : shape hp = [b; l] ++ [w]) by exact Hhps.
  assert (Hln' : ln_wf (CLIP.ln_final self) w (dtype hp) (device hp)).
  { replace (dtype hp) with dt by congruence.
    replace (device hp) with dv by congruence. exact Hln. }
  pose proof (nnLayerNorm_forward_ok (CLIP.ln_final self) hp [b; l] w Hhps' Hln') as Hn.
  set (n := build (dtype hp) (device hp) (shape hp)
              (layer_norm_value (CLIP.ln_final self) hp w)) in *.
  destruct (argmax_ok (ito ids dv) b l) as (p & Hp & Hpsh & Hpdev & Hpv');
    [rewrite ishape_ito; exact Hsh | exact Hl |].
  assert (Hhid : shape (type_ n dt) = [b; l; w]) by (rewrite type_shape; exact Hhps).
  destruct (index_rows_ok (type_ n dt) p b l w Hhid Hpsh)
    as (sel & Hsel & Hsels & Hseld & Hselv).
  { right. rewrite Hpdev, idevice_ito, type_device. unfold n. simpl. congruence. }
  { intros r Hlt. destruct (Hpv' r Hlt) as (Hv1 & Hv2). rewrite Hv1. lia. }
  destruct (matmul_ok sel (CLIP.text_projection self) b w out Hsels Htp)
    as (y & Hy & Hys & Hyd & Hyv & _).
  { rewrite Hseld, type_dtype. congruence. }
  { rewrite Hselv, type_device. unfold n. simpl. congruence. }
  exists y, tr'. split.
  - unfold CLIP.encode_text. rewrite Hb, Htk, Hemb, Hpos, Htr. simpl String.eqb.
    cbv iota. unfold CLIP.embed_text. rewrite Hids. cbn [bind].
    fold dv. fold dt. rewrite He. cbn [bind]. rewrite Hq. cbn [bind].
    rewrite Hx0. cbn [bind]. rewrite Hh. cbn [bind].
    unfold CLIP.pool_text. rewrite Hhp. cbn [bind]. rewrite Hn. cbn [bind].
    rewrite Hp. cbn [bind]. fold dt. rewrite Hhid. cbn [nth].
    rewrite Hsel. cbn [bind]. rewrite Hy. reflexivity.
  - split; [exact Hys|]. split; [rewrite Hyd, Hseld; apply type_dtype|].
    rewrite Hyv, Hselv, type_device. unfold n. simpl. congruence.
Qed.

(** X17. Variant A returns a (B, embed_dim) tensor of the model's dtype.
    For B texts tokenized to ids within the vocabulary, sequences as long as
    the positional embedding, the embedding table and the positional
    embedding on the model's device, a text stack that returns a tensor of
    the shape, dtype and device of its input, and ln_final and
    text_projection matching: the argmax positions are always inside the
    sequence, so the pooling cannot fail, and only the text stack changes. *)
Theorem encode_text_openai_shape (self : CLIP.t (R := R))
  (text : list String.string) tk emb pos tr ids (b l v w out : nat) :
  CLIP.bert_type self = "openai" ->
  CLIP.tokenizer self = Some (CLIP.OfSimpleTokenizer tk) ->
  CLIP.token_embedding self = Some emb ->
  CLIP.positional_embedding self = Some pos ->
  CLIP.transformer self = Some (CLIP.OfTransformer tr) ->
  tokenize tk text true = Ok ids ->
  ishape ids = [b; l] -> 0 < l ->
  forallb (fun z => (0 <=? z)%Z && (z <? Z.of_nat v)%Z) (idata ids) = true ->
  shape (Embedding.weight emb) = [v; w] ->
  device (Embedding.weight emb) = CLIP.param_device self ->
  shape pos = [l; w] ->
  device pos = CLIP.param_device self ->
  (forall x0, shape x0 = [l; b; w] -> dtype x0 = CLIP.dtype self ->
              device x0 = CLIP.param_device self ->
     exists h tr', bert_Transformer_forward tr x0 = (Ok h, tr')
                   /\ shape h = shape x0 /\ dtype h = dtype x0
                   /\ device h = device x0) ->
  ln_wf (CLIP.ln_final self) w (CLIP.dtype self) (CLIP.param_device self) ->
  shape (CLIP.text_projection self) = [w; out] ->
  dtype (CLIP.text_projection self) = CLIP.dtype self ->
  device (CLIP.text_projection self) = CLIP.param_device self ->
  exists y tr',
    CLIP.encode_text self text
    = (Ok y, CLIP.set_transformer self (CLIP.OfTransformer tr'))
    /\ shape y = [b; out] /\ dtype y = CLIP.dtype self.
Proof.
  intros Hb Htk Hemb Hpos Htr Hids Hsh Hl Hr Hw Hdev Hps Hpv Hstack Hln Htp Htpd Htpv.
  destruct (encode_text_openai_ok self text tk emb pos tr ids b l v w out
              Hb Htk Hemb Hpos Htr Hids Hsh Hl Hr Hw Hdev Hps Hpv Hstack Hln Htp Htpd Htpv)
    as (y & tr' & H & Hs & Hd & _).
  exists y, tr'. auto.
Qed.

(** X16. Variant B returns a (B, embed_dim) tensor of the model's dtype
    whenever the pretrained backbone returns a (B, w) pooled output that
    ln_final and text_projection match; the inputs of the backbone are the
    tokenizer's three tensors moved to the device of visual.conv1.weight,
    and only the backbone changes. *)
Theorem encode_text_huggingface_shape (self : CLIP.t (R := R))
  (text : list String.string) tk m m' enc p (b w out : nat) :
  CLIP.bert_type self = "huggingface" ->
  CLIP.tokenizer self = Some (CLIP.OfBertTokenizer tk) ->
  CLIP.transformer self = Some (CLIP.OfBertModel m) ->
  BertTokenizer_call tk text = Ok enc ->
  BertModel_pooler_output m
    (ito (input_ids enc) (CLIP.param_device self))
    (ito (attention_mask enc) (CLIP.param_device self))
    (ito (token_type_ids enc) (CLIP.param_device self)) = (Ok p, m') ->
  shape p = [b; w] ->
  ln_wf (CLIP.ln_final self) w (dtype p) (device p) ->
  shape (CLIP.text_projection self) = [w; out] ->
  dtype (CLIP.text_projection self) = CLIP.dtype self ->
  device (CLIP.text_projection self) = device p ->
  exists y,
    CLIP.encode_text self text
    = (Ok y, CLIP.set_transformer self (CLIP.OfBertModel m'))
    /\ shape y = [b; out] /\ dtype y = CLIP.dtype self.
Proof.
  intros Hb Htk Htr Henc Hpool Hps Hln Htp Htpd Htpv.
  assert (Hps' : shape p = [b] ++ [w]) by exact Hps.
  pose proof (nnLayerNorm_forward_ok (CLIP.ln_final self) p [b] w Hps' Hln) as Hn.
  set (n := build (dtype p) (device p) (shape p)
              (layer_norm_value (CLIP.ln_final self) p w)) in *.
  assert (Hns : shape (type_ n (CLIP.dtype self)) = [b; w])
    by (rewrite type_shape; exact Hps).
  destruct (matmul_ok (type_ n (CLIP.dtype self)) (CLIP.text_projection self)
              b w out Hns Htp) as (y & Hy & Hys & Hyd & _).
  { rewrite type_dtype. congruence. }
  { rewrite type_device. unfold n. simpl. congruence. }
  exists y. split.
  - unfold CLIP.encode_text. rewrite Hb, Htk, Htr. simpl String.eqb. cbv iota.
    rewrite Henc, Hpool. cbn [bind]. rewrite Hn. cbn [bind]. rewrite Hy.
    reflexivity.
  - split; [exact Hys|]. rewrite Hyd. apply type_dtype.
Qed.

Lemma CLIP_init_visual (a : CLIP.args) (c : CLIP.t (R := R)) :
  CLIP.init a = Ok c ->
  VisionTransformer.init 100 (CLIP.a_input_resolution a) (CLIP.a_vision_patch_size a)
    (CLIP.a_vision_width a) (CLIP.a_vision_layers a) (CLIP.a_vision_width a / 64)
    (CLIP.a_embed_dim a) = Ok (CLIP.visual c).
Proof.
  unfold CLIP.init.
  destruct (VisionTransformer.init 100 _ _ _ _ _ _) as [vis|]; [|discriminate].
  cbn [bind].
  destruct (CLIP.init_text a) as [[[[[[tk tr] vs] emb] pos] w]|]; [|discriminate].
  cbn [bind].
  destruct (guard (0 <? w) ZeroDivisionError); [|discriminate]. cbn [bind].
  intros H. injection H as <-. reflexivity.
Qed.

(** X18. A model that CLIP.__init__ has returned, whichever the text
    variant, encodes a batch of B >= 1 images of shape
    (B, 3, input_resolution, input_resolution) on the CPU, of any floating
    dtype, to a float32 tensor of shape (B, embed_dim), provided the patch
    size is at most the resolution; the model is left as it was. *)
Theorem init_then_encode_image (a : CLIP.args) (c : CLIP.t (R := R))
  (image : Tensor R) (b : nat) :
  CLIP.init a = Ok c ->
  CLIP.a_vision_patch_size a <= CLIP.a_input_resolution a ->
  1 <= b ->
  shape image = [b; 3; CLIP.a_input_resolution a; CLIP.a_input_resolution a] ->
  device image = CPU ->
  exists y,
    CLIP.encode_image c image = (Ok y, c)
    /\ shape y = [b; CLIP.a_embed_dim a] /\ dtype y = Float32.
Proof.
  intros Hc Hres Hb Hs Hv.
  pose proof (CLIP_init_visual a c Hc) as Hvis.
  destruct (VisionTransformer_init_inv _ _ _ _ _ _ _ _ Hvis)
    as (Hw & Hp & Hr & _ & _ & _ & Hwf).
  assert (Hdt : CLIP.dtype c = Float32) by (unfold CLIP.dtype; apply Hwf).
  set (x := type_ image (CLIP.dtype c)).
  assert (Hwf' : vit_wf (CLIP.visual c) (CLIP.a_vision_patch_size a)
                   (CLIP.a_vision_width a) (CLIP.a_embed_dim a) (dtype x) (device x))
    by (unfold x; rewrite type_dtype, type_device, Hdt, Hv; exact Hwf).
  assert (Hs' : shape x = [b; 3; VisionTransformer.input_resolution (CLIP.visual c);
                           VisionTransformer.input_resolution (CLIP.visual c)])
    by (unfold x; rewrite type_shape, Hr; exact Hs).
  assert (Hres' : CLIP.a_vision_patch_size a
                  <= VisionTransformer.input_resolution (CLIP.visual c))
    by (rewrite Hr; exact Hres).
  destruct (VisionTransformer_forward_ok (CLIP.visual c) x b _ _ _ Hwf' Hp Hres' Hw Hb Hs')
    as (e & z & zp & x0 & n & pr & y & _ & _ & _ & _ & _ & _ & _ & _ & Hfw & Hys & Hyd
        & _).
  exists y. unfold CLIP.encode_image. fold x. rewrite Hfw, set_visual_same.
  split; [reflexivity|]. split; [exact Hys|].
  rewrite Hyd. unfold x. rewrite type_dtype. exact Hdt.
Qed.

End TextShapeFacts.

(** ** A stack built with a mask *)

Section MaskedStackFacts.
Context {R : Type} {RT : Runtime R} {AT : Attention R}.

(** A stack of matching blocks whose masks are square matrices of the
    sequence length maps a (seq, batch, width) input to an output of the
    same shape; it keeps its length. *)
Lemma run_masked_ok (bs : list (ResidualAttentionBlock.t (R := R))) :
  forall (x : Tensor R) l n d,
    Forall (fun b => block_wf b d (dtype x) (device x)
                     /\ mask_fits (ResidualAttentionBlock.attn_mask b) l) bs ->
    shape x = [l; n; d] ->
    exists y bs', Transformer.run bs x = (Ok y, bs')
      /\ length bs' = length bs
      /\ shape y = shape x /\ dtype y = dtype x /\ device y = device x.
Proof.
  induction bs as [|b bs IH]; intros x l n d Hall Hs.
  - exists x, []. simpl. auto.
  - inversion Hall as [|? ? [Hwf Hfit] Hrest]; subst.
    destruct (block_forward_ok b x l n d Hwf Hfit Hs)
      as (h1 & y & _ & Hfw & Hys & Hyd & Hyv).
    destruct (IH y l n d) as (z & bs' & Hz & Hlen & Hzs & Hzd & Hzv).
    + rewrite Hyd, Hyv. exact Hrest.
    + congruence.
    + eexists z, (_ :: bs'). simpl. rewrite Hfw, Hz.
      split; [reflexivity|]. simpl. repeat split; congruence.
Qed.


End MaskedStackFacts.

(** ** forward, end to end *)

Section EndToEnd.
Context {R : Type} {RT : Runtime R} {AT : Attention R} {TC : TextCollaborators R}.
Local Open Scope string_scope.

(** The text side as the "openai" branch of __init__ lays it out, with
    every parameter on the model's device: a table of v embeddings of width
    w, a positional embedding of l rows, ln_final over w, and a projection
    to [out] dimensions in the model's dtype. *)
Definition openai_wf (self : CLIP.t (R := R)) (tk : SimpleTokenizer)
  (emb : Embedding.t (R := R)) (pos : Tensor R) (tr : bert_Transformer)
  (l v w out : nat) : Prop :=
  CLIP.bert_type self = "openai"
  /\ CLIP.tokenizer self = Some (CLIP.OfSimpleTokenizer tk)
  /\ CLIP.token_embedding self = Some emb
  /\ CLIP.positional_embedding self = Some pos
  /\ CLIP.transformer self = Some (CLIP.OfTransformer tr)
  /\ shape (Embedding.weight emb) = [v; w]
  /\ device (Embedding.weight emb) = CLIP.param_device self
  /\ shape pos = [l; w]
  /\ device pos = CLIP.param_device self
  /\ ln_wf (CLIP.ln_final self) w (CLIP.dtype self) (CLIP.param_device self)
  /\ shape (CLIP.text_projection self) = [w; out]
  /\ dtype (CLIP.text_projection self) = CLIP.dtype self
  /\ device (CLIP.text_projection self) = CLIP.param_device self.

(** X19. forward returns on n >= 1 images and m texts.  For a vision
    tower and a text side laid out as __init__ lays them out, with one
    embedding dimension, images of the tower's resolution on the model's
    device, texts tokenized to ids within the vocabulary in sequences as
    long as the positional embedding, a text stack that preserves shape,
    dtype and device, and a zero-dimensional logit_scale on the model's
    device or the CPU: the logits have shapes (n, m) and (m, n) and the
    model's dtype, logits_per_text is the transpose of logits_per_image, and
    of the model only the text stack is assigned. *)
Theorem forward_returns_logits (self : CLIP.t (R := R)) (image : Tensor R)
  (text : list String.string) tk emb pos tr ids (n m l v w patch vw out : nat) :
  vit_wf (CLIP.visual self) patch vw out (CLIP.dtype self) (device image) ->
  0 < patch -> patch <= VisionTransformer.input_resolution (CLIP.visual self) ->
  0 < vw -> 1 <= n ->
  shape image = [n; 3; VisionTransformer.input_resolution (CLIP.visual self);
                 VisionTransformer.input_resolution (CLIP.visual self)] ->
  openai_wf self tk emb pos tr l v w out ->
  tokenize tk text true = Ok ids ->
  ishape ids = [m; l] -> 0 < l ->
  forallb (fun z => (0 <=? z)%Z && (z <? Z.of_nat v)%Z) (idata ids) = true ->
  (forall x0, shape x0 = [l; m; w] -> dtype x0 = CLIP.dtype self ->
              device x0 = CLIP.param_device self ->
     exists h tr', bert_Transformer_forward tr x0 = (Ok h, tr')
                   /\ shape h = shape x0 /\ dtype h = dtype x0
                   /\ device h = device x0) ->
  shape (CLIP.logit_scale self) = [] ->
  device (CLIP.logit_scale self) = CLIP.param_device self
  \/ device (CLIP.logit_scale self) = CPU ->
  exists lpi lpt tr',
    CLIP.forward self image text
    = (Ok (lpi, lpt), CLIP.set_transformer self (CLIP.OfTransformer tr'))
    /\ shape lpi = [n; m] /\ shape lpt = [m; n]
    /\ dtype lpi = CLIP.dtype self
    /\ t_ lpi = Ok lpt.
Proof.
  intros Hwf Hp Hres Hvw Hn Hs Htext Hids Hsh Hl Hr Hstack Hls Hlv.
  destruct Htext as (Hb & Htk & Hemb & Hpos & Htr & Hw & Hdev & Hps & Hpv & Hln
                     & Htp & Htpd & Htpv).
  assert (Hpd : CLIP.param_device self = device image)
    by (unfold CLIP.param_device; apply Hwf).
  set (x := type_ image (CLIP.dtype self)).
  assert (Hwf' : vit_wf (CLIP.visual self) patch vw out (dtype x) (device x))
    by (unfold x; rewrite type_dtype, type_device; exact Hwf).
  assert (Hs' : shape x = [n; 3; VisionTransformer.input_resolution (CLIP.visual self);
                           VisionTransformer.input_resolution (CLIP.visual self)])
    by (unfold x; rewrite type_shape; exact Hs).
  destruct (VisionTransformer_forward_ok (CLIP.visual self) x n patch vw out
              Hwf' Hp Hres Hvw Hn Hs')
    as (e & z & zp & x0 & nn & pr & fi & _ & _ & _ & _ & _ & _ & _ & _ & Hfw & Hfs & Hfd
        & Hfv).
  unfold x in Hfd, Hfv. rewrite type_dtype in Hfd. rewrite type_device in Hfv.
  assert (Himg : CLIP.encode_image self image = (Ok fi, self)).
  { unfold CLIP.encode_image. fold x. rewrite Hfw, set_visual_same. reflexivity. }
  destruct (encode_text_openai_ok self text tk emb pos tr ids m l v w out
              Hb Htk Hemb Hpos Htr Hids Hsh Hl Hr Hw Hdev Hps Hpv Hstack Hln Htp Htpd Htpv)
    as (ft & tr' & Htxt & Hts & Htd & Htv).
  destruct (logits_ok (CLIP.set_transformer self (CLIP.OfTransformer tr')) fi ft
              n m out Hfs Hts)
    as (lpi & lpt & Hlog & Hlpis & Hlpts & Hlpid & _).
  { congruence. }
  { congruence. }
  { exact Hls. }
  { cbn [CLIP.logit_scale CLIP.set_transformer].
    destruct Hlv as [Hlv|Hlv]; [left; congruence | right; exact Hlv]. }
  exists lpi, lpt, tr'. split.
  - unfold CLIP.forward. rewrite Himg, Htxt. cbn [bind]. rewrite Hlog. reflexivity.
  - split; [exact Hlpis|]. split; [exact Hlpts|]. split; [congruence|].
    destruct (logits_inv _ _ _ _ _ Hlog)
      as (ni & xi & nt & xt & scaled & tt' & _ & _ & _ & _ & _ & _ & _ & Ht').
    exact Ht'.
Qed.

End EndToEnd.

(** ** The further properties at concrete inputs *)

(** The default vision configuration. *)
Lemma VisionTransformer_init_layout_witness :
  exists v : VisionTransformer.t (R := num),
    VisionTransformer.init 100 224 32 768 12 12 512 = Ok v
    /\ length (Transformer.resblocks (VisionTransformer.transformer v)) = 12
    /\ shape (VisionTransformer.positional_embedding v) = [50; 768].
Proof.
  destruct (VisionTransformer_init_layout (R := num) 100 224 32 768 12 12 512)
    as (_ & Hok & Hlay).
  destruct Hok as (v & Hv); [lia | lia | lia | reflexivity |].
  destruct (Hlay v Hv) as (_ & _ & Hlen & Hpe & _).
  exists v. split; [exact Hv|]. split; [exact Hlen|exact Hpe].
Defined.

(** With the collaborators of [Eval], the "openai" branch of
    CLIP.__init__ returns. *)
Lemma init_openai_returns (a : CLIP.args) :
  CLIP.a_bert_type a = "openai" ->
  0 < CLIP.a_vision_width a / 64 ->
  CLIP.a_vision_width a mod (CLIP.a_vision_width a / 64) = 0 ->
  0 < CLIP.a_vision_patch_size a ->
  0 < CLIP.a_transformer_width a -> 0 < CLIP.a_transformer_heads a ->
  CLIP.a_transformer_width a mod CLIP.a_transformer_heads a = 0 ->
  exists c : CLIP.t (R := num), CLIP.init a = Ok c.
Proof.
  intros Hb Hheads Hdiv Hp Hw Hh Hwdiv.
  assert (Hvw : 0 < CLIP.a_vision_width a).
  { destruct (CLIP.a_vision_width a); [simpl in Hheads; lia | lia]. }
  destruct (VisionTransformer_init_ok (R := num) 100 (CLIP.a_input_resolution a)
              (CLIP.a_vision_patch_size a) (CLIP.a_vision_width a)
              (CLIP.a_vision_layers a) (CLIP.a_vision_width a / 64)
              (CLIP.a_embed_dim a) Hvw Hp Hheads Hdiv) as (vis & Hvis & _).
  destruct (build_attention_mask_ok (R := num) (CLIP.a_context_length a))
    as (mask & Hmask & _).
  destruct (init_blocks_ok (R := num) (CLIP.a_transformer_width a)
              (CLIP.a_transformer_heads a) (Some mask) Hw Hh Hwdiv
              (CLIP.a_transformer_layers a) 50) as (bs & Hbs & _).
  unfold CLIP.init. rewrite Hvis. cbn [bind].
  unfold CLIP.init_text. rewrite Hb. simpl String.eqb. cbv iota.
  change (@SimpleTokenizer_init num text) with (Ok tt). cbn [bind].
  rewrite Hmask. cbn [bind].
  change (@bert_Transformer_init num text) with
    (fun w l h m => Transformer.init (R := num) 50 w l h m).
  cbv beta. unfold Transformer.init. rewrite Hbs. cbn [bind].
  rewrite (ltb_true _ _ Hw). cbn [guard bind]. eexists. reflexivity.
Qed.

(** CLIP() with every argument at its default. *)
Lemma CLIP_init_layout_witness :
  exists (c : CLIP.t (R := num)) emb pos,
    CLIP.init CLIP.default_args = Ok c
    /\ CLIP.dtype c = Float32
    /\ shape (CLIP.text_projection c) = [768; 512]
    /\ CLIP.token_embedding c = Some emb
    /\ shape (Embedding.weight emb) = [49408; 768]
    /\ CLIP.positional_embedding c = Some pos
    /\ shape pos = [77; 768].
Proof.
  destruct (init_openai_returns CLIP.default_args) as (c & Hc);
    [reflexivity | vm_compute; lia | reflexivity | vm_compute; lia
     | vm_compute; lia | vm_compute; lia | reflexivity |].
  destruct (CLIP_init_layout CLIP.default_args c Hc)
    as (_ & _ & Hdt & _ & _ & w & _ & Htp & _ & _ & Hopen & _).
  destruct (Hopen eq_refl) as (Hw & _ & tk & tr & emb & pos & _ & _ & Hemb & Hes
                               & Hpos & Hps).
  exists c, emb, pos. split; [exact Hc|]. split; [exact Hdt|].
  split; [rewrite Htp, Hw; reflexivity|].
  split; [exact Hemb|]. split; [exact Hes|]. split; [exact Hpos|exact Hps].
Defined.

(** CLIP(bert_type="huggingface") without a model name. *)
Definition unnamed_args : CLIP.args :=
  CLIP.mkArgs "huggingface" 512 224 12 768 32 77 12 768 12 49408 [].

Lemma init_huggingface_needs_model_name_witness :
  CLIP.init (R := num) unnamed_args = Raise KeyError.
Proof.
  apply (init_huggingface_needs_model_name (R := num) unnamed_args);
    [reflexivity | intros v [] | vm_compute; lia | reflexivity | vm_compute; lia].
Defined.

(** The block on the GPU with its mask on the CPU. *)
Lemma reconciled_mask_stays_causal_witness :
  exists mask m',
    CLIP.build_attention_mask 3 = Ok mask
    /\ ResidualAttentionBlock.attn_mask gpu_block = Some mask
    /\ ResidualAttentionBlock.reconciled_mask gpu_block gpu_input = Some m'
    /\ device m' = CUDA 0
    /\ get m' [0; 1] = NegInf /\ get m' [1; 0] = Num 0.
Proof.
  assert (Hm : exists mask, CLIP.build_attention_mask 3 = Ok mask
                 /\ ResidualAttentionBlock.attn_mask gpu_block = Some mask)
    by (vm_compute; eexists; split; reflexivity).
  destruct Hm as (mask & Hmask & Hstored).
  destruct (reconciled_mask_stays_causal gpu_block gpu_input mask 3 Hmask Hstored)
    as (m' & Hm' & _ & _ & Hdv & Hget).
  exists mask, m'. split; [exact Hmask|]. split; [exact Hstored|].
  split; [exact Hm'|]. split; [exact Hdv|].
  split; [apply (Hget 0 1); lia | apply (Hget 1 0); lia].
Defined.

(** A stack of that one block, run twice. *)
Definition gpu_stack : Transformer.t (R := num) := Transformer.mk 2 1 [gpu_block].

Lemma stack_settles_after_first_pass_witness :
  exists y tr1,
    Transformer.forward gpu_stack gpu_input = (Ok y, tr1)
    /\ tr1 <> gpu_stack
    /\ snd (Transformer.forward tr1 (zeros [3; 5; 2] Float32 (CUDA 0))) = tr1.
Proof.
  pose (r := Transformer.forward gpu_stack gpu_input).
  assert (Hf : exists y, fst r = Ok y) by (vm_compute; eauto).
  destruct Hf as (y & Hf).
  assert (E : Transformer.forward gpu_stack gpu_input = (Ok y, snd r))
    by (rewrite <- Hf; apply surjective_pairing).
  destruct (stack_settles_after_first_pass gpu_stack (snd r) gpu_input
              (zeros [3; 5; 2] Float32 (CUDA 0)) y E eq_refl eq_refl)
    as (_ & Hsame).
  exists y, (snd r). split; [exact E|]. split; [|exact Hsame].
  intros Heq.
  assert (Hb : Transformer.resblocks (snd r) = [gpu_block])
    by (rewrite Heq; reflexivity).
  vm_compute in Hb. discriminate Hb.
Defined.


(** The default vision encoder with and without its projection. *)
Lemma forward_without_proj_witness :
  exists (v : VisionTransformer.t (R := num)) n y,
    VisionTransformer.init 100 224 32 768 12 12 512 = Ok v
    /\ VisionTransformer.forward (without_proj v) (ones [1; 3; 224; 224])
       = (Ok n, without_proj v)
    /\ shape n = [1; 768]
    /\ VisionTransformer.forward v (ones [1; 3; 224; 224]) = (Ok y, v)
    /\ shape y = [1; 512].
Proof.
  destruct (VisionTransformer_init_ok (R := num) 100 224 32 768 12 12 512)
    as (v & Hv & Hres & _ & _ & Hwf); [lia | lia | lia | reflexivity |].
  assert (Hs : shape (ones (R := num) [1; 3; 224; 224])
               = [1; 3; VisionTransformer.input_resolution v;
                  VisionTransformer.input_resolution v])
    by (rewrite Hres; reflexivity).
  assert (Hle : 32 <= VisionTransformer.input_resolution v) by (rewrite Hres; lia).
  destruct (forward_without_proj v (ones [1; 3; 224; 224]) 1 32 768 512
              Hwf ltac:(lia) Hle ltac:(lia) ltac:(lia) Hs)
    as (n & pr & y & Hn & Hns & _ & _ & Hy & Hys).
  exists v, n, y. split; [exact Hv|]. split; [exact Hn|]. split; [exact Hns|].
  split; [exact Hy|exact Hys].
Defined.

Lemma small_visual_built :
  VisionTransformer.init 100 2 2 2 1 1 2 = Ok (CLIP.visual small_clip).
Proof. reflexivity. Qed.

(** A half-precision image through the small model. *)
Lemma encode_image_any_dtype_witness :
  exists y,
    CLIP.encode_image small_clip (zeros [1; 3; 2; 2] Float16 CPU) = (Ok y, small_clip)
    /\ shape y = [1; 2] /\ dtype y = Float32
    /\ VisionTransformer.forward (CLIP.visual small_clip) (zeros [1; 3; 2; 2] Float16 CPU)
       = (Raise DTypeError, CLIP.visual small_clip).
Proof.
  destruct (VisionTransformer_init_inv _ _ _ _ _ _ _ _ small_visual_built)
    as (_ & _ & _ & _ & _ & _ & Hwf).
  destruct (encode_image_any_dtype small_clip (zeros [1; 3; 2; 2] Float16 CPU)
              1 2 2 2 Hwf ltac:(lia) (le_n 2) ltac:(lia) ltac:(lia) eq_refl)
    as ((y & Hy & Hys & Hyd) & Hraw).
  exists y. split; [exact Hy|]. split; [exact Hys|]. split; [exact Hyd|].
  apply Hraw. discriminate.
Defined.

(** A 256 x 256 image through the default encoder, built for 224 x 224. *)
Lemma forward_rejects_other_patch_count_witness :
  exists v : VisionTransformer.t (R := num),
    VisionTransformer.init 100 224 32 768 12 12 512 = Ok v
    /\ VisionTransformer.forward v (ones [1; 3; 256; 256]) = (Raise ShapeError, v).
Proof.
  destruct (VisionTransformer_init_ok (R := num) 100 224 32 768 12 12 512)
    as (v & Hv & Hres & _ & _ & Hwf); [lia | lia | lia | reflexivity |].
  exists v. split; [exact Hv|].
  apply (forward_rejects_other_patch_count v (ones [1; 3; 256; 256])
           1 256 256 32 768 512 Hwf);
    [lia | rewrite Hres; lia | lia | lia | reflexivity | lia | lia
     | rewrite Hres; vm_compute; lia].
Defined.

(** Two 3 x 3 images that differ only in their last row and column,
    through the small encoder, whose patches are 2 x 2. *)
Definition odd_image : Tensor num :=
  build Float32 CPU [1; 3; 3; 3] (fun idx => Num (Z.of_nat (ravel [1; 3; 3; 3] idx))).

Definition odd_image' : Tensor num :=
  build Float32 CPU [1; 3; 3; 3]
    (fun idx => match idx with
                | [n; ch; r; cl] =>
                    if (r <? 2) && (cl <? 2)
                    then Num (Z.of_nat (ravel [1; 3; 3; 3] idx)) else Num 0
                | _ => Num 0
                end).

Lemma forward_ignores_trailing_pixels_witness :
  get odd_image' [0; 0; 2; 2] <> get odd_image [0; 0; 2; 2]
  /\ VisionTransformer.forward (CLIP.visual small_clip) odd_image'
     = VisionTransformer.forward (CLIP.visual small_clip) odd_image.
Proof.
  split; [vm_compute; discriminate|].
  apply (forward_ignores_trailing_pixels (CLIP.visual small_clip) odd_image odd_image'
           1 3 3 2 2 eq_refl eq_refl eq_refl eq_refl eq_refl eq_refl).
  change (3 / 2 * 2) with 2.
  intros n ch r cl Hn Hch Hr Hcl.
  assert (n = 0) by lia. subst n.
  destruct ch as [|[|[|ch]]]; [| | |lia];
    (destruct r as [|[|r]]; [| |lia]);
    (destruct cl as [|[|cl]]; [| |lia]); reflexivity.
Defined.

(** Small models around other text sides: the vision tower of
    [small_model], the text side as the branch of CLIP.__init__ on bert_type
    builds it from the arguments. *)
Definition toy_model {TC : TextCollaborators num} (a : CLIP.args)
  : result (CLIP.t (R := num)) :=
  vis <- VisionTransformer.init 100 2 2 2 1 1 2 ;;
  ' (tk, tr, vs, emb, pos, w) <- CLIP.init_text a ;;
  Ok (CLIP.mk (CLIP.a_context_length a) vis (CLIP.a_bert_type a) tk tr vs emb pos
        (build Float32 CPU [w; 2] (fun idx => Num (Z.of_nat (ravel [w; 2] idx) + 1)))
        (nnLayerNorm.init w) (scalar_mul (Num 1) (ones []))).

(** context_length = 3, while the tokenizer returns rows of four ids. *)
Definition short_clip : CLIP.t (R := num) :=
  ltac:(let r := eval vm_compute in
                 (toy_model (CLIP.mkArgs "openai" 2 2 1 64 2 3 1 2 1 258 [])) in
        match r with Ok ?c => exact c end).

(** vocab_size = 100, while the tokenizer returns the ids 256 and 257. *)
Definition narrow_clip : CLIP.t (R := num) :=
  ltac:(let r := eval vm_compute in
                 (toy_model (CLIP.mkArgs "openai" 2 2 1 64 2 4 1 2 1 100 [])) in
        match r with Ok ?c => exact c end).

Lemma encode_text_length_mismatch_witness :
  CLIP.encode_text short_clip small_texts = (Raise ShapeError, short_clip).
Proof.
  eapply (encode_text_length_mismatch short_clip small_texts tt _ _ _ _ 2 4 258 2 3 2);
    [reflexivity | reflexivity | reflexivity | reflexivity | reflexivity
     | reflexivity | reflexivity | reflexivity | reflexivity | reflexivity
     | reflexivity | reflexivity | lia | lia | lia].
Defined.

Lemma encode_text_id_out_of_vocabulary_witness :
  CLIP.encode_text narrow_clip small_texts = (Raise IndexError, narrow_clip).
Proof.
  eapply (encode_text_id_out_of_vocabulary narrow_clip small_texts tt _ _ _ _ 100 2
            256%Z);
    [reflexivity | reflexivity | reflexivity | reflexivity | reflexivity
     | reflexivity | reflexivity | reflexivity | left; reflexivity | lia].
Defined.

(** One image embedding against three text embeddings, one of them all
    zeros. *)
Definition one_image_row : Tensor num :=
  build Float32 CPU [1; 2] (fun idx => Num (Z.of_nat (ravel [1; 2] idx) + 3)).

Definition three_text_rows : Tensor num :=
  build Float32 CPU [3; 2] (fun idx => Num (Z.of_nat (ravel [3; 2] idx / 2 * 4))).

Lemma logits_total_witness :
  get three_text_rows [0; 0] = Num 0 /\ get three_text_rows [0; 1] = Num 0
  /\ exists lpi lpt,
       CLIP.logits small_clip one_image_row three_text_rows = Ok (lpi, lpt)
       /\ shape lpi = [1; 3] /\ shape lpt = [3; 1].
Proof.
  split; [reflexivity|]. split; [reflexivity|].
  destruct (logits_total small_clip one_image_row three_text_rows 1 3 2
              eq_refl eq_refl eq_refl eq_refl eq_refl (or_introl eq_refl))
    as (lpi & lpt & H & Hs & Ht & _).
  exists lpi, lpt. split; [exact H|]. split; [exact Hs|exact Ht].
Defined.

(** A float32 input through the normalization layer of the default
    vision width. *)
Lemma LayerNorm_float32_is_base_witness :
  LayerNorm.forward (LayerNorm.init (R := num) 768) (zeros [2; 50; 768] Float32 CPU)
  = nnLayerNorm.forward (LayerNorm.init (R := num) 768) (zeros [2; 50; 768] Float32 CPU).
Proof.
  apply (LayerNorm_float32_is_base (LayerNorm.init (R := num) 768)
           (zeros [2; 50; 768] Float32 CPU) eq_refl).
Defined.

(** QuickGELU on the small image. *)
Lemma QuickGELU_elementwise_witness :
  exists y,
    QuickGELU.forward small_image = Ok y
    /\ shape y = [1; 3; 2; 2]
    /\ get y [0; 1; 0; 1]
       = fmul Float32 (get small_image [0; 1; 0; 1])
           (fsigmoid Float32 (fmul Float32 (of_decimal 1702 (-3))
                                (get small_image [0; 1; 0; 1]))).
Proof.
  destruct (QuickGELU_elementwise small_image (build_wf _ _ _ _))
    as (y & Hy & Hs & _ & _ & Hget).
  exists y. split; [exact Hy|]. split; [exact Hs|].
  rewrite (Hget [0; 1; 0; 1] eq_refl). reflexivity.
Defined.

(** A stand-in for the pretrained tokenizer and backbone: the ids of
    the toy tokenizer, an all-ones attention mask, zero token types, and a
    pooled output of hidden size 3 read off the ids. *)
Definition toy_batch (texts : list String.string) : BatchEncoding :=
  let sh := [length texts; 4] in
  mkBatchEncoding (mkIntTensor CPU sh (flat_map encode_row texts))
    (ibuild CPU sh (fun _ => 1%Z)) (ibuild CPU sh (fun _ => 0%Z)).

Definition toy_pooler (m : nat) (ids mask types : IntTensor)
  : result (Tensor num) * nat :=
  (Ok (build Float32 (idevice ids) [nth 0 (ishape ids) 0; m]
         (fun idx => match idx with
                     | [r; k] => Num (iget ids [r; k] + iget mask [r; k])
                     | _ => Num 0
                     end)), m).

Definition toy_bert : TextCollaborators num := {|
  SimpleTokenizer := unit;
  SimpleTokenizer_init := Ok tt;
  tokenize := toy_tokenize;
  bert_Transformer := Transformer.t (R := num);
  bert_Transformer_init := fun w l h m => Transformer.init 50 w l h m;
  bert_Transformer_forward := fun tr x => Transformer.forward tr x;
  BertTokenizer := unit;
  BertTokenizer_from_pretrained := fun _ => Ok tt;
  BertTokenizer_call := fun _ texts => Ok (toy_batch texts);
  BertModel := nat;
  BertModel_from_pretrained := fun _ => Ok 3;
  hidden_size := fun m => m;
  BertModel_pooler_output := toy_pooler
|}.

Definition bert_clip : CLIP.t (R := num) (TC := toy_bert) :=
  ltac:(let r := eval vm_compute in
                 (toy_model (TC := toy_bert)
                    (CLIP.mkArgs "huggingface" 2 2 1 64 2 4 1 2 1 258
                       [("huggingface_model_name", "toy")])) in
        match r with Ok ?c => exact c end).

Lemma encode_text_huggingface_shape_witness :
  exists y,
    CLIP.encode_text bert_clip small_texts
    = (Ok y, CLIP.set_transformer bert_clip (CLIP.OfBertModel (TC := toy_bert) 3))
    /\ shape y = [2; 2] /\ dtype y = CLIP.dtype bert_clip.
Proof.
  eapply (encode_text_huggingface_shape (TC := toy_bert) bert_clip small_texts
            tt 3 3 _ _ 2 3 2);
    [reflexivity | reflexivity | reflexivity | reflexivity | reflexivity
     | reflexivity | repeat split | reflexivity | reflexivity | reflexivity].
Defined.

(** The two texts through the small model. *)
Lemma encode_text_openai_shape_witness :
  exists y tr',
    CLIP.encode_text small_clip small_texts
    = (Ok y, CLIP.set_transformer small_clip (CLIP.OfTransformer tr'))
    /\ shape y = [2; 2] /\ dtype y = CLIP.dtype small_clip.
Proof.
  eapply (encode_text_openai_shape small_clip small_texts tt _ _ _ _ 2 4 258 2 2);
    [reflexivity | reflexivity | reflexivity | reflexivity | reflexivity
     | reflexivity | reflexivity | lia | reflexivity | reflexivity | reflexivity
     | reflexivity | reflexivity | | repeat split | reflexivity | reflexivity
     | reflexivity].
  intros x0 Hs Hd Hv.
  change (CLIP.dtype small_clip) with Float32 in Hd.
  change (CLIP.param_device small_clip) with CPU in Hv.
  match goal with
  | |- exists h tr', bert_Transformer_forward ?t _ = _ /\ _ =>
      change (exists h tr', Transformer.forward t x0 = (Ok h, tr')
                /\ shape h = shape x0 /\ dtype h = dtype x0 /\ device h = device x0);
      destruct (run_masked_ok (Transformer.resblocks t) x0 4 2 2)
        as (h & bs' & Hrun & _ & H1 & H2 & H3)
  end.
  - rewrite Hd, Hv. repeat constructor.
    intros mk Hmk. injection Hmk as <-. reflexivity.
  - exact Hs.
  - unfold Transformer.forward. rewrite Hrun. eexists. eexists.
    split; [reflexivity|]. auto.
Defined.

(** The all-ones image of the repository's smoke test through a model
    of the default configuration. *)
Lemma init_then_encode_image_witness :
  exists (c : CLIP.t (R := num)) y,
    CLIP.init CLIP.default_args = Ok c
    /\ CLIP.encode_image c (ones [1; 3; 224; 224]) = (Ok y, c)
    /\ shape y = [1; 512] /\ dtype y = Float32.
Proof.
  destruct (init_openai_returns CLIP.default_args) as (c & Hc);
    [reflexivity | vm_compute; lia | reflexivity | vm_compute; lia
     | vm_compute; lia | vm_compute; lia | reflexivity |].
  destruct (init_then_encode_image CLIP.default_args c (ones [1; 3; 224; 224]) 1 Hc)
    as (y & Hy & Hys & Hyd); [vm_compute; lia | lia | reflexivity | reflexivity |].
  exists c, y. split; [exact Hc|]. split; [exact Hy|]. split; [exact Hys|exact Hyd].
Defined.

(** One image and two texts through the small model. *)
Lemma forward_returns_logits_witness :
  exists lpi lpt tr',
    CLIP.forward small_clip small_image small_texts
    = (Ok (lpi, lpt), CLIP.set_transformer small_clip (CLIP.OfTransformer tr'))
    /\ shape lpi = [1; 2] /\ shape lpt = [2; 1]
    /\ dtype lpi = CLIP.dtype small_clip
    /\ t_ lpi = Ok lpt.
Proof.
  destruct (VisionTransformer_init_inv _ _ _ _ _ _ _ _ small_visual_built)
    as (_ & _ & _ & _ & _ & _ & Hwf).
  eapply (forward_returns_logits small_clip small_image small_texts tt _ _ _ _
            1 2 4 258 2 2 2 2 Hwf);
    [lia | apply le_n | lia | lia | reflexivity | repeat split | reflexivity
     | reflexivity | lia | reflexivity | | reflexivity | left; reflexivity].
  intros x0 Hs Hd Hv.
  change (CLIP.dtype small_clip) with Float32 in Hd.
  change (CLIP.param_device small_clip) with CPU in Hv.
  match goal with
  | |- exists h tr', bert_Transformer_forward ?t _ = _ /\ _ =>
      change (exists h tr', Transformer.forward t x0 = (Ok h, tr')
                /\ shape h = shape x0 /\ dtype h = dtype x0 /\ device h = device x0);
      destruct (run_masked_ok (Transformer.resblocks t) x0 4 2 2)
        as (h & bs' & Hrun & _ & H1 & H2 & H3)
  end.
  - rewrite Hd, Hv. repeat constructor.
    intros mk Hmk. injection Hmk as <-. reflexivity.
  - exact Hs.
  - unfold Transformer.forward. rewrite Hrun. eexists. eexists.
    split; [reflexivity|]. auto.
Defined.
